(** * Training-query backend: guardrails, intent parser, employee model,
      training service and the query pipeline, embedded from the Python
      sources under [backend/app].

    Text is modelled over 8-bit characters ([ascii]); [str.lower], the
    classes [\s], [\w], [\d] and [re.IGNORECASE] are the ASCII ones (codes
    above 127 are left alone by [lower] and belong to no class).  Python
    floats are modelled by exact rationals where a claim needs their value. *)

From Stdlib Require Import List Ascii String ZArith QArith Qround Lia Bool DecimalString.
From stdpp Require Import gmap strings.
Import ListNotations.

Local Open Scope string_scope.
Local Open Scope list_scope.

(** ** Text: characters, [str.lower], [str.strip], [in], [str.split] *)

Module Text.

Definition text := list ascii.

Definition T (s : string) : text := list_ascii_of_string s.

Definition code (c : ascii) : nat := nat_of_ascii c.

Definition is_upper (c : ascii) : bool :=
  (65 <=? code c)%nat && (code c <=? 90)%nat.

Definition is_lower (c : ascii) : bool :=
  (97 <=? code c)%nat && (code c <=? 122)%nat.

Definition is_digit (c : ascii) : bool :=
  (48 <=? code c)%nat && (code c <=? 57)%nat.

(** [\w]: letters, digits and the underscore. *)
Definition is_word (c : ascii) : bool :=
  is_upper c || is_lower c || is_digit c || (code c =? 95)%nat.

(** [str.isspace] / [\s] on ASCII: TAB, LF, VT, FF, CR, FS, GS, RS, US, SPACE. *)
Definition is_space (c : ascii) : bool :=
  ((9 <=? code c)%nat && (code c <=? 13)%nat)
  || ((28 <=? code c)%nat && (code c <=? 32)%nat).

Definition lower_char (c : ascii) : ascii :=
  if is_upper c then ascii_of_nat (code c + 32) else c.

(** [query.lower()] *)
Definition lower (s : text) : text := map lower_char s.

Definition eqc (a b : ascii) : bool := Ascii.eqb a b.

Fixpoint starts_with (k s : text) : bool :=
  match k, s with
  | [], _ => true
  | _ :: _, [] => false
  | a :: k', b :: s' => eqc a b && starts_with k' s'
  end.

(** [k in s] for strings: [k] occurs as a contiguous substring of [s]. *)
Fixpoint contains (k s : text) : bool :=
  starts_with k s ||
  match s with
  | [] => false
  | _ :: s' => contains k s'
  end.

Fixpoint lstrip (s : text) : text :=
  match s with
  | c :: s' => if is_space c then lstrip s' else s
  | [] => []
  end.

Definition rstrip (s : text) : text := rev (lstrip (rev s)).

(** [s.strip()] *)
Definition strip (s : text) : text := rstrip (lstrip s).

(** [len(s.split())]: the number of maximal runs of non-space characters.
    [inword] tells whether the previous character belonged to a run. *)
Fixpoint count_tokens (inword : bool) (s : text) : nat :=
  match s with
  | [] => 0
  | c :: s' =>
      if is_space c then count_tokens false s'
      else if inword then count_tokens true s'
      else S (count_tokens true s')
  end.

Definition split_len (s : text) : nat := count_tokens false s.

(** Python truthiness of a string. *)
Definition truthy (s : text) : bool :=
  match s with [] => false | _ => true end.

End Text.
Import Text.

(** ** The fragment of Python's [re] used by the sources

    A backtracking matcher in continuation-passing style: alternatives are
    tried left to right, a greedy star tries the longest repetition first,
    a lazy star the shortest, and the first complete match wins, which is
    the match [re.search] reports.  Every starred item of the source
    patterns is a single character class, so [Star] is restricted to
    them; [Rep1 r] is the greedy [(?:r)+], one more round being tried only
    after a round that consumed input, so that the length of the remaining
    text bounds the number of rounds. *)

Module Re.

Inductive cclass : Type :=
| CLit (c : ascii)
| CAny
| CSpace
| CWord
| CDigit
| CRange (lo hi : ascii)
| CSet (l : list ascii).

Inductive regex : Type :=
| Eps
| Chr (cl : cclass)
| Bnd
| Seq (r1 r2 : regex)
| Alt (r1 r2 : regex)
| Star (greedy : bool) (cl : cclass)
| Rep1 (r : regex)
| Grp (n : nat) (r : regex).

Record flags : Type := { ignorecase : bool; dotall : bool }.

Definition no_flags : flags := {| ignorecase := false; dotall := false |}.
Definition IGNORECASE : flags := {| ignorecase := true; dotall := false |}.
Definition IGNORECASE_DOTALL : flags := {| ignorecase := true; dotall := true |}.

Definition newline : ascii := "010"%char.

Definition upper_char (c : ascii) : ascii :=
  if is_lower c then ascii_of_nat (code c - 32) else c.

Definition lit_eq (fl : flags) (c x : ascii) : bool :=
  if ignorecase fl then eqc (lower_char c) (lower_char x) else eqc c x.

Definition cmatch (fl : flags) (cl : cclass) (x : ascii) : bool :=
  match cl with
  | CLit c => lit_eq fl c x
  | CAny => dotall fl || negb (eqc x newline)
  | CSpace => is_space x
  | CWord => is_word x
  | CDigit => is_digit x
  | CRange lo hi =>
      let within c := (code lo <=? code c)%nat && (code c <=? code hi)%nat in
      if ignorecase fl then within x || within (lower_char x) || within (upper_char x)
      else within x
  | CSet l => existsb (fun c => lit_eq fl c x) l
  end.

(** A position in the subject: the character before it, its index, and
    the text from it on. *)
Record pos : Type := mkpos { before : option ascii; idx : nat; rest : text }.

Definition caps : Type := list (nat * text).

Definition word_before (p : pos) : bool :=
  match before p with Some c => is_word c | None => false end.

Definition word_after (p : pos) : bool :=
  match rest p with c :: _ => is_word c | [] => false end.

(** [\b] *)
Definition at_boundary (p : pos) : bool := xorb (word_before p) (word_after p).

Section Matcher.
Context {R : Type} (fl : flags).

Definition cont : Type := pos -> caps -> option R.

Fixpoint star_greedy (cl : cclass) (prev : option ascii) (i : nat) (s : text)
    (cs : caps) (k : cont) : option R :=
  match s with
  | x :: s' =>
      if cmatch fl cl x then
        match star_greedy cl (Some x) (S i) s' cs k with
        | Some r => Some r
        | None => k (mkpos prev i s) cs
        end
      else k (mkpos prev i s) cs
  | [] => k (mkpos prev i s) cs
  end.

Fixpoint star_lazy (cl : cclass) (prev : option ascii) (i : nat) (s : text)
    (cs : caps) (k : cont) : option R :=
  match k (mkpos prev i s) cs with
  | Some r => Some r
  | None =>
      match s with
      | x :: s' =>
          if cmatch fl cl x then star_lazy cl (Some x) (S i) s' cs k else None
      | [] => None
      end
  end.

Fixpoint run (r : regex) (p : pos) (cs : caps) (k : cont) : option R :=
  match r with
  | Eps => k p cs
  | Chr cl =>
      match rest p with
      | x :: s' =>
          if cmatch fl cl x then k (mkpos (Some x) (S (idx p)) s') cs else None
      | [] => None
      end
  | Bnd => if at_boundary p then k p cs else None
  | Seq r1 r2 => run r1 p cs (fun p' cs' => run r2 p' cs' k)
  | Alt r1 r2 =>
      match run r1 p cs k with
      | Some x => Some x
      | None => run r2 p cs k
      end
  | Star greedy cl =>
      if greedy then star_greedy cl (before p) (idx p) (rest p) cs k
      else star_lazy cl (before p) (idx p) (rest p) cs k
  | Rep1 r1 =>
      (fix loop (fuel : nat) (p0 : pos) (cs0 : caps) {struct fuel} : option R :=
         run r1 p0 cs0
           (fun p' cs' =>
              match fuel with
              | S fuel' =>
                  if (idx p0 <? idx p')%nat then
                    match loop fuel' p' cs' with
                    | Some x => Some x
                    | None => k p' cs'
                    end
                  else k p' cs'
              | O => k p' cs'
              end))
        (length (rest p)) p cs
  | Grp n r1 =>
      run r1 p cs
        (fun p' cs' => k p' ((n, firstn (idx p' - idx p) (rest p)) :: cs'))
  end.
End Matcher.

(** A match object: [m.start()], [m.end()] and the captured groups. *)
Record rmatch : Type := mkmatch { m_start : nat; m_end : nat; m_caps : caps }.

Definition match_at (fl : flags) (r : regex) (p : pos) : option rmatch :=
  run fl r p [] (fun p' cs => Some (mkmatch (idx p) (idx p') cs)).

Fixpoint search_from (fl : flags) (r : regex) (prev : option ascii) (i : nat)
    (s : text) : option rmatch :=
  match match_at fl r (mkpos prev i s) with
  | Some m => Some m
  | None =>
      match s with
      | x :: s' => search_from fl r (Some x) (S i) s'
      | [] => None
      end
  end.

(** [re.search(pattern, s, flags)] *)
Definition search (fl : flags) (r : regex) (s : text) : option rmatch :=
  search_from fl r None 0 s.

(** [m.group(n)] *)
Fixpoint group (n : nat) (cs : caps) : option text :=
  match cs with
  | [] => None
  | (m, t) :: cs' => if (m =? n)%nat then Some t else group n cs'
  end.

(** [re.sub(pattern, "", s, flags)]: the text left once every match,
    found left to right without overlap, is cut out.  [skip] counts the
    characters of the current match still to drop.  An empty match
    removes nothing. *)
Fixpoint sub_from (fl : flags) (r : regex) (skip : nat) (prev : option ascii)
    (i : nat) (s : text) : text :=
  match s with
  | [] => []
  | x :: s' =>
      match skip with
      | S n => sub_from fl r n (Some x) (S i) s'
      | O =>
          match match_at fl r (mkpos prev i s) with
          | Some m =>
              match (m_end m - m_start m)%nat with
              | S n => sub_from fl r n (Some x) (S i) s'
              | O => x :: sub_from fl r 0 (Some x) (S i) s'
              end
          | None => x :: sub_from fl r 0 (Some x) (S i) s'
          end
      end
  end.

Definition sub (fl : flags) (r : regex) (s : text) : text :=
  sub_from fl r 0 None 0 s.

(** *** Pattern syntax *)

Fixpoint seqs (l : list regex) : regex :=
  match l with
  | [] => Eps
  | [r] => r
  | r :: l' => Seq r (seqs l')
  end.

Fixpoint alts (l : list regex) : regex :=
  match l with
  | [] => Eps
  | [r] => r
  | r :: l' => Alt r (alts l')
  end.

(** A run of literal characters. *)
Definition lit (s : string) : regex := seqs (map (fun c => Chr (CLit c)) (T s)).

(** [r?] *)
Definition opt (r : regex) : regex := Alt r Eps.

(** [c+], [c*], [c*?] *)
Definition plus (cl : cclass) : regex := Seq (Chr cl) (Star true cl).
Definition star (cl : cclass) : regex := Star true cl.
Definition star_min (cl : cclass) : regex := Star false cl.

(** [(a|b|...)] over literal words *)
Definition words (l : list string) : regex := alts (map lit l).

End Re.
Import Re.

(** ** [app/agents/guardrails.py] *)

Module Guardrails.

Definition dquote : ascii := "034"%char.

Definition ALLOWED_TOPICS : list string :=
  [ "training"; "video"; "course"; "completed"; "finished"; "status";
    "progress"; "cybersecurity"; "security"; "phishing"; "password";
    "data protection"; "incident"; "response"; "employee"; "learning";
    "certification"; "module"; "lesson"; "duration"; "time"; "hours";
    "minutes"; "started"; "completion"; "percentage"; "ciso"; "department" ].

Definition FORBIDDEN_KEYWORDS : list string :=
  [ "update"; "delete"; "insert"; "drop"; "alter"; "truncate"; "create";
    "modify"; "change"; "set"; "exec"; "execute";
    "system"; "shell"; "cmd"; "bash"; "powershell"; "eval"; "compile";
    "password="; "credential"; "api_key"; "secret"; "token";
    "ignore previous"; "ignore instructions"; "ignore prompt";
    "new instructions"; "system prompt"; "override" ].

(** [(\b(union|select|from|where)\b.*\b(select|from|where)\b)] *)
Definition sql_pattern_1 : regex :=
  Grp 1 (seqs [ Bnd; Grp 2 (words ["union"; "select"; "from"; "where"]); Bnd;
                star CAny;
                Bnd; Grp 3 (words ["select"; "from"; "where"]); Bnd ]).

(** [(;|\-\-|\/\*|\*\/)] *)
Definition sql_pattern_2 : regex :=
  Grp 1 (words [";"; "--"; "/*"; "*/"]).

(** [(\b(or|and)\b.*[=<>].*[Q])], the class [Q] holding the single and
    the double quote *)
Definition sql_pattern_3 : regex :=
  Grp 1 (seqs [ Bnd; Grp 2 (words ["or"; "and"]); Bnd;
                star CAny; Chr (CSet ["="; "<"; ">"]%char);
                star CAny; Chr (CSet ["'"%char; dquote]) ]).

(** [(drop\s+table)] *)
Definition sql_pattern_4 : regex :=
  Grp 1 (seqs [ lit "drop"; plus CSpace; lit "table" ]).

(** [(delete\s+from)] *)
Definition sql_pattern_5 : regex :=
  Grp 1 (seqs [ lit "delete"; plus CSpace; lit "from" ]).

(** [(update\s+\w+\s+set)] *)
Definition sql_pattern_6 : regex :=
  Grp 1 (seqs [ lit "update"; plus CSpace; plus CWord; plus CSpace; lit "set" ]).

Definition SQL_INJECTION_PATTERNS : list regex :=
  [ sql_pattern_1; sql_pattern_2; sql_pattern_3;
    sql_pattern_4; sql_pattern_5; sql_pattern_6 ].

Definition MSG_EMPTY : string := "Please provide a query.".
Definition MSG_TOO_LONG : string :=
  "Query is too long. Please keep questions concise.".
Definition MSG_SQL : string :=
  "Invalid query format detected. Please use natural language questions.".
Definition MSG_FORBIDDEN : string :=
  "This query contains forbidden operations. I can only provide read-only information about training status.".
Definition MSG_OFF_TOPIC : string :=
  "This query appears to be unrelated to cybersecurity training. Please ask about training videos, completion status, or employee progress.".

(** [any(keyword in s for keyword in l)] *)
Definition any_in (l : list string) (s : text) : bool :=
  existsb (fun k => contains (T k) s) l.

Definition is_training_related (query : text) : bool * string :=
  let query_lower := lower query in
  let has_allowed_topic := any_in ALLOWED_TOPICS query_lower in
  if negb has_allowed_topic && (3 <? split_len query)%nat
  then (false, MSG_OFF_TOPIC)
  else (true, "").

Fixpoint forbidden_loop (l : list string) (query_lower : text) : bool * string :=
  match l with
  | [] => (true, "")
  | keyword :: l' =>
      if contains (T keyword) query_lower then (false, MSG_FORBIDDEN)
      else forbidden_loop l' query_lower
  end.

Definition check_forbidden_keywords (query : text) : bool * string :=
  forbidden_loop FORBIDDEN_KEYWORDS (lower query).

Fixpoint sql_loop (l : list regex) (query_lower : text) : bool * string :=
  match l with
  | [] => (true, "")
  | pattern :: l' =>
      match search IGNORECASE pattern query_lower with
      | Some _ => (false, MSG_SQL)
      | None => sql_loop l' query_lower
      end
  end.

Definition check_sql_injection (query : text) : bool * string :=
  sql_loop SQL_INJECTION_PATTERNS (lower query).

(** [not query or not query.strip()] *)
Definition is_blank (query : text) : bool :=
  negb (truthy query) || negb (truthy (strip query)).

Definition validate_query (query : text) : bool * string :=
  if is_blank query then (false, MSG_EMPTY)
  else if (1000 <? length query)%nat then (false, MSG_TOO_LONG)
  else
    let '(is_safe, reason) := check_sql_injection query in
    if negb is_safe then (false, reason)
    else
      let '(is_safe, reason) := check_forbidden_keywords query in
      if negb is_safe then (false, reason)
      else
        let '(is_relevant, reason) := is_training_related query in
        if negb is_relevant then (false, reason)
        else (true, "").

(** [\[SYSTEM\].*?\[/SYSTEM\]] *)
Definition sanitize_pattern_1 : regex :=
  seqs [ lit "[SYSTEM]"; star_min CAny; lit "[/SYSTEM]" ].

(** [<system>.*?</system>] *)
Definition sanitize_pattern_2 : regex :=
  seqs [ lit "<system>"; star_min CAny; lit "</system>" ].

(** [```sql.*?```] *)
Definition sanitize_pattern_3 : regex :=
  seqs [ lit "```sql"; star_min CAny; lit "```" ].

Definition patterns_to_remove : list regex :=
  [ sanitize_pattern_1; sanitize_pattern_2; sanitize_pattern_3 ].

Definition sanitize_response (response : text) : text :=
  strip (fold_left (fun sanitized pattern => sub IGNORECASE_DOTALL pattern sanitized)
                   patterns_to_remove response).

End Guardrails.

(** ** [app/agents/intent_parser.py] *)

Module IntentParser.

Inductive Intent : Type :=
| CHECK_COMPLETION
| LIST_MISSING_VIDEOS
| LIST_COMPLETED_VIDEOS
| VIDEO_DURATION
| EMPLOYEE_STATUS
| GLOBAL_SUMMARY
| LIST_BY_STATUS
| LIST_BY_VIDEO_COUNT
| GENERAL_QUESTION
| UNKNOWN.

(** Recurring pieces of the patterns: [videos?], [courses?] and
    [completed?]. *)
Definition videos_opt : regex := Seq (lit "video") (opt (lit "s")).
Definition courses_opt : regex := Seq (lit "course") (opt (lit "s")).
Definition completed_opt : regex := Seq (lit "complete") (opt (lit "d")).
Definition not_completed_opt : regex := Seq (lit "not complete") (opt (lit "d")).

(** [\b( alternatives )\b] as capture group [n] *)
Definition bgroup (n : nat) (l : list regex) : list regex :=
  [ Bnd; Grp n (alts l); Bnd ].

Definition any : list regex := [ star CAny ].

Definition training_videos_courses : list regex :=
  [ lit "training"; videos_opt; courses_opt ].

Definition missing_words : list regex :=
  [ lit "missing"; not_completed_opt; lit "remaining"; lit "left" ].

(** Intent.CHECK_COMPLETION:
    [\b(did|have|has|completed|finished|done)\b.*\b(training|videos?|courses?)\b],
    [\b(training|videos?|courses?)\b.*\b(completed?|finished|done)\b],
    [\b(finished|completed)\b.*\b(all|everything)\b] *)
Definition check_completion_patterns : list regex :=
  [ seqs (bgroup 1 (map lit ["did"; "have"; "has"; "completed"; "finished"; "done"])
          ++ any ++ bgroup 2 training_videos_courses);
    seqs (bgroup 1 training_videos_courses
          ++ any ++ bgroup 2 [completed_opt; lit "finished"; lit "done"]);
    seqs (bgroup 1 (map lit ["finished"; "completed"])
          ++ any ++ bgroup 2 (map lit ["all"; "everything"])) ].

(** Intent.LIST_MISSING_VIDEOS:
    [\b(what|which|list)\b.*\b(missing|not completed?|remaining|left)\b.*\b(videos?)\b],
    [\b(videos?)\b.*\b(missing|not completed?|remaining|left)\b],
    [\b(haven't|have not|didn't|did not)\b.*\b(complete|finish|watch)\b],
    [\b(need to|have to|must)\b.*\b(complete|finish|watch)\b] *)
Definition list_missing_videos_patterns : list regex :=
  [ seqs (bgroup 1 (map lit ["what"; "which"; "list"])
          ++ any ++ bgroup 2 missing_words ++ any ++ bgroup 3 [videos_opt]);
    seqs (bgroup 1 [videos_opt] ++ any ++ bgroup 2 missing_words);
    seqs (bgroup 1 (map lit ["haven't"; "have not"; "didn't"; "did not"])
          ++ any ++ bgroup 2 (map lit ["complete"; "finish"; "watch"]));
    seqs (bgroup 1 (map lit ["need to"; "have to"; "must"])
          ++ any ++ bgroup 2 (map lit ["complete"; "finish"; "watch"])) ].

(** Intent.LIST_COMPLETED_VIDEOS:
    [\b(what|which|list)\b.*\b(completed?|finished|done|watched)\b.*\b(videos?)\b],
    [\b(videos?)\b.*\b(completed?|finished|done|watched)\b],
    [\b(show|tell|give)\b.*\b(completed?|finished)\b] *)
Definition list_completed_videos_patterns : list regex :=
  [ seqs (bgroup 1 (map lit ["what"; "which"; "list"])
          ++ any
          ++ bgroup 2 [completed_opt; lit "finished"; lit "done"; lit "watched"]
          ++ any ++ bgroup 3 [videos_opt]);
    seqs (bgroup 1 [videos_opt] ++ any
          ++ bgroup 2 [completed_opt; lit "finished"; lit "done"; lit "watched"]);
    seqs (bgroup 1 (map lit ["show"; "tell"; "give"])
          ++ any ++ bgroup 2 [completed_opt; lit "finished"]) ].

(** Intent.VIDEO_DURATION:
    [\b(how long|duration|time|minutes|hours)\b.*\b(video|spent|took)\b],
    [\b(video)\b.*\b(duration|time|long)\b],
    [\b(spent)\b.*\b(video|training)\b] *)
Definition video_duration_patterns : list regex :=
  [ seqs (bgroup 1 (map lit ["how long"; "duration"; "time"; "minutes"; "hours"])
          ++ any ++ bgroup 2 (map lit ["video"; "spent"; "took"]));
    seqs (bgroup 1 [lit "video"]
          ++ any ++ bgroup 2 (map lit ["duration"; "time"; "long"]));
    seqs (bgroup 1 [lit "spent"]
          ++ any ++ bgroup 2 (map lit ["video"; "training"])) ].

(** Intent.EMPLOYEE_STATUS:
    [\b(status|progress|summary)\b],
    [\b(what is|show|give|tell)\b.*\b(my|their)\b.*\b(status|progress)\b],
    [\b(completion|percentage|%)\b] *)
Definition employee_status_patterns : list regex :=
  [ seqs (bgroup 1 (map lit ["status"; "progress"; "summary"]));
    seqs (bgroup 1 (map lit ["what is"; "show"; "give"; "tell"])
          ++ any ++ bgroup 2 (map lit ["my"; "their"])
          ++ any ++ bgroup 3 (map lit ["status"; "progress"]));
    seqs (bgroup 1 (map lit ["completion"; "percentage"; "%"])) ].

(** Intent.GLOBAL_SUMMARY:
    [\b(all employees|everyone|global|overall|company|organization)\b],
    [\b(average|mean|statistics|stats|summary)\b.*\b(all|everyone)\b],
    [\b(fastest|slowest|longest|shortest)\b.*\b(employee)\b] *)
Definition global_summary_patterns : list regex :=
  [ seqs (bgroup 1 (map lit ["all employees"; "everyone"; "global"; "overall";
                             "company"; "organization"]));
    seqs (bgroup 1 (map lit ["average"; "mean"; "statistics"; "stats"; "summary"])
          ++ any ++ bgroup 2 (map lit ["all"; "everyone"]));
    seqs (bgroup 1 (map lit ["fastest"; "slowest"; "longest"; "shortest"])
          ++ any ++ bgroup 2 [lit "employee"]) ].

Definition status_words : list regex :=
  map lit ["not started"; "in progress"; "finished"; "completed"].

Definition employees_opt : regex := Seq (lit "employee") (opt (lit "s")).

(** Intent.LIST_BY_STATUS:
    [\b(list|show|who)\b.*\b(not started|in progress|finished|completed)\b],
    [\b(employees?)\b.*\b(not started|in progress|finished|completed)\b] *)
Definition list_by_status_patterns : list regex :=
  [ seqs (bgroup 1 (map lit ["list"; "show"; "who"]) ++ any ++ bgroup 2 status_words);
    seqs (bgroup 1 [employees_opt] ++ any ++ bgroup 2 status_words) ].

Definition count_words : list regex :=
  [ plus CDigit; lit "two"; lit "three"; lit "four" ].

(** Intent.LIST_BY_VIDEO_COUNT:
    [\b(how many|who|list)\b.*\b(completed?|finished|watched)\b.*\b(\d+|two|three|four)\b.*\b(or more|or less|videos?)\b],
    [\b(employees?|people|users)\b.*\b(\d+|two|three|four)\b.*\b(or more|or less)\b.*\b(videos?)\b] *)
Definition list_by_video_count_patterns : list regex :=
  [ seqs (bgroup 1 (map lit ["how many"; "who"; "list"])
          ++ any ++ bgroup 2 [completed_opt; lit "finished"; lit "watched"]
          ++ any ++ bgroup 3 count_words
          ++ any ++ bgroup 4 [lit "or more"; lit "or less"; videos_opt]);
    seqs (bgroup 1 [employees_opt; lit "people"; lit "users"]
          ++ any ++ bgroup 2 count_words
          ++ any ++ bgroup 3 (map lit ["or more"; "or less"])
          ++ any ++ bgroup 4 [videos_opt]) ].

(** The dictionary, in its declaration order (the order in which
    [INTENT_PATTERNS.items()] yields it). *)
Definition INTENT_PATTERNS : list (Intent * list regex) :=
  [ (CHECK_COMPLETION, check_completion_patterns);
    (LIST_MISSING_VIDEOS, list_missing_videos_patterns);
    (LIST_COMPLETED_VIDEOS, list_completed_videos_patterns);
    (VIDEO_DURATION, video_duration_patterns);
    (EMPLOYEE_STATUS, employee_status_patterns);
    (GLOBAL_SUMMARY, global_summary_patterns);
    (LIST_BY_STATUS, list_by_status_patterns);
    (LIST_BY_VIDEO_COUNT, list_by_video_count_patterns) ].

Definition any_pattern_matches (patterns : list regex) (query_lower : text) : bool :=
  existsb (fun pattern =>
             match search IGNORECASE pattern query_lower with
             | Some _ => true
             | None => false
             end) patterns.

Fixpoint classify_loop (items : list (Intent * list regex)) (query_lower : text)
    : Intent :=
  match items with
  | [] => GENERAL_QUESTION
  | (intent, patterns) :: items' =>
      if any_pattern_matches patterns query_lower then intent
      else classify_loop items' query_lower
  end.

Definition classify_intent (query : text) : Intent :=
  classify_loop INTENT_PATTERNS (lower query).

(** [int(s)] on a run of decimal digits *)
Definition digit_value (c : ascii) : N := N.of_nat (code c - 48).

Definition int_of_digits (s : text) : N :=
  fold_left (fun acc c => (10 * acc + digit_value c)%N) s 0%N.

(** [video\s+(\d+)], [video\s+number\s+(\d+)], [module\s+(\d+)],
    [lesson\s+(\d+)], [#(\d+)] *)
Definition video_number_patterns : list regex :=
  [ seqs [ lit "video"; plus CSpace; Grp 1 (plus CDigit) ];
    seqs [ lit "video"; plus CSpace; lit "number"; plus CSpace; Grp 1 (plus CDigit) ];
    seqs [ lit "module"; plus CSpace; Grp 1 (plus CDigit) ];
    seqs [ lit "lesson"; plus CSpace; Grp 1 (plus CDigit) ];
    seqs [ lit "#"; Grp 1 (plus CDigit) ] ].

(** [int(match.group(1))] of the leftmost match of [pattern], if any *)
Definition matched_number (pattern : regex) (s : text) : option N :=
  match search no_flags pattern s with
  | Some m =>
      match group 1 (m_caps m) with
      | Some g => Some (int_of_digits g)
      | None => None
      end
  | None => None
  end.

Fixpoint video_number_loop (patterns : list regex) (query_lower : text) : option N :=
  match patterns with
  | [] => None
  | pattern :: patterns' =>
      match matched_number pattern query_lower with
      | Some num =>
          if (1 <=? num)%N && (num <=? 5)%N then Some num
          else video_number_loop patterns' query_lower
      | None => video_number_loop patterns' query_lower
      end
  end.

Definition extract_video_number (query : text) : option N :=
  video_number_loop video_number_patterns (lower query).

Definition has (k : string) (s : text) : bool := contains (T k) s.

Definition extract_status (query : text) : option string :=
  let query_lower := lower query in
  if has "not started" query_lower || has "haven't started" query_lower
  then Some "NOT_STARTED"
  else if has "in progress" query_lower || has "ongoing" query_lower
          || has "started" query_lower
  then Some "IN_PROGRESS"
  else if has "finished" query_lower || has "completed" query_lower
          || has "done" query_lower
  then Some "FINISHED"
  else None.

Definition extract_employee_mention (query : text) : option string :=
  let query_lower := lower query in
  if existsb (fun word => has word query_lower) ["my"; "i"; "me"; "myself"]
  then Some "self"
  else if existsb (fun word => has word query_lower) ["his"; "her"; "their"; "employee"]
  then Some "other"
  else Some "self".

Definition ciso_keywords : list string :=
  [ "all employees"; "everyone"; "global"; "overall"; "company";
    "organization"; "statistics"; "report"; "summary of all";
    "fastest"; "slowest"; "average"; "list employees" ].

Definition is_ciso_query (query : text) : bool :=
  existsb (fun keyword => has keyword (lower query)) ciso_keywords.

(** [[A-Z][a-z]+(?:\s+[A-Z][a-z]+)+] *)
Definition capitalized : regex := Seq (Chr (CRange "A" "Z")) (plus (CRange "a" "z")).
Definition capitalized_name : regex :=
  Seq capitalized (Rep1 (Seq (plus CSpace) capitalized)).

(** The three shapes: a name after [did|has|for|about], a name before
    ['s], a name before [status|progress|training|finish]. *)
Definition employee_name_patterns : list regex :=
  [ seqs [ Bnd; words ["did"; "has"; "for"; "about"]; plus CSpace;
           Grp 1 capitalized_name ];
    seqs [ Bnd; Grp 1 capitalized_name; lit "'s" ];
    seqs [ Bnd; Grp 1 capitalized_name; plus CSpace;
           words ["status"; "progress"; "training"; "finish"] ] ].

Fixpoint employee_name_loop (patterns : list regex) (query : text) : option text :=
  match patterns with
  | [] => None
  | pattern :: patterns' =>
      match search no_flags pattern query with
      | Some m =>
          match group 1 (m_caps m) with
          | Some g => Some g
          | None => employee_name_loop patterns' query
          end
      | None => employee_name_loop patterns' query
      end
  end.

Definition extract_employee_name (query : text) : option text :=
  employee_name_loop employee_name_patterns query.

(** [\b(\d+|one|two|three|four|five)\b] *)
Definition count_filter_pattern : regex :=
  seqs [ Bnd; Grp 1 (alts [ plus CDigit; lit "one"; lit "two"; lit "three";
                            lit "four"; lit "five" ]); Bnd ].

Definition streq (a : text) (b : string) : bool :=
  String.eqb (string_of_list_ascii a) b.

Definition word_to_num (num_str : text) : option Z :=
  if streq num_str "one" then Some 1%Z
  else if streq num_str "two" then Some 2%Z
  else if streq num_str "three" then Some 3%Z
  else if streq num_str "four" then Some 4%Z
  else if streq num_str "five" then Some 5%Z
  else None.

Definition extract_video_count_filter (query : text) : option (Z * string) :=
  let query_lower := lower query in
  match search no_flags count_filter_pattern query_lower with
  | None => None
  | Some number_match =>
      let num_str := default [] (group 1 (m_caps number_match)) in
      let count :=
        match word_to_num num_str with
        | Some n => Some n
        | None =>
            if forallb is_digit num_str && truthy num_str
            then Some (Z.of_N (int_of_digits num_str))
            else None
        end in
      match count with
      | None => None
      | Some count =>
          let operator :=
            if has "or more" query_lower || has "at least" query_lower then ">="
            else if has "or less" query_lower || has "at most" query_lower then "<="
            else if has "less than" query_lower || has "fewer than" query_lower then "<"
            else if has "more than" query_lower then ">"
            else if has "exactly" query_lower then "=="
            else ">=" in
          Some (count, operator)
      end
  end.

Record parsed : Type := {
  p_intent : Intent;
  p_query : text;
  p_video_number : option N;
  p_status : option string;
  p_employee_mention : option string;
  p_employee_name : option text;
  p_video_count_filter : option (Z * string)
}.

Definition parse (query : text) : parsed :=
  {| p_intent := classify_intent query;
     p_query := query;
     p_video_number := extract_video_number query;
     p_status := extract_status query;
     p_employee_mention := extract_employee_mention query;
     p_employee_name := extract_employee_name query;
     p_video_count_filter := extract_video_count_filter query |}.

(** [intent.value] *)
Definition intent_value (i : Intent) : string :=
  match i with
  | CHECK_COMPLETION => "check_completion"
  | LIST_MISSING_VIDEOS => "list_missing_videos"
  | LIST_COMPLETED_VIDEOS => "list_completed_videos"
  | VIDEO_DURATION => "video_duration"
  | EMPLOYEE_STATUS => "employee_status"
  | GLOBAL_SUMMARY => "global_summary"
  | LIST_BY_STATUS => "list_by_status"
  | LIST_BY_VIDEO_COUNT => "list_by_video_count"
  | GENERAL_QUESTION => "general_question"
  | UNKNOWN => "unknown"
  end.

End IntentParser.

(** ** Python values shared by the models *)

Module Py.

Inductive exn : Type :=
| ZeroDivisionError
| ValueError.

(** The outcome of an expression that may raise. *)
Inductive result (A : Type) : Type :=
| Ok (a : A)
| Raise (e : exn).
Arguments Ok {A} a.
Arguments Raise {A} e.

Definition bind {A B : Type} (m : result A) (f : A -> result B) : result B :=
  match m with
  | Ok a => f a
  | Raise e => Raise e
  end.

Notation "'attempt' x := m 'in' k" := (bind m (fun x => k))
  (at level 10, x name, m at level 100, k at level 200).

(** [round(x)] to the nearest integer, ties to the even one. *)
Definition round_half_even (x : Q) : Z :=
  let f := Qfloor x in
  match (x - inject_Z f ?= 1 # 2)%Q with
  | Lt => f
  | Gt => (f + 1)%Z
  | Eq => if Z.even f then f else (f + 1)%Z
  end.

(** [round(x, 2)] *)
Definition round2 (x : Q) : Q := Qred (round_half_even (x * 100)%Q # 100).

(** [sum(l)] *)
Definition sum (l : list Q) : Q := fold_left Qplus l 0%Q.

(** [a / n]; raises when [n] is zero. *)
Definition div (a : Q) (n : nat) : result Q :=
  match n with
  | O => Raise ZeroDivisionError
  | S _ => Ok (a / inject_Z (Z.of_nat n))%Q
  end.

(** [min(l, key=key)]: the first element with the least key; raises on
    an empty sequence. *)
Definition min_by {A : Type} (key : A -> Q) (l : list A) : result A :=
  match l with
  | [] => Raise ValueError
  | x :: l' =>
      Ok (fold_left (fun best y => if Qlt_le_dec (key y) (key best) then y else best)
                    l' x)
  end.

(** [max(l, key=key)]: the first element with the greatest key. *)
Definition max_by {A : Type} (key : A -> Q) (l : list A) : result A :=
  match l with
  | [] => Raise ValueError
  | x :: l' =>
      Ok (fold_left (fun best y => if Qlt_le_dec (key best) (key y) then y else best)
                    l' x)
  end.

End Py.
Import Py.

(** ** [app/models/employee.py] *)

Module Employee.

(** A [datetime], in microseconds. *)
Definition datetime : Type := Z.

Record Employee : Type := {
  EMPLOYEE_ID : string;
  EMPLOYEE_NAME : string;
  EMPLOYEE_LAST_NAME : string;
  EMPLOYEE_DIVISION : string;
  START_FIRST_VIDEO_DATE : option datetime;
  FINISH_FIRST_VIDEO_DATE : option datetime;
  START_SECOND_VIDEO_DATE : option datetime;
  FINISH_SECOND_VIDEO_DATE : option datetime;
  START_THIRD_VIDEO_DATE : option datetime;
  FINISH_THIRD_VIDEO_DATE : option datetime;
  START_FOURTH_VIDEO_DATE : option datetime;
  FINISH_FOURTH_VIDEO_DATE : option datetime
}.

Definition full_name (e : Employee) : string :=
  EMPLOYEE_NAME e ++ " " ++ EMPLOYEE_LAST_NAME e.

(** The finish column behind [video_map.get(video_num)]. *)
Definition finish_date (e : Employee) (video_num : nat) : option datetime :=
  match video_num with
  | 1 => FINISH_FIRST_VIDEO_DATE e
  | 2 => FINISH_SECOND_VIDEO_DATE e
  | 3 => FINISH_THIRD_VIDEO_DATE e
  | 4 => FINISH_FOURTH_VIDEO_DATE e
  | _ => None
  end.

Definition start_date (e : Employee) (video_num : nat) : option datetime :=
  match video_num with
  | 1 => START_FIRST_VIDEO_DATE e
  | 2 => START_SECOND_VIDEO_DATE e
  | 3 => START_THIRD_VIDEO_DATE e
  | 4 => START_FOURTH_VIDEO_DATE e
  | _ => None
  end.

Definition get_video_completed (e : Employee) (video_num : nat) : bool :=
  match finish_date e video_num with
  | Some _ => true
  | None => false
  end.

(** [delta.total_seconds()] of [finish - start] *)
Definition total_seconds (start finish : datetime) : Q :=
  ((finish - start)%Z # 1000000)%Q.

Definition get_video_duration (e : Employee) (video_num : nat) : Q :=
  match start_date e video_num, finish_date e video_num with
  | Some start, Some finish => round2 (total_seconds start finish / 60)%Q
  | _, _ => 0%Q
  end.

(** [range(1, 5)] *)
Definition video_range : list nat := [1; 2; 3; 4]%nat.

Definition get_completed_videos (e : Employee) : list nat :=
  List.filter (get_video_completed e) video_range.

Definition get_missing_videos (e : Employee) : list nat :=
  List.filter (fun i => negb (get_video_completed e i)) video_range.

Definition get_training_status (e : Employee) : string :=
  let completed := get_completed_videos e in
  if (length completed =? 0)%nat then "NOT_STARTED"
  else if (length completed =? 4)%nat then "FINISHED"
  else "IN_PROGRESS".

Definition completion_percentage (e : Employee) : Q :=
  let completed := length (get_completed_videos e) in
  round2 ((inject_Z (Z.of_nat completed) / 4) * 100)%Q.

Definition total_time (e : Employee) : Q :=
  Py.sum (map (get_video_duration e) video_range).

End Employee.
Import Employee.

(** ** [app/services/training_service.py]

    The database session is read-only here: [db] stands for the rows that
    [self.db.query(Employee).all()] returns, in their order. *)

Module TrainingService.

Definition slower (s : string) : string := string_of_list_ascii (lower (T s)).

(** [str(employee_id)] for an [Optional[int]] *)
Definition py_str (employee_id : option Z) : string :=
  match employee_id with
  | Some z => NilZero.string_of_int (Z.to_int z)
  | None => "None"
  end.

(** [s.zfill(width)]: zeros go after a leading sign. *)
Definition zfill (width : nat) (s : string) : string :=
  let zeros := string_of_list_ascii (repeat "0"%char (width - String.length s)) in
  match s with
  | String c s' =>
      if eqc c "+" || eqc c "-" then String c (zeros ++ s') else zeros ++ s
  | EmptyString => zeros
  end.

Definition VIDEO_NAMES (i : nat) : option string :=
  match i with
  | 1 => Some "First Cybersecurity Video"
  | 2 => Some "Second Cybersecurity Video"
  | 3 => Some "Third Cybersecurity Video"
  | 4 => Some "Fourth Cybersecurity Video"
  | _ => None
  end%nat.

Section WithDb.
Variable db : list Employee.

Definition get_employee_by_id (employee_id : option Z) : option Employee :=
  let employee_id_str := zfill 9 (py_str employee_id) in
  find (fun e => String.eqb (EMPLOYEE_ID e) employee_id_str) db.

Definition get_employee_by_name (name : string) : option Employee :=
  find (fun emp => String.eqb (slower (full_name emp)) (slower name)
                   || String.eqb (slower (EMPLOYEE_NAME emp)) (slower name)) db.

Definition email (e : Employee) : string :=
  slower (EMPLOYEE_NAME e) ++ "." ++ slower (EMPLOYEE_LAST_NAME e) ++ "@company.com".

Record video_detail : Type := {
  video_number : nat;
  video_name : string;
  completed : bool;
  duration_minutes : Q
}.

(** The dictionary built by [get_employee_status]; the two dates are
    kept as timestamps rather than rendered by [isoformat()]. *)
Record employee_status : Type := {
  es_employee_id : string;
  es_employee_name : string;
  es_email : string;
  es_department : string;
  es_status : string;
  es_completion_percentage : Q;
  es_total_time_minutes : Q;
  es_completed_videos : list nat;
  es_completed_videos_count : nat;
  es_missing_videos : list nat;
  es_missing_videos_count : nat;
  es_video_details : list video_detail;
  es_started_at : option datetime;
  es_completed_at : option datetime
}.

Definition valid_dates (dates : list (option datetime)) : list datetime :=
  omap (fun d => d) dates.

Definition started_at (e : Employee) : option datetime :=
  match valid_dates (map (start_date e) video_range) with
  | [] => None
  | d :: ds => Some (fold_left Z.min ds d)
  end.

Definition completed_at (e : Employee) : option datetime :=
  if String.eqb (get_training_status e) "FINISHED" then
    match valid_dates (map (finish_date e) video_range) with
    | [] => None
    | d :: ds => Some (fold_left Z.max ds d)
    end
  else None.

Definition video_details_of (e : Employee) : list video_detail :=
  map (fun i => {| video_number := i;
                   video_name := default "" (VIDEO_NAMES i);
                   completed := get_video_completed e i;
                   duration_minutes := get_video_duration e i |})
      video_range.

(** [None] stands for the dictionary [{"error": "Employee not found"}]. *)
Definition get_employee_status (employee_id : option Z) : option employee_status :=
  match get_employee_by_id employee_id with
  | None => None
  | Some employee =>
      let completed_videos := get_completed_videos employee in
      let missing_videos := get_missing_videos employee in
      Some {| es_employee_id := EMPLOYEE_ID employee;
              es_employee_name := full_name employee;
              es_email := email employee;
              es_department := EMPLOYEE_DIVISION employee;
              es_status := get_training_status employee;
              es_completion_percentage := completion_percentage employee;
              es_total_time_minutes := total_time employee;
              es_completed_videos := completed_videos;
              es_completed_videos_count := length completed_videos;
              es_missing_videos := missing_videos;
              es_missing_videos_count := length missing_videos;
              es_video_details := video_details_of employee;
              es_started_at := started_at employee;
              es_completed_at := completed_at employee |}
  end.

Record status_row : Type := {
  sr_employee_id : string;
  sr_employee_name : string;
  sr_email : string;
  sr_department : string;
  sr_status : string;
  sr_completion_percentage : Q;
  sr_total_time_minutes : Q
}.

Definition get_employees_by_status (status : string) : list status_row :=
  map (fun employee =>
         {| sr_employee_id := EMPLOYEE_ID employee;
            sr_employee_name := full_name employee;
            sr_email := email employee;
            sr_department := EMPLOYEE_DIVISION employee;
            sr_status := status;
            sr_completion_percentage := completion_percentage employee;
            sr_total_time_minutes := total_time employee |})
      (List.filter (fun employee => String.eqb (get_training_status employee) status) db).

Record employee_time : Type := {
  et_id : string;
  et_name : string;
  et_time_minutes : Q
}.

Record global_summary : Type := {
  total_employees : nat;
  finished_employees_count : nat;
  not_started_count : nat;
  in_progress_count : nat;
  max_time_minutes : Q;
  min_time_minutes : Q;
  average_time_minutes : Q;
  fastest_employee : option employee_time;
  slowest_employee : option employee_time
}.

Definition with_status (status : string) (l : list Employee) : list Employee :=
  List.filter (fun e => String.eqb (get_training_status e) status) l.

Definition employee_time_of (e : Employee) : employee_time :=
  {| et_id := EMPLOYEE_ID e; et_name := full_name e; et_time_minutes := total_time e |}.

Definition get_global_summary : result global_summary :=
  let all_employees := db in
  match all_employees with
  | [] =>
      Ok {| total_employees := 0;
            finished_employees_count := 0;
            not_started_count := 0;
            in_progress_count := 0;
            max_time_minutes := 0;
            min_time_minutes := 0;
            average_time_minutes := 0;
            fastest_employee := None;
            slowest_employee := None |}
  | _ :: _ =>
      let finished_employees := with_status "FINISHED" all_employees in
      let not_started := with_status "NOT_STARTED" all_employees in
      let in_progress := with_status "IN_PROGRESS" all_employees in
      match finished_employees with
      | [] =>
          Ok {| total_employees := length all_employees;
                finished_employees_count := 0;
                not_started_count := length not_started;
                in_progress_count := length in_progress;
                max_time_minutes := 0;
                min_time_minutes := 0;
                average_time_minutes := 0;
                fastest_employee := None;
                slowest_employee := None |}
      | _ :: _ =>
          let times := map total_time finished_employees in
          attempt max_time := max_by (fun t => t) times in
          attempt min_time := min_by (fun t => t) times in
          attempt avg_time := div (Py.sum times) (length times) in
          attempt fastest := min_by total_time finished_employees in
          attempt slowest := max_by total_time finished_employees in
          Ok {| total_employees := length all_employees;
                finished_employees_count := length finished_employees;
                not_started_count := length not_started;
                in_progress_count := length in_progress;
                max_time_minutes := max_time;
                min_time_minutes := min_time;
                average_time_minutes := round2 avg_time;
                fastest_employee := Some (employee_time_of fastest);
                slowest_employee := Some (employee_time_of slowest) |}
      end
  end.

Record count_row : Type := {
  cr_employee_id : string;
  cr_employee_name : string;
  cr_email : string;
  cr_department : string;
  cr_completed_videos_count : nat;
  cr_completion_percentage : Q;
  cr_status : string
}.

Definition count_matches (operator : string) (completed_count : nat) (count : Z)
    : bool :=
  let c := Z.of_nat completed_count in
  (String.eqb operator ">=" && (count <=? c)%Z)
  || (String.eqb operator "<=" && (c <=? count)%Z)
  || (String.eqb operator "==" && (c =? count)%Z)
  || (String.eqb operator ">" && (count <? c)%Z)
  || (String.eqb operator "<" && (c <? count)%Z).

Definition get_employees_by_video_count (count : Z) (operator : string)
    : list count_row :=
  map (fun emp =>
         {| cr_employee_id := EMPLOYEE_ID emp;
            cr_employee_name := full_name emp;
            cr_email := email emp;
            cr_department := EMPLOYEE_DIVISION emp;
            cr_completed_videos_count := length (get_completed_videos emp);
            cr_completion_percentage := completion_percentage emp;
            cr_status := get_training_status emp |})
      (List.filter (fun emp => count_matches operator (length (get_completed_videos emp)) count)
              db).

End WithDb.

End TrainingService.

(** ** [app/models/session.py] and [app/services/auth_service.py]

    The session store is a process-wide dictionary; the wall clock is read
    by [is_expired] only.  [utcnow n] is the value of the [n]-th reading of
    the clock, and the state counts the readings made so far. *)

Module Session.

(** The [metadata] dictionary of the class is never read or written by the
    code modelled here and is left out. *)
Record UserSession : Type := {
  session_id : string;
  employee_id : option Z;
  employee_name : option string;
  is_ciso : bool;
  created_at : datetime;
  last_activity : datetime
}.

Definition is_authenticated (s : UserSession) : bool :=
  match employee_id s, employee_name s with
  | Some _, Some _ => true
  | _, _ => false
  end.

(** [timedelta(minutes=m)] in microseconds *)
Definition minutes (m : Z) : Z := (m * 60 * 1000000)%Z.

Definition is_expired (session_timeout_minutes : Z) (now : datetime) (s : UserSession)
    : bool :=
  (minutes session_timeout_minutes <? now - last_activity s)%Z.

End Session.

(** ** [app/agents/training_agent.py] *)

Module TrainingAgent.
Import Guardrails IntentParser TrainingService.

(** The stages of the pipeline a call goes through, in order.  The log is
    ghost state: it records that the authentication service, the intent
    parser, the training service or the language model was called. *)
Inductive event : Type :=
| EvAuthCheck (sid : string)
| EvClassify (query : text)
| EvDataAccess
| EvRender.

Record world : Type := {
  sessions : gmap string Session.UserSession;
  clock_reads : nat;
  trace : list event
}.

Inductive agent_exn : Type :=
| KeyError (key : string)
| IntValueError (s : string)
| PyError (e : exn).

(** A computation over the world that returns or raises. *)
Definition M (A : Type) : Type := world -> (A + agent_exn) * world.

Definition ret {A : Type} (a : A) : M A := fun w => (inl a, w).
Definition raise {A : Type} (e : agent_exn) : M A := fun w => (inr e, w).
Definition mbind {A B : Type} (m : M A) (f : A -> M B) : M B :=
  fun w => match m w with
           | (inl a, w') => f a w'
           | (inr e, w') => (inr e, w')
           end.

Notation "'do' x <- m ; k" := (mbind m (fun x => k))
  (at level 10, x name, m at level 100, k at level 200).

Definition log (e : event) : M unit :=
  fun w => (inl tt, {| sessions := sessions w;
                       clock_reads := clock_reads w;
                       trace := trace w ++ [e] |}).

(** The dictionaries [_get_context_data] can return. *)
Inductive context_data : Type :=
| CtxError (msg : string)
| CtxEmployeeStatus (s : employee_status)
| CtxCheckCompletion (training_completed : bool) (percentage : Q)
    (completed_videos missing_videos : list nat)
| CtxCompletedVideos (completed_videos : list nat) (details : list video_detail)
| CtxMissingVideos (missing_videos : list nat) (details : list video_detail)
| CtxVideo (video : video_detail)
| CtxEmpty
| CtxAllVideos (details : list video_detail)
| CtxGlobalSummary (s : global_summary)
| CtxByStatus (status : string) (employees : list status_row) (count : nat)
| CtxByVideoCount (filter : string) (employees : list count_row) (count : nat).

Record response : Type := {
  success : bool;
  response_text : string;
  intent : option string;
  context : option context_data;
  requires_auth : bool
}.

Definition MSG_AUTH : string :=
  "Please authenticate with your employee ID and name first.".
Definition MSG_CISO : string :=
  "You don't have permission to access company-wide statistics. CISO access required.".

Section Agent.
(** The configuration, the clock, the rows of the database and the
    language model behind [_call_llm] (with its rule-based fallback). *)
Variable session_timeout_minutes : Z.
Variable utcnow : nat -> datetime.
Variable db : list Employee.
Variable _call_llm : text -> context_data -> text.

(** [session_store.get_session]: an expired session is removed and
    reported as missing. *)
Definition get_session (sid : string) : M (option Session.UserSession) :=
  fun w =>
    match sessions w !! sid with
    | None => (inl None, w)
    | Some session =>
        let now := utcnow (clock_reads w) in
        if Session.is_expired session_timeout_minutes now session then
          (inl None, {| sessions := delete sid (sessions w);
                        clock_reads := S (clock_reads w);
                        trace := trace w |})
        else
          (inl (Some session), {| sessions := sessions w;
                                  clock_reads := S (clock_reads w);
                                  trace := trace w |})
    end.

(** [AuthService.is_authenticated] *)
Definition is_authenticated (sid : string) : M bool :=
  do _ <- log (EvAuthCheck sid);
  do session <- get_session sid;
  ret (match session with
       | Some s => Session.is_authenticated s
       | None => false
       end).

(** [AuthService.is_ciso] *)
Definition is_ciso (sid : string) : M bool :=
  do session <- get_session sid;
  ret (match session with
       | Some s => Session.is_ciso s
       | None => false
       end).

(** [AuthService.get_authenticated_employee_id] *)
Definition get_authenticated_employee_id (sid : string) : M (option Z) :=
  do session <- get_session sid;
  ret (match session with
       | Some s => if Session.is_authenticated s then Session.employee_id s else None
       | None => None
       end).

(** [int(s)]: optional surrounding blanks, an optional sign, decimal
    digits, single underscores allowed between digits. *)
Fixpoint int_digits (after_digit : bool) (acc : Z) (s : text) : option Z :=
  match s with
  | [] => if after_digit then Some acc else None
  | c :: s' =>
      if is_digit c then int_digits true (10 * acc + Z.of_nat (code c - 48)) s'
      else if eqc c "_" && after_digit then
        match s' with
        | d :: _ => if is_digit d then int_digits false acc s' else None
        | [] => None
        end
      else None
  end.

Definition py_int (s : string) : M Z :=
  let body := strip (T s) in
  let parsed :=
    match body with
    | c :: body' =>
        if eqc c "-" then option_map Z.opp (int_digits false 0 body')
        else if eqc c "+" then int_digits false 0 body'
        else int_digits false 0 body
    | [] => None
    end in
  match parsed with
  | Some z => ret z
  | None => raise (IntValueError s)
  end.

(** [status[key]] on the dictionary of [get_employee_status]: the error
    dictionary has no other key than ["error"]. *)
Definition item {A : Type} (status : option employee_status) (key : string)
    (field : employee_status -> A) : M A :=
  match status with
  | Some s => ret (field s)
  | None => raise (KeyError key)
  end.

Definition status_context (status : option employee_status) : context_data :=
  match status with
  | Some s => CtxEmployeeStatus s
  | None => CtxError "Employee not found"
  end.

Definition lift {A : Type} (r : result A) : M A :=
  match r with
  | Ok a => ret a
  | Raise e => raise (PyError e)
  end.

Definition dispatch (intent : Intent) (parsed : parsed)
    (target_employee_id : option Z) (is_ciso : bool) : M context_data :=
  let employee_status := get_employee_status db target_employee_id in
  match intent, is_ciso with
  | EMPLOYEE_STATUS, _ => ret (status_context employee_status)
  | CHECK_COMPLETION, _ =>
      do st <- item employee_status "status" es_status;
      do pct <- item employee_status "completion_percentage" es_completion_percentage;
      do done <- item employee_status "completed_videos" es_completed_videos;
      do missing <- item employee_status "missing_videos" es_missing_videos;
      ret (CtxCheckCompletion (String.eqb st "FINISHED") pct done missing)
  | LIST_COMPLETED_VIDEOS, _ =>
      do done <- item employee_status "completed_videos" es_completed_videos;
      do details <- item employee_status "video_details" es_video_details;
      ret (CtxCompletedVideos done (List.filter (fun v => completed v) details))
  | LIST_MISSING_VIDEOS, _ =>
      do missing <- item employee_status "missing_videos" es_missing_videos;
      do details <- item employee_status "video_details" es_video_details;
      ret (CtxMissingVideos missing (List.filter (fun v => negb (completed v)) details))
  | VIDEO_DURATION, _ =>
      match p_video_number parsed with
      | Some (Npos _ as video_num) =>
          do details <- item employee_status "video_details" es_video_details;
          ret (match find (fun v => (N.of_nat (video_number v) =? video_num)%N) details with
               | Some video_detail => CtxVideo video_detail
               | None => CtxEmpty
               end)
      | _ =>
          do details <- item employee_status "video_details" es_video_details;
          ret (CtxAllVideos details)
      end
  | GLOBAL_SUMMARY, true =>
      do s <- lift (get_global_summary db);
      ret (CtxGlobalSummary s)
  | LIST_BY_STATUS, true =>
      match p_status parsed with
      | Some status_filter =>
          let employees := get_employees_by_status db status_filter in
          ret (CtxByStatus status_filter employees (length employees))
      | None => ret CtxEmpty
      end
  | LIST_BY_VIDEO_COUNT, true =>
      match p_video_count_filter parsed with
      | Some (count, operator) =>
          let employees := get_employees_by_video_count db count operator in
          ret (CtxByVideoCount
                 (operator ++ " " ++ py_str (Some count) ++ " videos")
                 employees (length employees))
      | None => ret CtxEmpty
      end
  | _, _ => ret (status_context employee_status)
  end.

Definition _get_context_data (intent : Intent) (parsed : parsed)
    (employee_id : option Z) (is_ciso : bool) : M context_data :=
  do _ <- log EvDataAccess;
  match (if is_ciso then p_employee_name parsed else None) with
  | Some (_ :: _ as employee_name) =>
      match get_employee_by_name db (string_of_list_ascii employee_name) with
      | Some employee =>
          do target_employee_id <- py_int (EMPLOYEE_ID employee);
          dispatch intent parsed (Some target_employee_id) is_ciso
      | None =>
          ret (CtxError ("Employee '" ++ string_of_list_ascii employee_name
                         ++ "' not found in database"))
      end
  | _ => dispatch intent parsed employee_id is_ciso
  end.

Definition process_query (query : text) (session_id : string) : M response :=
  let '(is_valid, error_message) := validate_query query in
  if negb is_valid then
    ret {| success := false; response_text := error_message;
           intent := None; context := None; requires_auth := false |}
  else
    do authenticated <- is_authenticated session_id;
    if negb authenticated then
      ret {| success := false; response_text := MSG_AUTH;
             intent := None; context := None; requires_auth := true |}
    else
      do _ <- log (EvClassify query);
      let parsed := parse query in
      let intent := p_intent parsed in
      do is_ciso <- is_ciso session_id;
      let is_ciso_query := is_ciso_query query in
      if is_ciso_query && negb is_ciso then
        ret {| success := false; response_text := MSG_CISO;
               intent := None; context := None; requires_auth := false |}
      else
        do employee_id <- get_authenticated_employee_id session_id;
        do context_data <- _get_context_data intent parsed employee_id is_ciso;
        do _ <- log EvRender;
        let llm_response := _call_llm query context_data in
        let safe_response := sanitize_response llm_response in
        ret {| success := true;
               response_text := string_of_list_ascii safe_response;
               intent := Some (intent_value intent);
               context := Some context_data;
               requires_auth := false |}.

End Agent.

End TrainingAgent.

(** ** [SessionStore] and [UserSession] of [app/models/session.py]

    The store operations as state transformers over the same world; none
    of them raises.  [class_defined_at] is the value [datetime.utcnow()]
    had when the class body of [UserSession] was executed: it is the
    default of [created_at] and of [last_activity]. *)

Module SessionStore.
Import TrainingAgent.

Definition St (A : Type) : Type := world -> A * world.

Definition with_sessions (m : gmap string Session.UserSession) (w : world) : world :=
  {| sessions := m; clock_reads := clock_reads w; trace := trace w |}.

(** One more reading of the clock. *)
Definition tick (w : world) : world :=
  {| sessions := sessions w; clock_reads := S (clock_reads w); trace := trace w |}.

(** The keyword arguments of [update_session]; the callers pass no other
    attribute than these three.  [None] means the keyword is absent. *)
Record kwargs : Type := {
  kw_employee_id : option (option Z);
  kw_employee_name : option (option string);
  kw_is_ciso : option bool
}.

Definition setattrs (kw : kwargs) (s : Session.UserSession) : Session.UserSession :=
  {| Session.session_id := Session.session_id s;
     Session.employee_id := default (Session.employee_id s) (kw_employee_id kw);
     Session.employee_name := default (Session.employee_name s) (kw_employee_name kw);
     Session.is_ciso := default (Session.is_ciso s) (kw_is_ciso kw);
     Session.created_at := Session.created_at s;
     Session.last_activity := Session.last_activity s |}.

(** [session.update_activity()] at time [now] *)
Definition update_activity (now : datetime) (s : Session.UserSession)
    : Session.UserSession :=
  {| Session.session_id := Session.session_id s;
     Session.employee_id := Session.employee_id s;
     Session.employee_name := Session.employee_name s;
     Session.is_ciso := Session.is_ciso s;
     Session.created_at := Session.created_at s;
     Session.last_activity := now |}.

Definition get_missing_fields (s : Session.UserSession) : list string :=
  (match Session.employee_id s with None => ["employee_id"] | Some _ => [] end)
  ++ (match Session.employee_name s with None => ["employee_name"] | Some _ => [] end).

Section Store.
Variable session_timeout_minutes : Z.
Variable utcnow : nat -> datetime.
Variable class_defined_at : datetime.

(** [UserSession(session_id=session_id)] *)
Definition new_session (sid : string) : Session.UserSession :=
  {| Session.session_id := sid;
     Session.employee_id := None;
     Session.employee_name := None;
     Session.is_ciso := false;
     Session.created_at := class_defined_at;
     Session.last_activity := class_defined_at |}.

Definition create_session (sid : string) : St Session.UserSession :=
  fun w => (new_session sid, with_sessions (<[sid := new_session sid]> (sessions w)) w).

Definition get_session (sid : string) : St (option Session.UserSession) :=
  fun w =>
    match sessions w !! sid with
    | None => (None, w)
    | Some session =>
        if Session.is_expired session_timeout_minutes (utcnow (clock_reads w)) session
        then (None, tick (with_sessions (delete sid (sessions w)) w))
        else (Some session, tick w)
    end.

Definition update_session (sid : string) (kw : kwargs) : St (option Session.UserSession) :=
  fun w =>
    let '(session, w1) := get_session sid w in
    match session with
    | Some s =>
        let s' := update_activity (utcnow (clock_reads w1)) (setattrs kw s) in
        (Some s', tick (with_sessions (<[sid := s']> (sessions w1)) w1))
    | None => (None, w1)
    end.

Definition delete_session (sid : string) : St unit :=
  fun w => (tt, with_sessions (delete sid (sessions w)) w).

End Store.

End SessionStore.

(** ** [verify_employee_credentials] and [get_video_name] of
    [app/services/training_service.py] *)

Module Credentials.
Import TrainingService.

Definition verify_employee_credentials (db : list Employee) (employee_id : Z)
    (name : string) : bool * option Employee :=
  match get_employee_by_id db (Some employee_id) with
  | None => (false, None)
  | Some employee =>
      let name_lower := slower name in
      if String.eqb (slower (EMPLOYEE_NAME employee)) name_lower
         || String.eqb (slower (full_name employee)) name_lower
      then (true, Some employee)
      else (false, None)
  end.

Definition get_video_name (video_number : Z) : string :=
  let name := if (0 <=? video_number)%Z then VIDEO_NAMES (Z.to_nat video_number)
              else None in
  default ("Unknown video " ++ py_str (Some video_number))%string name.

End Credentials.

(** ** [app/services/auth_service.py] *)

Module AuthService.
Import TrainingService TrainingAgent SessionStore Credentials.

Definition CISO_EMPLOYEE_ID : string := "123456789".

(** What a call does: it returns, or it raises [AttributeError] for an
    attribute looked up on [None]. *)
Inductive outcome (A : Type) : Type :=
| Returns (a : A)
| AttributeError (attr : string).
Arguments Returns {A} a.
Arguments AttributeError {A} attr.

Definition MSG_INVALID_SESSION : string := "Invalid session".
Definition MSG_CISO_OK : string := "CISO authenticated successfully".
Definition MSG_AUTH_OK : string := "Authentication successful".
Definition MSG_INVALID_CREDENTIALS : string :=
  "Invalid credentials. Employee ID and name do not match.".

Definition only_employee_id (employee_id : option Z) : kwargs :=
  {| kw_employee_id := Some employee_id; kw_employee_name := None; kw_is_ciso := None |}.
Definition only_employee_name (employee_name : option string) : kwargs :=
  {| kw_employee_id := None; kw_employee_name := Some employee_name; kw_is_ciso := None |}.
Definition only_is_ciso (is_ciso : bool) : kwargs :=
  {| kw_employee_id := None; kw_employee_name := None; kw_is_ciso := Some is_ciso |}.
Definition reset_credentials : kwargs :=
  {| kw_employee_id := Some None; kw_employee_name := Some None; kw_is_ciso := None |}.

Section Auth.
Variable session_timeout_minutes : Z.
Variable utcnow : nat -> datetime.
Variable class_defined_at : datetime.
Variable db : list Employee.

Let get := SessionStore.get_session session_timeout_minutes utcnow.
Let update := SessionStore.update_session session_timeout_minutes utcnow.

(** [create_session], for the identifier [uuid.uuid4()] produced. *)
Definition create_session (uuid4 : string) : St string :=
  fun w => (uuid4, snd (SessionStore.create_session class_defined_at uuid4 w)).

Definition authenticate_employee (session_id : string) (employee_id : option Z)
    (employee_name : option string)
    : world -> outcome (bool * string * option Session.UserSession) * world :=
  fun w =>
    let '(session, w1) := get session_id w in
    match session with
    | None => (Returns (false, MSG_INVALID_SESSION, None), w1)
    | Some _ =>
        let w2 :=
          match employee_id with
          | Some id => snd (update session_id (only_employee_id (Some id)) w1)
          | None => w1
          end in
        let w3 :=
          match employee_name with
          | Some name => snd (update session_id (only_employee_name (Some name)) w2)
          | None => w2
          end in
        let '(session, w4) := get session_id w3 in
        match session with
        | Some s =>
            (* [session.is_authenticated()]: both fields are set *)
            match Session.employee_id s, Session.employee_name s with
            | Some id, Some name =>
                let '(is_valid, employee) := verify_employee_credentials db id name in
                if is_valid then
                  let is_ciso :=
                    String.eqb (zfill 9 (py_str (Some id))) CISO_EMPLOYEE_ID in
                  let w5 := snd (update session_id (only_is_ciso is_ciso) w4) in
                  let '(session, w6) := get session_id w5 in
                  let success_msg := if is_ciso then MSG_CISO_OK else MSG_AUTH_OK in
                  (Returns (true, success_msg, session), w6)
                else
                  let w5 := snd (update session_id reset_credentials w4) in
                  (Returns (false, MSG_INVALID_CREDENTIALS, None), w5)
            | _, _ =>
                let missing := get_missing_fields s in
                let missing_str := String.concat " and " missing in
                (Returns (false, ("Please provide your " ++ missing_str)%string, Some s), w4)
            end
        | None => (AttributeError "get_missing_fields", w4)
        end
    end.

Definition logout (session_id : string) : St unit :=
  SessionStore.delete_session session_id.

End Auth.

End AuthService.

(** ** [app/api/routes.py]: the two status endpoints and the chat endpoint

    Each body runs inside [try ... except Exception], which turns whatever
    is raised into the error response of the endpoint. *)

Module Routes.
Import TrainingService TrainingAgent.

Record EmployeeStatusResponse : Type := {
  esr_success : bool;
  esr_data : option employee_status;
  esr_error : option string
}.

Inductive global_data : Type :=
| ByStatus (status_filter : string) (employees : list status_row) (count : nat)
| Summary (s : global_summary).

Record GlobalStatusResponse : Type := {
  gsr_success : bool;
  gsr_data : option global_data;
  gsr_error : option string
}.

Record ChatResponse : Type := {
  cr_success : bool;
  cr_response : string;
  cr_intent : option string;
  cr_requires_auth : bool;
  cr_context_data : option context_data
}.

Definition employee_error (msg : string) : EmployeeStatusResponse :=
  {| esr_success := false; esr_data := None; esr_error := Some msg |}.

Definition global_error (msg : string) : GlobalStatusResponse :=
  {| gsr_success := false; gsr_data := None; gsr_error := Some msg |}.

Definition MSG_NOT_AUTHENTICATED : string :=
  "Not authenticated. Please authenticate first.".
Definition MSG_OTHER_EMPLOYEE : string :=
  "You don't have permission to view other employees' status.".
Definition MSG_STATUS_FAILED : string := "An error occurred while retrieving status.".
Definition MSG_CISO_REQUIRED : string := "CISO access required for global statistics.".
Definition MSG_INVALID_STATUS : string :=
  "Invalid status. Must be one of: NOT_STARTED, IN_PROGRESS, FINISHED".
Definition MSG_GLOBAL_FAILED : string :=
  "An error occurred while retrieving global statistics.".
Definition MSG_CHAT_FAILED : string :=
  "An error occurred while processing your query. Please try again.".

Definition valid_statuses : list string := ["NOT_STARTED"; "IN_PROGRESS"; "FINISHED"].

(** [except Exception]: the handler's response replaces what was raised. *)
Definition except {A : Type} (body : M A) (handler : A) : world -> A * world :=
  fun w =>
    match body w with
    | (inl a, w') => (a, w')
    | (inr _, w') => (handler, w')
    end.

Section Endpoints.
Variable session_timeout_minutes : Z.
Variable utcnow : nat -> datetime.
Variable db : list Employee.
Variable _call_llm : text -> context_data -> text.

Let is_authenticated := TrainingAgent.is_authenticated session_timeout_minutes utcnow.
Let is_ciso := TrainingAgent.is_ciso session_timeout_minutes utcnow.
Let get_authenticated_employee_id :=
  TrainingAgent.get_authenticated_employee_id session_timeout_minutes utcnow.

Definition status_response (status_data : option employee_status)
    : EmployeeStatusResponse :=
  match status_data with
  | None => employee_error "Employee not found"
  | Some data => {| esr_success := true; esr_data := Some data; esr_error := None |}
  end.

(** [POST /status/employee] *)
Definition get_employee_status (session_id : string) (employee_id : option Z)
    : world -> EmployeeStatusResponse * world :=
  except
    (do authenticated <- is_authenticated session_id;
     if negb authenticated then ret (employee_error MSG_NOT_AUTHENTICATED)
     else
       match employee_id with
       | Some (Zpos _ as id) | Some (Zneg _ as id) =>
           do ciso <- is_ciso session_id;
           if negb ciso then ret (employee_error MSG_OTHER_EMPLOYEE)
           else ret (status_response (TrainingService.get_employee_status db (Some id)))
       | _ =>
           do own <- get_authenticated_employee_id session_id;
           ret (status_response (TrainingService.get_employee_status db own))
       end)
    (employee_error MSG_STATUS_FAILED).

(** [POST /status/all] *)
Definition get_global_status (session_id : string) (status_filter : option string)
    : world -> GlobalStatusResponse * world :=
  except
    (do authenticated <- is_authenticated session_id;
     if negb authenticated then ret (global_error MSG_NOT_AUTHENTICATED)
     else
       do ciso <- is_ciso session_id;
       if negb ciso then ret (global_error MSG_CISO_REQUIRED)
       else
         match status_filter with
         | Some (String _ _ as status) =>
             if existsb (String.eqb status) valid_statuses then
               let employees := get_employees_by_status db status in
               ret {| gsr_success := true;
                      gsr_data := Some (ByStatus status employees (length employees));
                      gsr_error := None |}
             else ret (global_error MSG_INVALID_STATUS)
         | _ =>
             do data <- lift (get_global_summary db);
             ret {| gsr_success := true; gsr_data := Some (Summary data);
                    gsr_error := None |}
         end)
    (global_error MSG_GLOBAL_FAILED).

(** [POST /chat] *)
Definition chat (query : text) (session_id : string) : world -> ChatResponse * world :=
  except
    (do result <- process_query session_timeout_minutes utcnow db _call_llm
                    query session_id;
     ret {| cr_success := success result;
            cr_response := response_text result;
            cr_intent := intent result;
            cr_requires_auth := requires_auth result;
            cr_context_data := context result |})
    {| cr_success := false; cr_response := MSG_CHAT_FAILED; cr_intent := None;
       cr_requires_auth := false; cr_context_data := None |}.

End Endpoints.

End Routes.

(** * Properties *)

(** ** Facts about text *)

Module TextFacts.

Definition all_ascii : list ascii := map ascii_of_nat (seq 0 256).

(** A decidable property of characters holds of all of them once it is
    checked on the 256 codes. *)
Lemma forall_ascii (P : ascii -> bool) :
  forallb P all_ascii = true -> forall c, P c = true.
Proof.
  intros H c.
  rewrite forallb_forall in H. apply H.
  unfold all_ascii. rewrite <- (ascii_nat_embedding c).
  apply in_map, in_seq.
  pose proof (nat_ascii_bounded c). lia.
Qed.

Lemma eqc_eq (a b : ascii) : eqc a b = true <-> a = b.
Proof. apply Ascii.eqb_eq. Qed.

Lemma space_lower (c : ascii) : is_space c = true -> lower_char c = c.
Proof.
  revert c.
  assert (H : forall c, implb (is_space c) (eqc (lower_char c) c) = true)
    by (apply forall_ascii; vm_compute; reflexivity).
  intros c Hc. specialize (H c). rewrite Hc in H. simpl in H.
  now apply eqc_eq.
Qed.

Lemma starts_with_iff (k s : text) :
  starts_with k s = true <-> exists post, s = k ++ post.
Proof.
  revert s. induction k as [|a k IH]; intros s; simpl.
  - split; [intros _; now exists s | reflexivity].
  - destruct s as [|b s].
    + split; [discriminate | intros [post H]; discriminate].
    + rewrite andb_true_iff, eqc_eq, IH. split.
      * intros [-> [post ->]]. now exists post.
      * intros [post H]. injection H as -> ->. split; [reflexivity | now exists post].
Qed.

Lemma contains_iff (k s : text) :
  contains k s = true <-> exists pre post, s = pre ++ k ++ post.
Proof.
  induction s as [|b s IH]; simpl.
  - rewrite orb_false_r, starts_with_iff. split.
    + intros [post H]. now exists [], post.
    + intros [pre [post H]]. destruct pre; [now exists post |discriminate].
  - rewrite orb_true_iff, starts_with_iff, IH. split.
    + intros [[post H] | [pre [post H]]].
      * now exists [], post.
      * exists (b :: pre), post. now rewrite H.
    + intros [pre [post H]]. destruct pre as [|c pre].
      * left. now exists post.
      * right. injection H as -> ->. now exists pre, post.
Qed.

(** A text that contains [a ++ k ++ b] contains [k]. *)
Lemma contains_inner (a k b s : text) :
  contains (a ++ k ++ b) s = true -> contains k s = true.
Proof.
  rewrite !contains_iff. intros [pre [post ->]].
  exists (pre ++ a), (b ++ post). now rewrite <- !app_assoc.
Qed.

Lemma contains_head (c : ascii) (k s : text) :
  contains (c :: k) s = true -> In c s.
Proof.
  rewrite contains_iff. intros [pre [post ->]].
  apply in_or_app. right. now left.
Qed.

Lemma lstrip_nil (s : text) : lstrip s = [] -> forallb is_space s = true.
Proof.
  induction s as [|c s IH]; simpl; [reflexivity |].
  destruct (is_space c); [exact IH | discriminate].
Qed.

(** What [lstrip] returns is empty or starts with a non-space. *)
Definition starts_clean (s : text) : bool :=
  match s with [] => true | c :: _ => negb (is_space c) end.

Lemma lstrip_clean (s : text) : starts_clean (lstrip s) = true.
Proof.
  induction s as [|c s IH]; simpl; [reflexivity |].
  destruct (is_space c) eqn:E; [exact IH | simpl; now rewrite E].
Qed.

Lemma lstrip_id (s : text) : starts_clean s = true -> lstrip s = s.
Proof.
  destruct s as [|c s]; simpl; [reflexivity |].
  destruct (is_space c); [discriminate | reflexivity].
Qed.

Lemma lstrip_suffix (s : text) : exists pre, s = pre ++ lstrip s.
Proof.
  induction s as [|c s [pre IH]]; simpl.
  - now exists [].
  - destruct (is_space c).
    + exists (c :: pre). simpl. now f_equal.
    + now exists [].
Qed.

Lemma forallb_space_lstrip (s : text) : forallb is_space s = true -> lstrip s = [].
Proof.
  induction s as [|c s IH]; simpl; [reflexivity |].
  destruct (is_space c); simpl; [exact IH | discriminate].
Qed.

Lemma strip_nil (s : text) : strip s = [] -> forallb is_space s = true.
Proof.
  unfold strip, rstrip. intros H.
  assert (H1 : lstrip (rev (lstrip s)) = []).
  { apply (f_equal (@rev ascii)) in H. now rewrite rev_involutive in H. }
  apply lstrip_nil in H1. rewrite forallb_forall in H1.
  pose proof (lstrip_clean s) as Hc.
  destruct (lstrip s) as [|c t] eqn:E; [now apply lstrip_nil |].
  simpl in Hc. rewrite (H1 c) in Hc; [discriminate |].
  apply -> in_rev. now left.
Qed.

(** [rstrip] keeps a leading non-space. *)
Lemma rstrip_clean (s : text) : starts_clean s = true -> starts_clean (rstrip s) = true.
Proof.
  destruct s as [|c s]; [reflexivity |].
  simpl. intros Hc. unfold rstrip. simpl.
  destruct (lstrip_suffix (rev s ++ [c])) as [pre Hpre].
  destruct (lstrip (rev s ++ [c])) as [|d t] eqn:E.
  - apply lstrip_nil in E. rewrite forallb_app in E. simpl in E.
    destruct (is_space c); [discriminate | now rewrite andb_false_r in E].
  - assert (Hrev : c :: s = rev (d :: t) ++ rev pre).
    { rewrite <- rev_app_distr, <- Hpre, rev_app_distr, rev_involutive. reflexivity. }
    destruct (rev (d :: t)) as [|x u] eqn:Er.
    + apply (f_equal (@length _)) in Er. rewrite length_rev in Er. discriminate.
    + simpl in Hrev. injection Hrev as <- _. simpl. exact Hc.
Qed.

Lemma rstrip_rstrip (s : text) : rstrip (rstrip s) = rstrip s.
Proof.
  unfold rstrip. rewrite rev_involutive.
  now rewrite (lstrip_id _ (lstrip_clean _)).
Qed.

Lemma strip_idempotent (s : text) : strip (strip s) = strip s.
Proof.
  unfold strip.
  rewrite (lstrip_id (rstrip (lstrip s))).
  - apply rstrip_rstrip.
  - apply rstrip_clean, lstrip_clean.
Qed.

End TextFacts.

(** ** Guardrails *)

Module GuardrailsFacts.
Import Guardrails TextFacts.

Lemma forbidden_loop_hit (l : list string) (s : text) :
  any_in l s = true -> forbidden_loop l s = (false, MSG_FORBIDDEN).
Proof.
  unfold any_in. induction l as [|k l IH]; simpl; [discriminate |].
  destruct (contains (T k) s); [reflexivity | exact IH].
Qed.

Lemma sql_loop_hit (l : list regex) (s : text) :
  (exists pattern, In pattern l /\ search IGNORECASE pattern s <> None) ->
  sql_loop l s = (false, MSG_SQL).
Proof.
  induction l as [|p l IH]; intros [pattern [Hin Hm]]; [contradiction |].
  simpl. destruct (search IGNORECASE p s) eqn:E; [reflexivity |].
  apply IH. exists pattern. split; [| exact Hm].
  destruct Hin as [<- | Hin]; [contradiction | exact Hin].
Qed.

Lemma sql_loop_result (l : list regex) (s : text) :
  sql_loop l s = (true, "") \/ sql_loop l s = (false, MSG_SQL).
Proof.
  induction l as [|p l IH]; simpl; [now left |].
  destruct (search IGNORECASE p s); [now right | exact IH].
Qed.

(** No forbidden keyword starts with a blank, so none occurs in a text
    made of blanks only. *)
Lemma keywords_start_clean :
  forallb (fun k => match T k with c :: _ => negb (is_space c) | [] => false end)
          FORBIDDEN_KEYWORDS = true.
Proof. vm_compute. reflexivity. Qed.

Lemma blank_has_no_keyword (q : text) :
  is_blank q = true -> any_in FORBIDDEN_KEYWORDS (lower q) = false.
Proof.
  intros Hb.
  assert (Hsp : forallb is_space q = true).
  { unfold is_blank in Hb. apply orb_true_iff in Hb as [Hb | Hb].
    - destruct q; [reflexivity | discriminate].
    - apply strip_nil. destruct (strip q); [reflexivity | discriminate]. }
  destruct (any_in FORBIDDEN_KEYWORDS (lower q)) eqn:E; [exfalso | reflexivity].
  unfold any_in in E. apply existsb_exists in E as [k [Hk Hc]].
  pose proof keywords_start_clean as Hclean.
  rewrite forallb_forall in Hclean. specialize (Hclean k Hk).
  destruct (T k) as [|c k'] eqn:Ek; [discriminate |].
  apply contains_head in Hc. unfold lower in Hc.
  apply in_map_iff in Hc as [x [Hx Hin]].
  rewrite forallb_forall in Hsp. specialize (Hsp x Hin).
  rewrite (space_lower x Hsp) in Hx. subst x.
  now rewrite Hsp in Hclean.
Qed.

(** Cutting out the matches of a pattern that matches nowhere changes
    nothing. *)
Lemma sub_from_no_match (fl : flags) (r : regex) (s : text) :
  forall prev i, search_from fl r prev i s = None -> sub_from fl r 0 prev i s = s.
Proof.
  induction s as [|x s IH]; intros prev i H; simpl; [reflexivity |].
  simpl in H. destruct (match_at fl r (mkpos prev i (x :: s))); [discriminate |].
  now rewrite IH.
Qed.

Lemma sub_no_match (fl : flags) (r : regex) (s : text) :
  search fl r s = None -> sub fl r s = s.
Proof. apply sub_from_no_match. Qed.

Definition contains_forbidden (q : text) : bool :=
  any_in FORBIDDEN_KEYWORDS (lower q).

Definition mentions (k : string) (msg : string) : bool :=
  contains (T k) (lower (T msg)).

(** C2, as amended: a query in which a forbidden keyword occurs, whatever
    its case, is always rejected by [validate_query].  The reason is the
    forbidden-operations message, which contains the word forbidden,
    whenever the query has at most 1000 characters and matches no
    SQL-injection pattern; a longer query gets the too-long message and a
    query that matches an SQL-injection pattern the invalid-format one,
    since those two checks run first. *)
Theorem forbidden_keyword_rejected (q : text) :
  contains_forbidden q = true ->
  validate_query q =
    (false,
     if (1000 <? length q)%nat then MSG_TOO_LONG
     else if fst (check_sql_injection q) then MSG_FORBIDDEN
     else MSG_SQL) /\
  ((length q <= 1000)%nat -> check_sql_injection q = (true, "") ->
   validate_query q = (false, MSG_FORBIDDEN)) /\
  mentions "forbidden" MSG_FORBIDDEN = true.
Proof.
  intros Hk. unfold contains_forbidden in Hk.
  assert (Hnb : is_blank q = false).
  { destruct (is_blank q) eqn:E; [| reflexivity].
    apply blank_has_no_keyword in E. congruence. }
  assert (Hf : check_forbidden_keywords q = (false, MSG_FORBIDDEN))
    by now apply forbidden_loop_hit.
  assert (Hv : validate_query q =
               (false,
                if (1000 <? length q)%nat then MSG_TOO_LONG
                else if fst (check_sql_injection q) then MSG_FORBIDDEN
                else MSG_SQL)).
  { unfold validate_query. rewrite Hnb.
    destruct (1000 <? length q)%nat; [reflexivity |].
    destruct (sql_loop_result SQL_INJECTION_PATTERNS (lower q)) as [E | E];
      unfold check_sql_injection; rewrite E; simpl; [| reflexivity].
    now rewrite Hf. }
  split; [exact Hv | split].
  - intros Hlen Hsql. rewrite Hv, Hsql.
    destruct (Nat.ltb_spec 1000 (length q)) as [Hgt | _]; [lia | reflexivity].
  - vm_compute. reflexivity.
Qed.

Definition update_query : text := T "Update my training status".

Lemma forbidden_keyword_rejected_witness :
  contains_forbidden update_query = true /\
  validate_query update_query = (false, MSG_FORBIDDEN).
Proof.
  assert (Hk : contains_forbidden update_query = true) by (vm_compute; reflexivity).
  split; [exact Hk |].
  apply (proj1 (proj2 (forbidden_keyword_rejected update_query Hk)));
    [vm_compute; lia | vm_compute; reflexivity].
Defined.

Definition drop_table_query : text := T "'; DROP TABLE employees; --".

(** C2 as stated fails: the query contains the forbidden keyword drop,
    yet the reason returned does not mention forbidden operations. *)
Lemma forbidden_keyword_other_reason :
  contains_forbidden drop_table_query = true /\
  validate_query drop_table_query = (false, MSG_SQL) /\
  mentions "forbidden" (snd (validate_query drop_table_query)) = false.
Proof. vm_compute. repeat split; reflexivity. Qed.

(** C3: a query that is not blank, has at most 1000 characters and
    matches one of the SQL-injection patterns is rejected with the
    invalid-query-format message; that check comes before the
    forbidden-keyword one, whose message is therefore not returned. *)
Theorem sql_injection_rejected_first (q : text) :
  is_blank q = false ->
  (length q <= 1000)%nat ->
  (exists pattern, In pattern SQL_INJECTION_PATTERNS /\
                   search IGNORECASE pattern (lower q) <> None) ->
  validate_query q = (false, MSG_SQL) /\
  mentions "invalid query format" MSG_SQL = true /\
  snd (validate_query q) <> MSG_FORBIDDEN /\
  mentions "forbidden" (snd (validate_query q)) = false.
Proof.
  intros Hnb Hlen Hm.
  assert (E : validate_query q = (false, MSG_SQL)).
  { unfold validate_query. rewrite Hnb.
    destruct (Nat.ltb_spec 1000 (length q)) as [Hgt | _]; [lia |].
    unfold check_sql_injection. now rewrite (sql_loop_hit _ _ Hm). }
  rewrite E. simpl.
  split; [reflexivity |].
  split; [vm_compute; reflexivity |].
  split; [discriminate | vm_compute; reflexivity].
Qed.

Lemma sql_injection_rejected_first_witness :
  validate_query drop_table_query = (false, MSG_SQL) /\
  contains_forbidden drop_table_query = true.
Proof.
  split; [| vm_compute; reflexivity].
  apply (sql_injection_rejected_first drop_table_query).
  - vm_compute. reflexivity.
  - vm_compute. lia.
  - exists sql_pattern_2. split; [simpl; tauto | vm_compute; discriminate].
Defined.

End GuardrailsFacts.

(** ** Intent parser *)

Module IntentParserFacts.
Import IntentParser TextFacts.

(** C5: the first two queries are classified as the tests expect; the
    third one is not.  "did ... video" already matches the first
    CHECK_COMPLETION pattern, and CHECK_COMPLETION is tried before
    VIDEO_DURATION, so the query never reaches the duration patterns,
    although one of them matches it and its video number is 3. *)
Theorem classify_intent_duration_query_shadowed :
  classify_intent (T "Did I complete my training?") = CHECK_COMPLETION /\
  classify_intent (T "Which videos am I missing?") = LIST_MISSING_VIDEOS /\
  classify_intent (T "How long did video 3 take me?") = CHECK_COMPLETION /\
  any_pattern_matches video_duration_patterns
    (lower (T "How long did video 3 take me?")) = true /\
  extract_video_number (T "How long did video 3 take me?") = Some 3%N.
Proof. vm_compute. repeat split; reflexivity. Qed.

Definition mentions_not_started (ql : text) : bool :=
  has "not started" ql || has "haven't started" ql.

Definition mentions_in_progress (ql : text) : bool :=
  has "in progress" ql || has "ongoing" ql || has "started" ql.

Definition mentions_finished (ql : text) : bool :=
  has "finished" ql || has "completed" ql || has "done" ql.

Lemma not_started_is_started (ql : text) :
  mentions_not_started ql = true -> has "started" ql = true.
Proof.
  unfold mentions_not_started, has. intros H.
  apply orb_true_iff in H as [H | H].
  - apply (contains_inner (T "not ") (T "started") []). exact H.
  - apply (contains_inner (T "haven't ") (T "started") []). exact H.
Qed.

(** C6, as amended: the checks run in the order NOT_STARTED, IN_PROGRESS,
    FINISHED.  A text with "not started" or "haven't started" gives
    NOT_STARTED; otherwise one with "in progress", "ongoing" or "started"
    gives IN_PROGRESS; FINISHED is returned exactly when "finished",
    "completed" or "done" occurs and none of "in progress", "ongoing",
    "started" does; nothing is returned when no cue occurs.  In
    particular "Show employees who have finished" gives FINISHED. *)
Theorem extract_status_priority (q : text) :
  let ql := lower q in
  (mentions_not_started ql = true -> extract_status q = Some "NOT_STARTED") /\
  (mentions_not_started ql = false -> mentions_in_progress ql = true ->
   extract_status q = Some "IN_PROGRESS") /\
  (extract_status q = Some "FINISHED" <->
   mentions_finished ql = true /\ mentions_in_progress ql = false) /\
  (extract_status q = None <->
   mentions_finished ql = false /\ mentions_in_progress ql = false) /\
  extract_status (T "Show employees who have finished") = Some "FINISHED".
Proof.
  intros ql.
  pose proof (not_started_is_started ql) as Hns.
  unfold extract_status. fold ql.
  fold (mentions_not_started ql) (mentions_in_progress ql) (mentions_finished ql).
  assert (Himp : mentions_in_progress ql = false -> mentions_not_started ql = false).
  { intros Hp. destruct (mentions_not_started ql); [| reflexivity].
    unfold mentions_in_progress in Hp. rewrite (Hns eq_refl) in Hp.
    now rewrite orb_true_r in Hp. }
  split; [| split; [| split; [| split]]].
  - now intros ->.
  - now intros -> ->.
  - split.
    + destruct (mentions_not_started ql); [discriminate |].
      destruct (mentions_in_progress ql); [discriminate |].
      destruct (mentions_finished ql); [now split | discriminate].
    + intros [Hf Hp]. now rewrite (Himp Hp), Hp, Hf.
  - split.
    + destruct (mentions_not_started ql); [discriminate |].
      destruct (mentions_in_progress ql); [discriminate |].
      destruct (mentions_finished ql); [discriminate | now split].
    + intros [Hf Hp]. now rewrite (Himp Hp), Hp, Hf.
  - vm_compute. reflexivity.
Qed.

(** C6 as stated fails: the text contains "finished", yet the status
    extracted is IN_PROGRESS because it also contains "started". *)
Lemma extract_status_finished_not_first :
  mentions_finished (lower (T "Who finished and who only started?")) = true /\
  extract_status (T "Who finished and who only started?") = Some "IN_PROGRESS".
Proof. vm_compute. split; reflexivity. Qed.

Definition in_range (num : N) : bool := (1 <=? num)%N && (num <=? 5)%N.

(** What the loop returns, for any list of patterns: the number of the
    first pattern whose leftmost match lies in the range. *)
Lemma video_number_loop_some (patterns : list regex) (ql : text) (n : N) :
  video_number_loop patterns ql = Some n ->
  exists before pattern after,
    patterns = before ++ pattern :: after /\
    matched_number pattern ql = Some n /\
    in_range n = true /\
    forall p m, In p before -> matched_number p ql = Some m -> in_range m = false.
Proof.
  induction patterns as [|p l IH]; simpl; [discriminate |].
  destruct (matched_number p ql) as [num|] eqn:E.
  - fold (in_range num). destruct (in_range num) eqn:R.
    + intros [= <-]. exists [], p, l. repeat split; auto.
      intros ? ? [].
    + intros H. destruct (IH H) as (b & pat & a & -> & Hm & Hr & Hb).
      exists (p :: b), pat, a. repeat split; auto.
      intros p' m [<- | Hin] Hp'; [congruence | eauto].
  - intros H. destruct (IH H) as (b & pat & a & -> & Hm & Hr & Hb).
    exists (p :: b), pat, a. repeat split; auto.
    intros p' m [<- | Hin] Hp'; [congruence | eauto].
Qed.

Lemma video_number_loop_none (patterns : list regex) (ql : text) :
  video_number_loop patterns ql = None <->
  forall p m, In p patterns -> matched_number p ql = Some m -> in_range m = false.
Proof.
  induction patterns as [|p l IH]; simpl.
  - split; [intros _ ? ? [] | reflexivity].
  - destruct (matched_number p ql) as [num|] eqn:E.
    + fold (in_range num). destruct (in_range num) eqn:R.
      * split; [discriminate |]. intros H.
        specialize (H p num (or_introl eq_refl) E). congruence.
      * rewrite IH. split.
        -- intros H p' m [<- | Hin] Hp'; [congruence | eauto].
        -- intros H p' m Hin. apply H. now right.
    + rewrite IH. split.
      * intros H p' m [<- | Hin] Hp'; [congruence | eauto].
      * intros H p' m Hin. apply H. now right.
Qed.

(** C7, as amended: the number returned is that of the first pattern, in
    the order "video N", "video number N", "module N", "lesson N", "#N",
    whose leftmost match has 1 <= N <= 5 (patterns whose leftmost match is
    out of that range are passed over); null is returned exactly when no
    pattern has such a match; in particular "video 5" yields 5. *)
Theorem extract_video_number_range (q : text) (n : N) :
  extract_video_number q = Some n ->
  (1 <= n <= 5)%N /\
  (exists before pattern after,
     video_number_patterns = before ++ pattern :: after /\
     matched_number pattern (lower q) = Some n /\
     forall p m, In p before -> matched_number p (lower q) = Some m ->
                 in_range m = false) /\
  (forall q', extract_video_number q' = None <->
              forall p m, In p video_number_patterns ->
                          matched_number p (lower q') = Some m -> in_range m = false) /\
  extract_video_number (T "video 5") = Some 5%N.
Proof.
  intros H. unfold extract_video_number in H.
  destruct (video_number_loop_some _ _ _ H) as (b & pat & a & Hl & Hm & Hr & Hb).
  split; [| split; [| split]].
  - unfold in_range in Hr. apply andb_true_iff in Hr as [H1 H2].
    apply N.leb_le in H1, H2. lia.
  - exists b, pat, a. auto.
  - intros q'. apply video_number_loop_none.
  - vm_compute. reflexivity.
Qed.

Lemma extract_video_number_range_witness :
  extract_video_number (T "Open lesson 12, then module 2") = Some 2%N /\
  (1 <= 2 <= 5)%N.
Proof.
  assert (H : extract_video_number (T "Open lesson 12, then module 2") = Some 2%N)
    by (vm_compute; reflexivity).
  split; [exact H |].
  exact (proj1 (extract_video_number_range _ _ H)).
Defined.

(** C7 as stated fails: the only match is "video 5" and 5 is returned. *)
Lemma extract_video_number_accepts_five :
  extract_video_number (T "video 5") = Some 5%N /\
  extract_video_number (T "video 5") <> None.
Proof. vm_compute. split; [reflexivity | discriminate]. Qed.

Definition self_cue (ql : text) : bool := has "i" ql || has "my" ql || has "me" ql.

Lemma his_their_myself_have_self_cue (ql : text) :
  (has "his" ql = true -> has "i" ql = true) /\
  (has "their" ql = true -> has "i" ql = true) /\
  (has "myself" ql = true -> has "my" ql = true).
Proof.
  unfold has. repeat split.
  - apply (contains_inner (T "h") (T "i") (T "s")).
  - apply (contains_inner (T "the") (T "i") (T "r")).
  - apply (contains_inner [] (T "my") (T "self")).
Qed.

(** C10, as amended: cue words are matched as raw substrings.  A query
    whose lowercase form contains the letter "i" anywhere, or "my" or "me"
    (also inside longer words: "his" and "their" contain "i"), gives
    "self"; "other" is returned exactly when the query contains "her" or
    "employee" and none of "i", "my", "me".  The word "employee" contains
    none of them and by itself gives "other". *)
Theorem extract_employee_mention_substrings (q : text) :
  let ql := lower q in
  (self_cue ql = true -> extract_employee_mention q = Some "self") /\
  (extract_employee_mention q = Some "other" <->
   (has "her" ql || has "employee" ql = true) /\ self_cue ql = false) /\
  (has "his" ql = true \/ has "their" ql = true ->
   extract_employee_mention q = Some "self") /\
  self_cue (T "employee") = false /\
  extract_employee_mention (T "employee") = Some "other".
Proof.
  intros ql.
  destruct (his_their_myself_have_self_cue ql) as (Hhis & Htheir & Hmyself).
  unfold extract_employee_mention, self_cue. fold ql. simpl existsb.
  split; [| split; [| split; [| split]]].
  - intros H. apply orb_true_iff in H as [H | H].
    + apply orb_true_iff in H as [H | H]; rewrite H;
        [now rewrite ?orb_true_r | reflexivity].
    + rewrite H. now rewrite ?orb_true_r.
  - destruct (has "i" ql) eqn:Ei.
    { rewrite ?orb_true_r. simpl. split; [discriminate | intros [_ H]; discriminate]. }
    destruct (has "my" ql) eqn:Emy.
    { simpl. split; [discriminate | intros [_ H]; discriminate]. }
    destruct (has "me" ql) eqn:Eme.
    { simpl. split; [discriminate | intros [_ H]; discriminate]. }
    destruct (has "myself" ql) eqn:Emyself; [now specialize (Hmyself eq_refl) |].
    destruct (has "his" ql) eqn:Ehis; [now specialize (Hhis eq_refl) |].
    destruct (has "their" ql) eqn:Etheir; [now specialize (Htheir eq_refl) |].
    simpl. rewrite !orb_false_r.
    destruct (has "her" ql || has "employee" ql).
    + split; [now split | reflexivity].
    + split; [discriminate | intros [H _]; discriminate].
  - intros [H | H]; [rewrite (Hhis H) | rewrite (Htheir H)];
      now rewrite ?orb_true_r.
  - vm_compute. reflexivity.
  - vm_compute. reflexivity.
Qed.

(** C10 as stated fails on the word it lists: "employee" contains no
    "i", "my" or "me", and a query made of it gives "other". *)
Lemma extract_employee_mention_employee_is_other :
  has "employee" (lower (T "employee")) = true /\
  self_cue (lower (T "employee")) = false /\
  extract_employee_mention (T "employee") = Some "other" /\
  extract_employee_mention (T "employee") <> Some "self".
Proof. vm_compute. repeat split; discriminate. Qed.

End IntentParserFacts.

(** ** Employee records and the training service *)

Module EmployeeFacts.







End EmployeeFacts.

Module TrainingServiceFacts.
Import TrainingService.

Definition zero_times (s : global_summary) : Prop :=
  max_time_minutes s = 0%Q /\ min_time_minutes s = 0%Q /\
  average_time_minutes s = 0%Q /\
  fastest_employee s = None /\ slowest_employee s = None.

(** C9, as amended: [get_global_summary] never raises, so it never
    divides by zero: the average is computed only over a non-empty
    finished subset.  Its four counts are the numbers of records, of
    FINISHED, of NOT_STARTED and of IN_PROGRESS records.  When no record
    is FINISHED the finished count and the three time statistics are 0
    and fastest and slowest are null; when the store is empty all four
    counts are 0 as well. *)
Theorem get_global_summary_never_raises (db : list Employee) :
  exists s,
    get_global_summary db = Ok s /\
    total_employees s = length db /\
    finished_employees_count s = length (with_status "FINISHED" db) /\
    not_started_count s = length (with_status "NOT_STARTED" db) /\
    in_progress_count s = length (with_status "IN_PROGRESS" db) /\
    (with_status "FINISHED" db = [] -> zero_times s) /\
    (db = [] ->
     total_employees s = 0%nat /\ finished_employees_count s = 0%nat /\
     not_started_count s = 0%nat /\ in_progress_count s = 0%nat /\ zero_times s).
Proof.
  unfold get_global_summary, zero_times.
  destruct db as [|e db].
  - eexists. split; [reflexivity |]. simpl. repeat split; reflexivity.
  - destruct (with_status "FINISHED" (e :: db)) as [|f fs] eqn:Ef.
    + eexists. split; [reflexivity |]. simpl.
      repeat split; try reflexivity; discriminate.
    + eexists. split; [reflexivity |]. simpl.
      repeat split; try reflexivity; discriminate.
Qed.

Definition newcomer : Employee :=
  {| EMPLOYEE_ID := "000000001"; EMPLOYEE_NAME := "Dana"; EMPLOYEE_LAST_NAME := "Levi";
     EMPLOYEE_DIVISION := "Finance";
     START_FIRST_VIDEO_DATE := Some 0%Z; FINISH_FIRST_VIDEO_DATE := None;
     START_SECOND_VIDEO_DATE := None; FINISH_SECOND_VIDEO_DATE := None;
     START_THIRD_VIDEO_DATE := None; FINISH_THIRD_VIDEO_DATE := None;
     START_FOURTH_VIDEO_DATE := None; FINISH_FOURTH_VIDEO_DATE := None |}.

(** C9 as stated fails: with one record and none FINISHED, the counts
    are not all 0. *)
Lemma get_global_summary_counts_not_all_zero :
  with_status "FINISHED" [newcomer] = [] /\
  exists s, get_global_summary [newcomer] = Ok s /\
            total_employees s = 1%nat /\ not_started_count s = 1%nat /\
            total_employees s <> 0%nat.
Proof.
  split; [vm_compute; reflexivity |].
  eexists. split; [vm_compute; reflexivity |]. simpl.
  repeat split. discriminate.
Qed.

End TrainingServiceFacts.

(** ** The query pipeline *)

Module TrainingAgentFacts.
Import Guardrails IntentParser TrainingService TrainingAgent.

(** What the store says about a session at the next reading of the clock:
    it exists, has not expired, and holds both an employee ID and a name. *)
Definition fully_authenticated (session_timeout_minutes : Z) (utcnow : nat -> datetime)
    (sid : string) (w : world) : bool :=
  match sessions w !! sid with
  | Some s =>
      negb (Session.is_expired session_timeout_minutes (utcnow (clock_reads w)) s)
      && Session.is_authenticated s
  | None => false
  end.

Section Pipeline.
Variable session_timeout_minutes : Z.
Variable utcnow : nat -> datetime.

Let auth := is_authenticated session_timeout_minutes utcnow.

Lemma get_session_trace (sid : string) (w : world) :
  trace (snd (get_session session_timeout_minutes utcnow sid w)) = trace w.
Proof.
  unfold get_session. destruct (sessions w !! sid) as [s|]; [| reflexivity].
  now destruct (Session.is_expired _ _ s).
Qed.

(** The authentication check never raises, answers what the store says
    and adds one entry to the log. *)
Lemma is_authenticated_spec (sid : string) (w : world) :
  fst (auth sid w) = inl (fully_authenticated session_timeout_minutes utcnow sid w) /\
  trace (snd (auth sid w)) = trace w ++ [EvAuthCheck sid].
Proof.
  unfold auth, is_authenticated, mbind, log.
  set (w0 := {| sessions := sessions w; clock_reads := clock_reads w;
                trace := trace w ++ [EvAuthCheck sid] |}).
  pose proof (get_session_trace sid w0) as Ht.
  unfold fully_authenticated.
  unfold get_session in *. simpl in *.
  destruct (sessions w !! sid) as [s|]; simpl; [| now split].
  destruct (Session.is_expired _ _ s); simpl in *; now split.
Qed.

End Pipeline.

Definition rejected (reason : string) : response :=
  {| success := false; response_text := reason;
     intent := None; context := None; requires_auth := false |}.

Definition authentication_required : response :=
  {| success := false; response_text := MSG_AUTH;
     intent := None; context := None; requires_auth := true |}.

Definition stage_entered (e : event) : bool :=
  match e with
  | EvAuthCheck _ => false
  | EvClassify _ | EvDataAccess | EvRender => true
  end.

(** The entries a run added to the log. *)
Definition logged_since (w w' : world) : list event :=
  skipn (length (trace w)) (trace w').

(** C1: when the guardrails reject the query, [process_query] returns the
    rejection reason and leaves the world as it was: the session store is
    not consulted and nothing is logged, so no authentication check took
    place.  When they accept it and the session is not fully
    authenticated, the answer is the authentication-required one
    ([requires_auth] true) and the only stage logged is the
    authentication check: neither intent classification nor data access
    (nor rendering) is reached. *)
Theorem process_query_guards
    (session_timeout_minutes : Z) (utcnow : nat -> datetime) (db : list Employee)
    (_call_llm : text -> context_data -> text)
    (query : text) (session_id : string) (w : world) :
  let run := process_query session_timeout_minutes utcnow db _call_llm in
  let auth := is_authenticated session_timeout_minutes utcnow in
  (fst (validate_query query) = false ->
   run query session_id w = (inl (rejected (snd (validate_query query))), w)) /\
  (fst (validate_query query) = true ->
   fully_authenticated session_timeout_minutes utcnow session_id w = false ->
   exists w',
     run query session_id w = (inl authentication_required, w') /\
     requires_auth authentication_required = true /\
     w' = snd (auth session_id w) /\
     logged_since w w' = [EvAuthCheck session_id] /\
     existsb stage_entered (logged_since w w') = false).
Proof.
  intros run auth. subst run. unfold process_query.
  destruct (validate_query query) as [is_valid reason]. simpl.
  split; intros ->; simpl; [reflexivity |].
  intros Hauth. subst auth.
  destruct (is_authenticated_spec session_timeout_minutes utcnow session_id w)
    as [Hb Ht].
  rewrite Hauth in Hb.
  unfold mbind at 1.
  destruct (is_authenticated session_timeout_minutes utcnow session_id w)
    as [[b|e] w1]; simpl in *; [| discriminate].
  injection Hb as ->. simpl.
  assert (Hl : logged_since w w1 = [EvAuthCheck session_id]).
  { unfold logged_since.
    rewrite Ht, skipn_app, Nat.sub_diag, skipn_all. reflexivity. }
  exists w1. rewrite Hl. repeat split; auto.
Qed.

Definition fresh_session : Session.UserSession :=
  {| Session.session_id := "s1"; Session.employee_id := Some 7%Z;
     Session.employee_name := None; Session.is_ciso := false;
     Session.created_at := 0%Z; Session.last_activity := 0%Z |}.

Definition one_session : world :=
  {| sessions := {[ "s1" := fresh_session ]}; clock_reads := 0; trace := [] |}.

Definition status_query : text := T "What is my training status?".

(** An accepted query on a session that gave its ID but not its name. *)
Lemma process_query_guards_witness :
  validate_query status_query = (true, "") /\
  exists w',
    process_query 30 (fun _ => 0%Z) [] (fun _ _ => []) status_query "s1" one_session
      = (inl authentication_required, w') /\
    trace w' = [EvAuthCheck "s1"].
Proof.
  split; [vm_compute; reflexivity |].
  destruct (proj2 (process_query_guards 30 (fun _ => 0%Z) [] (fun _ _ => [])
                     status_query "s1" one_session))
    as (w' & Hrun & _ & _ & Ht & _).
  - vm_compute. reflexivity.
  - reflexivity.
  - exists w'. split; [exact Hrun | exact Ht].
Defined.

End TrainingAgentFacts.

(** ** Further properties of the guardrails *)

Module GuardrailsMore.
Import Guardrails TextFacts GuardrailsFacts.

Lemma sql_loop_pass (l : list regex) (s : text) :
  sql_loop l s = (true, "") <->
  forall pattern, In pattern l -> search IGNORECASE pattern s = None.
Proof.
  induction l as [|p l IH]; simpl.
  - split; [intros _ ? [] | reflexivity].
  - destruct (search IGNORECASE p s) eqn:E.
    + split; [discriminate |]. intros H. specialize (H p (or_introl eq_refl)). congruence.
    + rewrite IH. split.
      * intros H q [<- | Hin]; auto.
      * intros H q Hin. apply H. now right.
Qed.

Lemma forbidden_loop_pass (l : list string) (s : text) :
  forbidden_loop l s = (true, "") <-> any_in l s = false.
Proof.
  unfold any_in. induction l as [|k l IH]; simpl; [tauto |].
  destruct (contains (T k) s); simpl; [split; discriminate | exact IH].
Qed.

Lemma forbidden_loop_result (l : list string) (s : text) :
  forbidden_loop l s = (true, "") \/ forbidden_loop l s = (false, MSG_FORBIDDEN).
Proof.
  induction l as [|k l IH]; simpl; [now left |].
  destruct (contains (T k) s); [now right | exact IH].
Qed.

(** X1: [validate_query] accepts a query exactly when it is not blank,
    has at most 1000 characters, matches none of the SQL-injection
    patterns, contains no forbidden keyword, and either mentions an allowed
    topic or has at most three words; the reason returned with an accepted
    query is the empty string. *)
Theorem validate_query_accepts_iff (q : text) :
  (fst (validate_query q) = true <->
   is_blank q = false /\
   (length q <= 1000)%nat /\
   (forall pattern, In pattern SQL_INJECTION_PATTERNS ->
                    search IGNORECASE pattern (lower q) = None) /\
   any_in FORBIDDEN_KEYWORDS (lower q) = false /\
   (any_in ALLOWED_TOPICS (lower q) = true \/ (split_len q <= 3)%nat)) /\
  (fst (validate_query q) = true -> validate_query q = (true, "")).
Proof.
  unfold validate_query, check_sql_injection, check_forbidden_keywords,
    is_training_related.
  rewrite <- sql_loop_pass, <- forbidden_loop_pass.
  pose proof (sql_loop_result SQL_INJECTION_PATTERNS (lower q)) as Hsql.
  pose proof (forbidden_loop_result FORBIDDEN_KEYWORDS (lower q)) as Hkw.
  set (sql := sql_loop SQL_INJECTION_PATTERNS (lower q)) in *.
  set (kw := forbidden_loop FORBIDDEN_KEYWORDS (lower q)) in *.
  set (topic := any_in ALLOWED_TOPICS (lower q)).
  pose proof (Nat.ltb_spec 1000 (length q)) as Hlen.
  pose proof (Nat.ltb_spec 3 (split_len q)) as Hs.
  set (long := (1000 <? length q)%nat) in *.
  set (many := (3 <? split_len q)%nat) in *.
  clearbody sql kw topic long many.
  destruct (is_blank q); cbn.
  { split; [split; [discriminate | intros [H _]; discriminate] | discriminate]. }
  destruct Hlen as [Hlen | Hlen]; cbn.
  { split; [split; [discriminate | intros (_ & H & _); lia] | discriminate]. }
  destruct Hsql as [-> | ->]; cbn.
  2: { split; [split; [discriminate | intros (_ & _ & H & _); discriminate]
              | discriminate]. }
  destruct Hkw as [-> | ->]; cbn.
  2: { split; [split; [discriminate | intros (_ & _ & _ & H & _); discriminate]
              | discriminate]. }
  destruct topic; cbn.
  { split; [split; [intros _; repeat split; auto | reflexivity] | reflexivity]. }
  destruct Hs as [Hs | Hs]; cbn.
  - split; [split; [discriminate |] | discriminate].
    intros (_ & _ & _ & _ & [H | H]); [discriminate | lia].
  - split; [split; [intros _; repeat split; auto | reflexivity] | reflexivity].
Qed.

Lemma all_space_blank (q : text) : forallb is_space q = true -> is_blank q = true.
Proof.
  intros H. unfold is_blank, strip.
  rewrite (forallb_space_lstrip q H). destruct q; reflexivity.
Qed.

(** X2: a query made of whitespace only (spaces, tabs, line breaks, the
    separators 28 to 31), whatever its length, is rejected with "Please provide
    a query.": the blank check comes before the length check. *)
Theorem blank_query_rejected (q : text) :
  forallb is_space q = true -> validate_query q = (false, MSG_EMPTY).
Proof.
  intros H. unfold validate_query. now rewrite (all_space_blank q H).
Qed.

Lemma blank_query_rejected_witness :
  (1000 < length (repeat " "%char 1200))%nat /\
  validate_query (repeat " "%char 1200) = (false, MSG_EMPTY).
Proof.
  split; [vm_compute; lia |].
  apply (blank_query_rejected (repeat " "%char 1200)). vm_compute. reflexivity.
Defined.

End GuardrailsMore.

Module SanitizerFacts.
Import Guardrails TextFacts GuardrailsFacts.

(** A pattern that matches at the start of [s], whatever precedes, is found
    by a search through any text that ends with [s]. *)
Lemma search_from_found (fl : flags) (r : regex) (s pre : text) :
  (forall prev i, match_at fl r (mkpos prev i s) <> None) ->
  forall prev i, search_from fl r prev i (pre ++ s) <> None.
Proof.
  intros Hs. induction pre as [|a pre IH]; intros prev i; simpl.
  - specialize (Hs prev i). destruct s; simpl;
      destruct (match_at fl r _); congruence.
  - destruct (match_at fl r _); [discriminate | apply IH].
Qed.

Definition comment_markers : list string := [";"; "--"; "/*"; "*/"].

Lemma marker_matches (marker : string) (post : text) :
  In marker comment_markers ->
  forall prev i, match_at IGNORECASE sql_pattern_2 (mkpos prev i (T marker ++ post)) <> None.
Proof.
  intros Hin prev i. simpl in Hin.
  destruct Hin as [<- | [<- | [<- | [<- | []]]]]; cbn; discriminate.
Qed.

(** X3: a query that contains a semicolon or one of the SQL comment
    markers [--], [/*], [*/] anywhere fails the SQL-injection check, and
    [validate_query] rejects it with the invalid-format message when it has
    at most 1000 characters. *)
Theorem comment_marker_rejected (q : text) (marker : string) :
  In marker comment_markers ->
  contains (T marker) q = true ->
  check_sql_injection q = (false, MSG_SQL) /\
  ((length q <= 1000)%nat -> validate_query q = (false, MSG_SQL)).
Proof.
  intros Hin Hc.
  assert (Hm : search IGNORECASE sql_pattern_2 (lower q) <> None).
  { apply contains_iff in Hc as (pre & post & ->).
    unfold lower. rewrite !map_app.
    replace (map lower_char (T marker)) with (T marker)
      by (simpl in Hin; destruct Hin as [<- | [<- | [<- | [<- | []]]]]; reflexivity).
    apply search_from_found. now apply marker_matches. }
  assert (Hsql : check_sql_injection q = (false, MSG_SQL)).
  { apply sql_loop_hit. exists sql_pattern_2. split; [simpl; tauto | exact Hm]. }
  split; [exact Hsql |]. intros Hlen.
  assert (Hnb : is_blank q = false).
  { destruct (is_blank q) eqn:E; [exfalso | reflexivity].
    assert (Hsp : forallb is_space q = true).
    { unfold is_blank in E. apply orb_true_iff in E as [E | E].
      - destruct q; [reflexivity | discriminate].
      - apply strip_nil. destruct (strip q); [reflexivity | discriminate]. }
    rewrite forallb_forall in Hsp.
    simpl in Hin. destruct Hin as [<- | [<- | [<- | [<- | []]]]];
      apply contains_head in Hc; apply Hsp in Hc; discriminate. }
  unfold validate_query. rewrite Hnb.
  destruct (Nat.ltb_spec 1000 (length q)) as [Hgt | _]; [lia |].
  now rewrite Hsql.
Qed.

Lemma comment_marker_rejected_witness :
  validate_query (T "status -- of training") = (false, MSG_SQL).
Proof.
  apply (comment_marker_rejected (T "status -- of training") "--").
  - simpl. tauto.
  - vm_compute. reflexivity.
  - vm_compute. lia.
Defined.

Lemma sub_from_sublist (fl : flags) (r : regex) (s : text) :
  forall skip prev i, sub_from fl r skip prev i s `sublist_of` s.
Proof.
  induction s as [|x s IH]; intros skip prev i; simpl; [constructor |].
  destruct skip as [|n].
  - destruct (match_at fl r _) as [m|].
    + destruct (m_end m - m_start m)%nat;
        [apply sublist_skip | apply sublist_cons]; apply IH.
    + apply sublist_skip, IH.
  - apply sublist_cons, IH.
Qed.

Lemma lstrip_sublist (s : text) : lstrip s `sublist_of` s.
Proof.
  destruct (lstrip_suffix s) as [pre H]. rewrite H at 2.
  now apply sublist_inserts_l.
Qed.

Lemma rstrip_prefix (s : text) : exists post, s = rstrip s ++ post.
Proof.
  unfold rstrip. destruct (lstrip_suffix (rev s)) as [pre H].
  exists (rev pre).
  rewrite <- rev_app_distr, <- H. symmetry. apply rev_involutive.
Qed.

Lemma rstrip_sublist (s : text) : rstrip s `sublist_of` s.
Proof.
  destruct (rstrip_prefix s) as [post H]. rewrite H at 2.
  now apply sublist_inserts_r.
Qed.

Lemma strip_sublist (s : text) : strip s `sublist_of` s.
Proof.
  unfold strip. etransitivity; [apply rstrip_sublist | apply lstrip_sublist].
Qed.

(** The last character is not a blank either. *)
Definition ends_clean (s : text) : bool := starts_clean (rev s).

Lemma strip_clean (s : text) :
  starts_clean (strip s) = true /\ ends_clean (strip s) = true.
Proof.
  unfold strip. split.
  - apply rstrip_clean, lstrip_clean.
  - unfold ends_clean, rstrip. rewrite rev_involutive. apply lstrip_clean.
Qed.

(** X4: [sanitize_response] only deletes characters: what it returns is
    the response with some characters left out, in the same order, so it
    is never longer than the response; and the result neither starts nor
    ends with a blank. *)
Theorem sanitize_response_only_deletes (response : text) :
  sanitize_response response `sublist_of` response /\
  (length (sanitize_response response) <= length response)%nat /\
  starts_clean (sanitize_response response) = true /\
  ends_clean (sanitize_response response) = true.
Proof.
  assert (H : sanitize_response response `sublist_of` response).
  { unfold sanitize_response. simpl.
    etransitivity; [apply strip_sublist |].
    etransitivity; [apply sub_from_sublist |].
    etransitivity; [apply sub_from_sublist |].
    apply sub_from_sublist. }
  split; [exact H |]. split; [now apply sublist_length |].
  apply strip_clean.
Qed.

End SanitizerFacts.

(** ** A second pass of the sanitizer *)

Module SanitizerPasses.
Import Guardrails TextFacts GuardrailsFacts SanitizerFacts.

(** Whatever a pattern matches, the matcher hands its continuation a
    position that is not before the one it started from. *)
Lemma star_greedy_advances {R : Type} (fl : flags) (cl : cclass) (s : text) :
  forall prev i cs (k : cont) (x : R),
    star_greedy fl cl prev i s cs k = Some x ->
    exists p' cs', (i <= idx p')%nat /\ k p' cs' = Some x.
Proof.
  induction s as [|c s IH]; intros prev i cs k x H; simpl in H.
  - exists (mkpos prev i []), cs. split; [simpl; lia | exact H].
  - destruct (cmatch fl cl c).
    + destruct (star_greedy fl cl (Some c) (S i) s cs k) as [y|] eqn:E.
      * injection H as <-. destruct (IH _ _ _ _ _ E) as (p' & cs' & Hi & Hk).
        exists p', cs'. split; [lia | exact Hk].
      * exists (mkpos prev i (c :: s)), cs. split; [simpl; lia | exact H].
    + exists (mkpos prev i (c :: s)), cs. split; [simpl; lia | exact H].
Qed.

Lemma star_lazy_advances {R : Type} (fl : flags) (cl : cclass) (s : text) :
  forall prev i cs (k : cont) (x : R),
    star_lazy fl cl prev i s cs k = Some x ->
    exists p' cs', (i <= idx p')%nat /\ k p' cs' = Some x.
Proof.
  induction s as [|c s IH]; intros prev i cs k x H; simpl in H.
  - destruct (k (mkpos prev i []) cs) as [y|] eqn:E; [| discriminate].
    injection H as <-. exists (mkpos prev i []), cs. split; [simpl; lia | exact E].
  - destruct (k (mkpos prev i (c :: s)) cs) as [y|] eqn:E.
    + injection H as <-. exists (mkpos prev i (c :: s)), cs.
      split; [simpl; lia | exact E].
    + destruct (cmatch fl cl c); [| discriminate].
      destruct (IH _ _ _ _ _ H) as (p' & cs' & Hi & Hk).
      exists p', cs'. split; [lia | exact Hk].
Qed.

Lemma run_advances {R : Type} (fl : flags) (r : regex) :
  forall p cs (k : cont) (x : R),
    run fl r p cs k = Some x ->
    exists p' cs', (idx p <= idx p')%nat /\ k p' cs' = Some x.
Proof.
  induction r as [| cl | | r1 IH1 r2 IH2 | r1 IH1 r2 IH2 | greedy cl | r1 IH1 | n r1 IH1];
    intros p cs k x H; simpl in H.
  - exists p, cs. split; [lia | exact H].
  - destruct (rest p) as [|c s]; [discriminate |].
    destruct (cmatch fl cl c); [| discriminate].
    eexists _, cs. split; [| exact H]. simpl. lia.
  - destruct (at_boundary p); [| discriminate].
    exists p, cs. split; [lia | exact H].
  - destruct (IH1 _ _ _ _ H) as (p1 & cs1 & Hi1 & H1).
    destruct (IH2 _ _ _ _ H1) as (p2 & cs2 & Hi2 & H2).
    exists p2, cs2. split; [lia | exact H2].
  - destruct (run fl r1 p cs k) as [y|] eqn:E.
    + injection H as <-. exact (IH1 _ _ _ _ E).
    + exact (IH2 _ _ _ _ H).
  - destruct greedy.
    + exact (star_greedy_advances fl cl _ _ _ _ _ _ H).
    + exact (star_lazy_advances fl cl _ _ _ _ _ _ H).
  - set (fuel := length (rest p)) in H. clearbody fuel. revert p cs H.
    induction fuel as [|fuel IHf]; intros p cs H.
    + now apply IH1 in H.
    + apply IH1 in H as (p1 & cs1 & Hi1 & H1).
      destruct (idx p <? idx p1)%nat.
      * match type of H1 with
        | match ?l with _ => _ end = _ => destruct l as [y|] eqn:E
        end.
        -- injection H1 as <-. apply IHf in E as (p2 & cs2 & Hi2 & H2).
           exists p2, cs2. split; [lia | exact H2].
        -- exists p1, cs1. split; [lia | exact H1].
      * exists p1, cs1. split; [lia | exact H1].
  - apply IH1 in H as (p1 & cs1 & Hi1 & H1).
    eexists p1, _. split; [lia | exact H1].
Qed.

(** A pattern that opens with a literal character matches no empty text,
    and nothing at the end of the subject. *)
Definition opens_with_char (r : regex) : Prop :=
  exists cl r1 r2, r = Seq (Seq (Chr cl) r1) r2.

Lemma match_at_not_empty (fl : flags) (r : regex) (p : pos) (m : rmatch) :
  opens_with_char r -> match_at fl r p = Some m -> (m_start m < m_end m)%nat.
Proof.
  intros (cl & r1 & r2 & ->). unfold match_at. simpl.
  destruct (rest p) as [|c s]; [discriminate |].
  destruct (cmatch fl cl c); [| discriminate].
  intros H. apply run_advances in H as (p1 & cs1 & Hi1 & H1).
  apply run_advances in H1 as (p2 & cs2 & Hi2 & H2).
  injection H2 as <-. simpl in *. lia.
Qed.

Lemma match_at_end (fl : flags) (r : regex) (prev : option ascii) (i : nat) :
  opens_with_char r -> match_at fl r (mkpos prev i []) = None.
Proof. intros (cl & r1 & r2 & ->). reflexivity. Qed.

Lemma sub_from_length (fl : flags) (r : regex) (s : text) (skip : nat)
    (prev : option ascii) (i : nat) :
  (length (sub_from fl r skip prev i s) <= length s)%nat.
Proof. apply sublist_length, sub_from_sublist. Qed.

(** Where such a pattern is found, substituting it shortens the text. *)
Lemma sub_from_shrinks (fl : flags) (r : regex) (s : text) :
  opens_with_char r ->
  forall prev i, search_from fl r prev i s <> None ->
                 (length (sub_from fl r 0 prev i s) < length s)%nat.
Proof.
  intros Hr. induction s as [|c s IH]; intros prev i H.
  - simpl in H. rewrite (match_at_end fl r prev i Hr) in H. now destruct H.
  - simpl in *. destruct (match_at fl r (mkpos prev i (c :: s))) as [m|] eqn:E.
    + pose proof (match_at_not_empty fl r _ m Hr E) as Hm.
      destruct (m_end m - m_start m)%nat as [|n] eqn:En; [lia |].
      pose proof (sub_from_length fl r s n (Some c) (S i)). lia.
    + specialize (IH (Some c) (S i) H). simpl. lia.
Qed.

Lemma sub_shrinks (fl : flags) (r : regex) (s : text) :
  opens_with_char r -> search fl r s <> None ->
  (length (sub fl r s) < length s)%nat.
Proof. intros Hr H. now apply sub_from_shrinks. Qed.

Lemma sub_length (fl : flags) (r : regex) (s : text) :
  (length (sub fl r s) <= length s)%nat.
Proof. apply sub_from_length. Qed.

Lemma strip_length (s : text) : (length (strip s) <= length s)%nat.
Proof. apply sublist_length, strip_sublist. Qed.

Lemma patterns_open_with_char (pattern : regex) :
  In pattern patterns_to_remove -> opens_with_char pattern.
Proof.
  intros [<- | [<- | [<- | []]]]; unfold opens_with_char;
    do 3 eexists; reflexivity.
Qed.

(** The result of a call holds no match of any of the three patterns. *)
Definition no_match_left (x : text) : Prop :=
  forall pattern, In pattern patterns_to_remove ->
                  search IGNORECASE_DOTALL pattern x = None.

Lemma second_pass_fixed_iff (y : text) :
  strip y = y ->
  (sanitize_response y = y <-> no_match_left y).
Proof.
  intros Hy. unfold sanitize_response. simpl. split.
  - intros H.
    assert (Hlen : forall a b c, (length (strip (sub IGNORECASE_DOTALL c
                    (sub IGNORECASE_DOTALL b (sub IGNORECASE_DOTALL a y))))
                  <= length (sub IGNORECASE_DOTALL a y))%nat).
    { intros a b c. etransitivity; [apply strip_length |].
      etransitivity; [apply sub_length |]. apply sub_length. }
    destruct (search IGNORECASE_DOTALL sanitize_pattern_1 y) as [m|] eqn:E1.
    { assert (Hs : (length (sub IGNORECASE_DOTALL sanitize_pattern_1 y) < length y)%nat).
      { apply sub_shrinks; [apply patterns_open_with_char; simpl; tauto |].
        rewrite E1. discriminate. }
      pose proof (Hlen sanitize_pattern_1 sanitize_pattern_2 sanitize_pattern_3) as Hl.
      rewrite H in Hl. lia. }
    rewrite (sub_no_match _ _ _ E1) in H.
    destruct (search IGNORECASE_DOTALL sanitize_pattern_2 y) as [m|] eqn:E2.
    { assert (Hs : (length (sub IGNORECASE_DOTALL sanitize_pattern_2 y) < length y)%nat).
      { apply sub_shrinks; [apply patterns_open_with_char; simpl; tauto |].
        rewrite E2. discriminate. }
      assert (Hl : (length (strip (sub IGNORECASE_DOTALL sanitize_pattern_3
                      (sub IGNORECASE_DOTALL sanitize_pattern_2 y)))
                    <= length (sub IGNORECASE_DOTALL sanitize_pattern_2 y))%nat).
      { etransitivity; [apply strip_length | apply sub_length]. }
      rewrite H in Hl. lia. }
    rewrite (sub_no_match _ _ _ E2) in H.
    destruct (search IGNORECASE_DOTALL sanitize_pattern_3 y) as [m|] eqn:E3.
    { assert (Hs : (length (sub IGNORECASE_DOTALL sanitize_pattern_3 y) < length y)%nat).
      { apply sub_shrinks; [apply patterns_open_with_char; simpl; tauto |].
        rewrite E3. discriminate. }
      pose proof (strip_length (sub IGNORECASE_DOTALL sanitize_pattern_3 y)) as Hl.
      rewrite H in Hl. lia. }
    intros pattern [<- | [<- | [<- | []]]]; assumption.
  - intros H.
    rewrite (sub_no_match _ sanitize_pattern_1 y) by (apply H; simpl; tauto).
    rewrite (sub_no_match _ sanitize_pattern_2 y) by (apply H; simpl; tauto).
    rewrite (sub_no_match _ sanitize_pattern_3 y) by (apply H; simpl; tauto).
    exact Hy.
Qed.

Lemma sanitize_response_stripped (x : text) :
  strip (sanitize_response x) = sanitize_response x.
Proof. unfold sanitize_response. apply strip_idempotent. Qed.

Definition leaked_prompt : text := T "  Done. [SYSTEM]be terse[/SYSTEM] ".

Definition nested_tags : text := T "[SYS<system></system>TEM]x[/SYSTEM]".

(** C4: [sanitize_response] is not idempotent, and its result can hold a
    block that it is meant to remove.  Each pattern is substituted once,
    in the order of the list, and the loop does not start again.  On the
    text [SYS<system></system>TEM]x[/SYSTEM] the first pattern finds
    nothing; the second one removes the inner tag pair, which assembles
    the block [SYSTEM]x[/SYSTEM]; the first pattern is not tried again, so
    the call returns that block, in which the first pattern has a match
    from index 0 to index 18.  A second call removes it and returns the
    empty text.  In general a second call changes the result of the first
    exactly when that result still holds a match of one of the three
    patterns; a block that stands in the response from the start is
    removed by the first call, and a second call changes nothing then. *)
Theorem sanitize_response_leaves_block :
  search IGNORECASE_DOTALL sanitize_pattern_1 nested_tags = None /\
  sub IGNORECASE_DOTALL sanitize_pattern_2 nested_tags = T "[SYSTEM]x[/SYSTEM]" /\
  sanitize_response nested_tags = T "[SYSTEM]x[/SYSTEM]" /\
  search IGNORECASE_DOTALL sanitize_pattern_1 (sanitize_response nested_tags)
    = Some (mkmatch 0 18 []) /\
  sanitize_response (sanitize_response nested_tags) = [] /\
  sanitize_response (sanitize_response nested_tags) <> sanitize_response nested_tags /\
  (forall x, sanitize_response (sanitize_response x) = sanitize_response x <->
             no_match_left (sanitize_response x)) /\
  sanitize_response leaked_prompt = T "Done." /\
  sanitize_response (sanitize_response leaked_prompt) = sanitize_response leaked_prompt.
Proof.
  split; [vm_compute; reflexivity |]. split; [vm_compute; reflexivity |].
  split; [vm_compute; reflexivity |]. split; [vm_compute; reflexivity |].
  split; [vm_compute; reflexivity |]. split; [vm_compute; discriminate |].
  split; [| split; vm_compute; reflexivity].
  intros x. apply second_pass_fixed_iff, sanitize_response_stripped.
Qed.

End SanitizerPasses.

(** ** A well-formed system block is removed *)

Module SanitizerBlock.
Import Guardrails TextFacts GuardrailsFacts SanitizerFacts.

(** The character before the position reached after reading [s]. *)
Definition advance (prev : option ascii) (s : text) : option ascii :=
  fold_left (fun _ x => Some x) s prev.

Lemma run_seqs_cons {R : Type} (fl : flags) (r : regex) (l : list regex)
    (p : pos) (cs : caps) (k : @cont R) :
  run fl (seqs (r :: l)) p cs k = run fl r p cs (fun p' cs' => run fl (seqs l) p' cs' k).
Proof. destruct l; reflexivity. Qed.

(** Reading a literal word, case ignored. *)
Lemma run_literal {R : Type} (w o : text) :
  map lower_char o = map lower_char w ->
  forall (after : text) (prev : option ascii) (i : nat) (cs : caps) (k : @cont R),
    run IGNORECASE_DOTALL (seqs (map (fun c => Chr (CLit c)) w))
        (mkpos prev i (o ++ after)) cs k
    = k (mkpos (advance prev o) (i + length o) after) cs.
Proof.
  revert o. induction w as [|c w IH]; intros o Ho after prev i cs k.
  - destruct o; [| discriminate]. simpl. now rewrite Nat.add_0_r.
  - destruct o as [|x o]; [discriminate |]. simpl in Ho. injection Ho as Hx Ho.
    cbn [map]. rewrite run_seqs_cons. cbn [run rest app].
    unfold cmatch, lit_eq. cbn [ignorecase IGNORECASE_DOTALL].
    rewrite Hx. unfold eqc. rewrite Ascii.eqb_refl.
    cbn [idx]. rewrite (IH o Ho). cbn [length advance fold_left].
    now rewrite Nat.add_succ_r.
Qed.

(** Neither a bracket, nor an angle bracket, nor a backquote: no pattern
    of the sanitizer starts at such a character. *)
Definition plain_char (x : ascii) : bool :=
  negb (eqc x "[" || eqc x "<" || eqc x "`").

Definition plain (s : text) : bool := forallb plain_char s.

Lemma plain_char_no_start (x : ascii) :
  plain_char x = true ->
  lit_eq IGNORECASE_DOTALL "[" x = false /\
  lit_eq IGNORECASE_DOTALL "<" x = false /\
  lit_eq IGNORECASE_DOTALL "`" x = false.
Proof.
  revert x.
  assert (H : forall x, implb (plain_char x)
                          (negb (lit_eq IGNORECASE_DOTALL "[" x)
                           && negb (lit_eq IGNORECASE_DOTALL "<" x)
                           && negb (lit_eq IGNORECASE_DOTALL "`" x)) = true)
    by (apply forall_ascii; vm_compute; reflexivity).
  intros x Hx. specialize (H x). rewrite Hx in H. simpl in H.
  apply andb_true_iff in H as [H H3]. apply andb_true_iff in H as [H1 H2].
  apply negb_true_iff in H1. apply negb_true_iff in H2. apply negb_true_iff in H3.
  auto.
Qed.

Lemma no_match_at_plain (pattern : regex) (x : ascii) (s : text)
    (prev : option ascii) (i : nat) :
  In pattern patterns_to_remove -> plain_char x = true ->
  match_at IGNORECASE_DOTALL pattern (mkpos prev i (x :: s)) = None.
Proof.
  intros Hin Hx. destruct (plain_char_no_start x Hx) as (H1 & H2 & H3).
  simpl in Hin. destruct Hin as [<- | [<- | [<- | []]]];
    unfold match_at; cbn [run sanitize_pattern_1 sanitize_pattern_2 sanitize_pattern_3
                          seqs lit T list_ascii_of_string map rest cmatch];
    [rewrite H1 | rewrite H2 | rewrite H3]; reflexivity.
Qed.

(** Plain text is copied as it is. *)
Lemma sub_from_plain (pattern : regex) (a : text) :
  In pattern patterns_to_remove -> plain a = true ->
  forall (after : text) (prev : option ascii) (i : nat),
    sub_from IGNORECASE_DOTALL pattern 0 prev i (a ++ after)
    = a ++ sub_from IGNORECASE_DOTALL pattern 0 (advance prev a) (i + length a) after.
Proof.
  intros Hin. induction a as [|x a IH]; intros Ha after prev i.
  - simpl. now rewrite Nat.add_0_r.
  - simpl in Ha. apply andb_true_iff in Ha as [Hx Ha].
    cbn [app sub_from]. rewrite (no_match_at_plain _ _ _ _ _ Hin Hx).
    rewrite (IH Ha). cbn [length advance fold_left]. now rewrite Nat.add_succ_r.
Qed.

Lemma sub_plain (pattern : regex) (a : text) :
  In pattern patterns_to_remove -> plain a = true ->
  sub IGNORECASE_DOTALL pattern a = a.
Proof.
  intros Hin Ha. unfold sub.
  rewrite <- (app_nil_r a) at 1. rewrite (sub_from_plain _ _ Hin Ha).
  simpl. apply app_nil_r.
Qed.

(** Dropping the characters of a match. *)
Lemma sub_from_skip (pattern : regex) (s : text) :
  forall (after : text) (prev : option ascii) (i : nat),
    sub_from IGNORECASE_DOTALL pattern (length s) prev i (s ++ after)
    = sub_from IGNORECASE_DOTALL pattern 0 (advance prev s) (i + length s) after.
Proof.
  induction s as [|x s IH]; intros after prev i; simpl.
  - rewrite Nat.add_0_r. now destruct after.
  - rewrite IH. now rewrite Nat.add_succ_r.
Qed.

(** The lazy star stops at the first place where what follows it in the pattern
    matches; over plain text that is the end of the text. *)
Lemma star_lazy_plain {R : Type} (body : text) (k : @cont R) :
  plain body = true ->
  (forall x s prev i cs, plain_char x = true -> k (mkpos prev i (x :: s)) cs = None) ->
  forall (after : text) (prev : option ascii) (i : nat) (cs : caps) (r : R),
    k (mkpos (advance prev body) (i + length body) after) cs = Some r ->
    star_lazy IGNORECASE_DOTALL CAny prev i (body ++ after) cs k = Some r.
Proof.
  intros Hb Hk. induction body as [|x body IH]; intros after prev i cs r Hr.
  - simpl in *. rewrite Nat.add_0_r in Hr.
    destruct after; simpl; now rewrite Hr.
  - simpl in Hb. apply andb_true_iff in Hb as [Hx Hb].
    cbn [app star_lazy]. rewrite (Hk x _ prev i cs Hx).
    cbn [cmatch dotall IGNORECASE_DOTALL orb].
    apply (IH Hb). cbn [length advance fold_left] in Hr.
    now rewrite Nat.add_succ_r in Hr.
Qed.

Definition OPEN_TAG : text := T "[SYSTEM]".
Definition CLOSE_TAG : text := T "[/SYSTEM]".

Lemma system_block_match (o body c after : text) (prev : option ascii) (i : nat) :
  map lower_char o = map lower_char OPEN_TAG ->
  map lower_char c = map lower_char CLOSE_TAG ->
  plain body = true ->
  match_at IGNORECASE_DOTALL sanitize_pattern_1 (mkpos prev i (o ++ body ++ c ++ after))
  = Some (mkmatch i (i + length (o ++ body ++ c)) []).
Proof.
  intros Ho Hc Hb. unfold match_at, sanitize_pattern_1.
  rewrite run_seqs_cons. unfold lit at 1. fold OPEN_TAG.
  rewrite (run_literal OPEN_TAG o Ho).
  rewrite run_seqs_cons. cbn [run star_min before idx rest seqs].
  apply star_lazy_plain; [exact Hb | |].
  - intros x s prev' i' cs Hx.
    destruct (plain_char_no_start x Hx) as (H1 & _ & _).
    cbn [run lit T list_ascii_of_string map seqs rest cmatch]. now rewrite H1.
  - unfold lit. fold CLOSE_TAG. rewrite (run_literal CLOSE_TAG c Hc).
    cbn [idx]. rewrite !length_app. do 2 f_equal. lia.
Qed.

(** X5: a block that opens with [SYSTEM] and closes with [/SYSTEM], in any
    mix of upper and lower case, is removed whole, together with its body,
    even across line breaks, when the body and the text around it contain no
    bracket, angle bracket or backquote; what is left is the surrounding
    text, trimmed. *)
Theorem system_block_removed (a o body c b : text) :
  map lower_char o = map lower_char OPEN_TAG ->
  map lower_char c = map lower_char CLOSE_TAG ->
  plain a = true -> plain body = true -> plain b = true ->
  sanitize_response (a ++ o ++ body ++ c ++ b) = strip (a ++ b).
Proof.
  intros Ho Hc Ha Hb Hbb.
  assert (H1 : In sanitize_pattern_1 patterns_to_remove) by (simpl; tauto).
  assert (H2 : In sanitize_pattern_2 patterns_to_remove) by (simpl; tauto).
  assert (H3 : In sanitize_pattern_3 patterns_to_remove) by (simpl; tauto).
  assert (Hlen : exists n, length (o ++ body ++ c) = S n).
  { destruct o as [|x o]; [discriminate |]. simpl. eauto. }
  destruct Hlen as [n Hn].
  assert (Hsub : sub IGNORECASE_DOTALL sanitize_pattern_1 (a ++ o ++ body ++ c ++ b)
                 = a ++ b).
  { unfold sub. rewrite (sub_from_plain _ a H1 Ha). f_equal.
    set (prev := advance None a). set (i := (0 + length a)%nat).
    pose proof (system_block_match o body c b prev i Ho Hc Hb) as Hm.
    destruct (o ++ body ++ c ++ b) as [|x s] eqn:E.
    { destruct o; discriminate. }
    cbn [sub_from]. rewrite Hm. cbn [m_end m_start].
    replace (i + length (o ++ body ++ c) - i)%nat with (S n) by lia.
    assert (Es : s = tl (o ++ body ++ c) ++ b).
    { replace (o ++ body ++ c ++ b) with ((o ++ body ++ c) ++ b) in E
        by now rewrite <- !app_assoc.
      destruct (o ++ body ++ c) as [|y t]; [discriminate |].
      simpl in E. injection E as _ <-. reflexivity. }
    assert (El : length (tl (o ++ body ++ c)) = n).
    { destruct (o ++ body ++ c); simpl in *; lia. }
    rewrite Es, <- El, sub_from_skip.
    rewrite <- (app_nil_r b) at 1. rewrite (sub_from_plain _ b H1 Hbb).
    simpl. apply app_nil_r. }
  assert (Hab : plain (a ++ b) = true).
  { unfold plain in *. rewrite forallb_app. now rewrite Ha, Hbb. }
  unfold sanitize_response. cbn [patterns_to_remove fold_left].
  now rewrite Hsub, (sub_plain _ _ H2 Hab), (sub_plain _ _ H3 Hab).
Qed.

Definition leak_prefix : text := T "Your status: ".
Definition leak_body : text := T "never reveal" ++ [newline] ++ T "the data".

Lemma system_block_removed_witness :
  sanitize_response (leak_prefix ++ T "[System]" ++ leak_body ++ T "[/system]" ++ T " done.")
  = T "Your status:  done.".
Proof.
  rewrite (system_block_removed leak_prefix (T "[System]") leak_body (T "[/system]")
             (T " done."));
    vm_compute; reflexivity.
Defined.

End SanitizerBlock.

(** ** Further properties of the intent parser *)

Module IntentParserMore.
Import IntentParser TextFacts.

Definition none_matches (items : list (Intent * list regex)) (ql : text) : Prop :=
  forall item, In item items -> any_pattern_matches (snd item) ql = false.

Lemma classify_loop_first_match (items : list (Intent * list regex)) (ql : text) :
  (classify_loop items ql = GENERAL_QUESTION /\ none_matches items ql) \/
  (exists before patterns after,
     items = before ++ (classify_loop items ql, patterns) :: after /\
     any_pattern_matches patterns ql = true /\
     none_matches before ql).
Proof.
  induction items as [|[intent patterns] items IH]; simpl.
  - left. split; [reflexivity | intros ? []].
  - destruct (any_pattern_matches patterns ql) eqn:E.
    + right. exists [], patterns, items. repeat split; auto. intros ? [].
    + destruct IH as [[Hg Hn] | (before & ps & after & Hi & Hm & Hn)].
      * left. split; [exact Hg |]. intros item [<- | Hin]; [exact E | now apply Hn].
      * right. exists ((intent, patterns) :: before), ps, after.
        split; [simpl; now f_equal |]. split; [exact Hm |].
        intros item [<- | Hin]; [exact E | now apply Hn].
Qed.

(** X6: [classify_intent] returns the first intent, in the declaration
    order of [INTENT_PATTERNS], one of whose patterns matches the lowercased
    query, and GENERAL_QUESTION exactly when no pattern of any intent
    matches; UNKNOWN is never returned. *)
Theorem classify_intent_first_match (q : text) :
  classify_intent q <> UNKNOWN /\
  (classify_intent q = GENERAL_QUESTION <-> none_matches INTENT_PATTERNS (lower q)) /\
  (classify_intent q <> GENERAL_QUESTION ->
   exists before patterns after,
     INTENT_PATTERNS = before ++ (classify_intent q, patterns) :: after /\
     any_pattern_matches patterns (lower q) = true /\
     none_matches before (lower q)).
Proof.
  unfold classify_intent.
  pose proof (classify_loop_first_match INTENT_PATTERNS (lower q)) as H.
  set (i := classify_loop INTENT_PATTERNS (lower q)) in *.
  assert (Hkey : forall ps before after,
             INTENT_PATTERNS = before ++ (i, ps) :: after ->
             i <> UNKNOWN /\ i <> GENERAL_QUESTION).
  { intros ps before after E.
    assert (Hin : In i (map fst INTENT_PATTERNS)).
    { rewrite E, map_app. apply in_or_app. right. now left. }
    simpl in Hin. clearbody i.
    split; intros ->; repeat (destruct Hin as [Hin | Hin]; [discriminate |]);
      exact Hin. }
  destruct H as [[Hg Hn] | (before & ps & after & Hi & Hm & Hn)].
  - rewrite Hg. split; [discriminate |]. split; [tauto | congruence].
  - destruct (Hkey _ _ _ Hi) as [Hu Hgq].
    split; [exact Hu |]. split.
    + split; [congruence |]. intros Hnone.
      assert (Hin : In (i, ps) INTENT_PATTERNS).
      { rewrite Hi. apply in_or_app. right. now left. }
      apply Hnone in Hin. simpl in Hin. congruence.
    + intros _. now exists before, ps, after.
Qed.

Definition operators : list string := [">="; "<="; "<"; ">"; "=="].

(** X7: when [extract_video_count_filter] finds a filter, the count is not
    negative and the operator is one of [>=], [<=], [<], [>], [==]; the
    operator is [>=] whenever the lowercased query contains "or more" or "at
    least", whatever else it contains, and also when it contains no
    comparison phrase at all. *)
Theorem extract_video_count_filter_shape (q : text) (count : Z) (operator : string) :
  extract_video_count_filter q = Some (count, operator) ->
  (0 <= count)%Z /\
  In operator operators /\
  (has "or more" (lower q) = true \/ has "at least" (lower q) = true ->
   operator = ">=") /\
  (existsb (fun cue => has cue (lower q))
           ["or more"; "at least"; "or less"; "at most"; "less than"; "fewer than";
            "more than"; "exactly"] = false ->
   operator = ">=").
Proof.
  unfold extract_video_count_filter.
  set (ql := lower q).
  destruct (search no_flags count_filter_pattern ql) as [m|]; [| discriminate].
  set (num_str := default [] (group 1 (m_caps m))).
  assert (Hcount : forall c,
             match word_to_num num_str with
             | Some n => Some n
             | None => if forallb is_digit num_str && truthy num_str
                       then Some (Z.of_N (int_of_digits num_str)) else None
             end = Some c -> (0 <= c)%Z).
  { intros c. unfold word_to_num.
    repeat (destruct (streq num_str _); [intros [= <-]; lia |]).
    destruct (forallb is_digit num_str && truthy num_str); [| discriminate].
    intros [= <-]. lia. }
  destruct (match word_to_num num_str with Some n => Some n | None => _ end)
    as [c|] eqn:Ec; [| discriminate].
  specialize (Hcount c eq_refl). clear Ec. simpl existsb.
  destruct (has "or more" ql) eqn:E1; destruct (has "at least" ql) eqn:E2;
    destruct (has "or less" ql) eqn:E3; destruct (has "at most" ql) eqn:E4;
    destruct (has "less than" ql) eqn:E5; destruct (has "fewer than" ql) eqn:E6;
    destruct (has "more than" ql) eqn:E7; destruct (has "exactly" ql) eqn:E8;
    simpl; intros [= <- <-];
    (split; [exact Hcount |]); (split; [simpl; tauto |]);
    (split; [intros [H | H]; (reflexivity || discriminate)
            | intros H; (reflexivity || discriminate)]).
Qed.

Lemma extract_video_count_filter_shape_witness :
  extract_video_count_filter (T "Who watched three or more videos, or less?")
  = Some (3%Z, ">=") /\ (0 <= 3)%Z.
Proof.
  assert (H : extract_video_count_filter (T "Who watched three or more videos, or less?")
              = Some (3%Z, ">=")) by (vm_compute; reflexivity).
  split; [exact H |].
  exact (proj1 (extract_video_count_filter_shape _ _ _ H)).
Defined.

End IntentParserMore.

(** ** Further properties of employee records and the training service *)

Module EmployeeMore.

Lemma filter_split {A : Type} (f : A -> bool) (l : list A) :
  Permutation (List.filter f l ++ List.filter (fun x => negb (f x)) l) l.
Proof.
  induction l as [|x l IH]; simpl; [constructor |].
  destruct (f x); simpl.
  - now constructor.
  - etransitivity; [symmetry; apply Permutation_middle | now constructor].
Qed.

Lemma completed_missing_length (e : Employee) :
  (length (get_completed_videos e) + length (get_missing_videos e) = 4)%nat.
Proof.
  pose proof (filter_split (get_video_completed e) video_range) as HP.
  apply Permutation_length in HP. now rewrite length_app in HP.
Qed.

(** X8: the completed and the missing videos of a record split the four
    videos: together they are a rearrangement of 1, 2, 3, 4, their lengths
    add up to 4, and no video is in both lists. *)
Theorem completed_missing_partition (e : Employee) :
  Permutation (get_completed_videos e ++ get_missing_videos e) video_range /\
  (length (get_completed_videos e) + length (get_missing_videos e) = 4)%nat /\
  (forall i, In i (get_completed_videos e) -> In i (get_missing_videos e) -> False).
Proof.
  pose proof (filter_split (get_video_completed e) video_range) as HP.
  split; [exact HP |]. split.
  - apply Permutation_length in HP. now rewrite length_app in HP.
  - unfold get_completed_videos, get_missing_videos. intros i H1 H2.
    apply filter_In in H1 as [_ H1]. apply filter_In in H2 as [_ H2].
    rewrite H1 in H2. discriminate.
Qed.

Definition no_finish (e : Employee) : Prop :=
  forall i, finish_date e i = None.

(** X9: a record without any finish timestamp has total time 0, whatever
    start timestamps it holds, and completion percentage 0: a video that
    was started but not finished counts for no time. *)
Theorem unfinished_counts_nothing (e : Employee) :
  no_finish e ->
  total_time e = 0%Q /\ completion_percentage e = 0%Q /\
  get_completed_videos e = [] /\ get_training_status e = "NOT_STARTED".
Proof.
  intros H.
  pose proof (H 1%nat) as H1. pose proof (H 2%nat) as H2.
  pose proof (H 3%nat) as H3. pose proof (H 4%nat) as H4.
  clear H. destruct e as [id name last division s1 f1 s2 f2 s3 f3 s4 f4].
  simpl in H1, H2, H3, H4. subst f1 f2 f3 f4.
  unfold total_time, completion_percentage, get_training_status,
    get_completed_videos, get_video_completed, get_video_duration.
  repeat split; try reflexivity.
  destruct s1, s2, s3, s4; reflexivity.
Qed.

Definition started_only : Employee :=
  {| EMPLOYEE_ID := "000000002"; EMPLOYEE_NAME := "Noa"; EMPLOYEE_LAST_NAME := "Katz";
     EMPLOYEE_DIVISION := "Legal";
     START_FIRST_VIDEO_DATE := Some 1000000%Z; FINISH_FIRST_VIDEO_DATE := None;
     START_SECOND_VIDEO_DATE := Some 5000000%Z; FINISH_SECOND_VIDEO_DATE := None;
     START_THIRD_VIDEO_DATE := None; FINISH_THIRD_VIDEO_DATE := None;
     START_FOURTH_VIDEO_DATE := None; FINISH_FOURTH_VIDEO_DATE := None |}.

Lemma unfinished_counts_nothing_witness :
  total_time started_only = 0%Q /\ get_training_status started_only = "NOT_STARTED".
Proof.
  assert (H : no_finish started_only)
    by (intros [|[|[|[|[|i]]]]]; reflexivity).
  destruct (unfinished_counts_nothing started_only H) as (Ht & _ & _ & Hs).
  split; [exact Ht | exact Hs].
Defined.

Import TrainingService.

(** X10: [completed_at] is set only for a record whose status is FINISHED;
    it is then one of the four finish timestamps and none of them is
    later.  [started_at] is the earliest of the start timestamps that are
    set, and null exactly when none is set. *)
Theorem completed_at_started_at (e : Employee) :
  (forall d, completed_at e = Some d ->
     get_training_status e = "FINISHED" /\
     (exists i, In i video_range /\ finish_date e i = Some d) /\
     (forall i f, finish_date e i = Some f -> (f <= d)%Z)) /\
  (get_training_status e = "FINISHED" -> completed_at e <> None) /\
  (forall d, started_at e = Some d ->
     (exists i, In i video_range /\ start_date e i = Some d) /\
     (forall i s, start_date e i = Some s -> (d <= s)%Z)) /\
  (started_at e = None <-> forall i, start_date e i = None).
Proof.
  destruct e as [id name last division s1 f1 s2 f2 s3 f3 s4 f4].
  unfold completed_at, started_at, get_training_status, get_completed_videos,
    get_video_completed, valid_dates.
  split; [| split; [| split]].
  - intros d. simpl.
    destruct f1 as [f1|], f2 as [f2|], f3 as [f3|], f4 as [f4|];
      simpl; try discriminate.
    intros [= <-]. split; [reflexivity |]. split.
    + destruct (Z.max_spec (Z.max (Z.max f1 f2) f3) f4) as [[_ ->] | [_ ->]];
        [exists 4%nat; simpl; tauto |].
      destruct (Z.max_spec (Z.max f1 f2) f3) as [[_ ->] | [_ ->]];
        [exists 3%nat; simpl; tauto |].
      destruct (Z.max_spec f1 f2) as [[_ ->] | [_ ->]];
        [exists 2%nat | exists 1%nat]; simpl; tauto.
    + intros [|[|[|[|[|i]]]]] f Hi; simpl in Hi; try discriminate;
        injection Hi as <-; lia.
  - simpl. destruct f1, f2, f3, f4; simpl; intros H; discriminate.
  - intros d. simpl.
    destruct s1 as [s1|], s2 as [s2|], s3 as [s3|], s4 as [s4|];
      simpl; try discriminate; intros [= <-];
      (split;
       [ repeat match goal with
                | |- context [Z.min ?a ?b] =>
                    destruct (Z.min_spec a b) as [[_ ->] | [_ ->]]
                end;
         first [ exists 1%nat; simpl; split; [tauto | reflexivity]
               | exists 2%nat; simpl; split; [tauto | reflexivity]
               | exists 3%nat; simpl; split; [tauto | reflexivity]
               | exists 4%nat; simpl; split; [tauto | reflexivity] ]
       | intros [|[|[|[|[|i]]]]] s Hi; simpl in Hi; try discriminate;
         injection Hi as <-; lia ]).
  - simpl. split.
    + destruct s1, s2, s3, s4; simpl; try discriminate.
      intros _ [|[|[|[|[|i]]]]]; reflexivity.
    + intros H.
      pose proof (H 1%nat) as H1. pose proof (H 2%nat) as H2.
      pose proof (H 3%nat) as H3. pose proof (H 4%nat) as H4.
      simpl in H1, H2, H3, H4. subst. reflexivity.
Qed.

End EmployeeMore.

Module TrainingServiceMore.
Import TrainingService Credentials.

Definition statuses : list string := ["NOT_STARTED"; "IN_PROGRESS"; "FINISHED"].

Lemma get_training_status_cases (e : Employee) :
  In (get_training_status e) statuses.
Proof.
  unfold get_training_status.
  destruct (length (get_completed_videos e) =? 0)%nat; [simpl; tauto |].
  destruct (length (get_completed_videos e) =? 4)%nat; simpl; tauto.
Qed.

Lemma with_status_partition (db : list Employee) :
  (length (with_status "NOT_STARTED" db) + length (with_status "IN_PROGRESS" db)
   + length (with_status "FINISHED" db) = length db)%nat.
Proof.
  unfold with_status. induction db as [|e db IH]; simpl; [reflexivity |].
  pose proof (get_training_status_cases e) as H. simpl in H.
  destruct H as [<- | [<- | [<- | []]]]; simpl; lia.
Qed.

Lemma with_status_other (status : string) (db : list Employee) :
  ~ In status statuses -> with_status status db = [].
Proof.
  intros Hs. unfold with_status. induction db as [|e db IH]; simpl; [reflexivity |].
  destruct (String.eqb_spec (get_training_status e) status) as [E | _]; [| exact IH].
  exfalso. apply Hs. rewrite <- E. apply get_training_status_cases.
Qed.

(** X11: every record falls in exactly one of the three statuses: the
    numbers of NOT_STARTED, IN_PROGRESS and FINISHED records add up to the
    number of records, and so do the three counts of the global summary;
    [get_employees_by_status] returns one row per record of the status asked
    for, each carrying that status, and no row at all for any other status
    name. *)
Theorem status_cohorts_partition (db : list Employee) :
  (length (with_status "NOT_STARTED" db) + length (with_status "IN_PROGRESS" db)
   + length (with_status "FINISHED" db) = length db)%nat /\
  (forall s, get_global_summary db = Ok s ->
     (not_started_count s + in_progress_count s + finished_employees_count s
      = total_employees s)%nat) /\
  (forall status,
     length (get_employees_by_status db status) = length (with_status status db) /\
     (forall row, In row (get_employees_by_status db status) -> sr_status row = status)) /\
  (forall status, ~ In status statuses -> get_employees_by_status db status = []).
Proof.
  pose proof (with_status_partition db) as HP.
  split; [exact HP |]. split; [| split].
  - intros s. unfold get_global_summary.
    destruct db as [|e db]; [intros [= <-]; reflexivity |].
    destruct (with_status "FINISHED" (e :: db)) as [|f fs] eqn:Ef.
    + intros [= <-]. cbn [not_started_count in_progress_count
                          finished_employees_count total_employees].
      simpl length in HP. lia.
    + cbn [map max_by min_by div length bind].
      intros [= <-]. cbn [not_started_count in_progress_count
                          finished_employees_count total_employees].
      simpl length in HP. simpl length. lia.
  - intros status. unfold get_employees_by_status. fold (with_status status db).
    split; [apply length_map |].
    intros row Hin. apply in_map_iff in Hin as (e & <- & _). reflexivity.
  - intros status Hs. unfold get_employees_by_status. fold (with_status status db).
    now rewrite (with_status_other status db Hs).
Qed.

Definition less (key : Employee -> Q) (best y : Employee) : Employee :=
  if Qlt_le_dec (key y) (key best) then y else best.

Definition more (key : Employee -> Q) (best y : Employee) : Employee :=
  if Qlt_le_dec (key best) (key y) then y else best.

Lemma fold_less_least (key : Employee -> Q) (l : list Employee) :
  forall x0, let r := fold_left (less key) l x0 in
    In r (x0 :: l) /\ forall y, In y (x0 :: l) -> (key r <= key y)%Q.
Proof.
  induction l as [|y l IH]; intros x0; simpl.
  - split; [now left |]. intros z [<- | []]. apply Qle_refl.
  - destruct (IH (less key x0 y)) as [Hin Hle]. split.
    + destruct Hin as [Hin | Hin]; [| now right; right].
      rewrite <- Hin. unfold less. destruct (Qlt_le_dec _ _); [right |]; now left.
    + assert (H0 : (key (less key x0 y) <= key x0)%Q /\ (key (less key x0 y) <= key y)%Q).
      { unfold less. destruct (Qlt_le_dec (key y) (key x0)) as [Hlt | Hge].
        - split; [now apply Qlt_le_weak | apply Qle_refl].
        - split; [apply Qle_refl | exact Hge]. }
      pose proof (Hle _ (or_introl eq_refl)) as Hr.
      intros z [<- | [<- | Hz]].
      * eapply Qle_trans; [exact Hr | apply H0].
      * eapply Qle_trans; [exact Hr | apply H0].
      * apply Hle. now right.
Qed.

Lemma fold_more_greatest (key : Employee -> Q) (l : list Employee) :
  forall x0, let r := fold_left (more key) l x0 in
    In r (x0 :: l) /\ forall y, In y (x0 :: l) -> (key y <= key r)%Q.
Proof.
  induction l as [|y l IH]; intros x0; simpl.
  - split; [now left |]. intros z [<- | []]. apply Qle_refl.
  - destruct (IH (more key x0 y)) as [Hin Hle]. split.
    + destruct Hin as [Hin | Hin]; [| now right; right].
      rewrite <- Hin. unfold more. destruct (Qlt_le_dec _ _); [right |]; now left.
    + assert (H0 : (key x0 <= key (more key x0 y))%Q /\ (key y <= key (more key x0 y))%Q).
      { unfold more. destruct (Qlt_le_dec (key x0) (key y)) as [Hlt | Hge].
        - split; [now apply Qlt_le_weak | apply Qle_refl].
        - split; [apply Qle_refl | exact Hge]. }
      pose proof (Hle _ (or_introl eq_refl)) as Hr.
      intros z [<- | [<- | Hz]].
      * eapply Qle_trans; [apply H0 | exact Hr].
      * eapply Qle_trans; [apply H0 | exact Hr].
      * apply Hle. now right.
Qed.

(** The least of the times is the time of the first fastest record. *)
Lemma fold_less_map (key : Employee -> Q) (l : list Employee) :
  forall x0,
    fold_left (fun best y => if Qlt_le_dec y best then y else best) (map key l) (key x0)
    = key (fold_left (less key) l x0).
Proof.
  induction l as [|y l IH]; intros x0; simpl; [reflexivity |].
  rewrite <- IH. f_equal. unfold less. now destruct (Qlt_le_dec (key y) (key x0)).
Qed.

Lemma fold_more_map (key : Employee -> Q) (l : list Employee) :
  forall x0,
    fold_left (fun best y => if Qlt_le_dec best y then y else best) (map key l) (key x0)
    = key (fold_left (more key) l x0).
Proof.
  induction l as [|y l IH]; intros x0; simpl; [reflexivity |].
  rewrite <- IH. f_equal. unfold more. now destruct (Qlt_le_dec (key x0) (key y)).
Qed.

(** X12: when some record is FINISHED, the fastest and the slowest
    employee of the global summary are FINISHED records of the store, no
    FINISHED record has a smaller total time than the fastest or a greater
    one than the slowest, and the minimum and maximum times reported are
    exactly their total times. *)
Theorem fastest_slowest_extremal (db : list Employee) (s : global_summary) :
  get_global_summary db = Ok s ->
  with_status "FINISHED" db <> [] ->
  exists fast slow,
    In fast (with_status "FINISHED" db) /\ In slow (with_status "FINISHED" db) /\
    fastest_employee s = Some (employee_time_of fast) /\
    slowest_employee s = Some (employee_time_of slow) /\
    min_time_minutes s = total_time fast /\
    max_time_minutes s = total_time slow /\
    forall e, In e (with_status "FINISHED" db) ->
              (total_time fast <= total_time e <= total_time slow)%Q.
Proof.
  unfold get_global_summary. intros Hs Hne.
  destruct db as [|e0 db]; [now destruct Hne |].
  destruct (with_status "FINISHED" (e0 :: db)) as [|f fs]; [now destruct Hne |].
  clear Hne. cbn [map max_by min_by div length bind] in Hs.
  fold (less total_time) (more total_time) in Hs.
  rewrite (fold_less_map total_time fs f), (fold_more_map total_time fs f) in Hs.
  injection Hs as <-.
  destruct (fold_less_least total_time fs f) as [Hin1 Hle1].
  destruct (fold_more_greatest total_time fs f) as [Hin2 Hle2].
  exists (fold_left (less total_time) fs f), (fold_left (more total_time) fs f).
  cbn [fastest_employee slowest_employee min_time_minutes max_time_minutes].
  repeat split; auto.
Qed.

(** A record that watched every video, each in [minutes] minutes. *)
Definition finisher (id name : string) (minutes : Z) : Employee :=
  let finish := Some (minutes * 60000000)%Z in
  {| EMPLOYEE_ID := id; EMPLOYEE_NAME := name; EMPLOYEE_LAST_NAME := "Cohen";
     EMPLOYEE_DIVISION := "IT";
     START_FIRST_VIDEO_DATE := Some 0%Z; FINISH_FIRST_VIDEO_DATE := finish;
     START_SECOND_VIDEO_DATE := Some 0%Z; FINISH_SECOND_VIDEO_DATE := finish;
     START_THIRD_VIDEO_DATE := Some 0%Z; FINISH_THIRD_VIDEO_DATE := finish;
     START_FOURTH_VIDEO_DATE := Some 0%Z; FINISH_FOURTH_VIDEO_DATE := finish |}.

Definition sample_db : list Employee :=
  [ finisher "000000010" "Avi" 12; EmployeeMore.started_only;
    finisher "000000011" "Gil" 7; finisher "000000012" "Tal" 30 ].

Lemma fastest_slowest_extremal_witness :
  exists s, get_global_summary sample_db = Ok s /\
    option_map et_name (fastest_employee s) = Some "Gil Cohen" /\
    exists fast slow,
      fastest_employee s = Some (employee_time_of fast) /\
      slowest_employee s = Some (employee_time_of slow) /\
      (total_time fast <= total_time slow)%Q.
Proof.
  eexists. split; [vm_compute; reflexivity |]. split; [reflexivity |].
  destruct (fastest_slowest_extremal sample_db _ eq_refl)
    as (fast & slow & Hf & _ & Hfast & Hslow & _ & _ & Hle).
  - vm_compute. discriminate.
  - exists fast, slow. repeat split; auto. apply (Hle fast Hf).
Defined.

Definition satisfies (operator : string) (completed_count : nat) (count : Z) : Prop :=
  let c := Z.of_nat completed_count in
  (operator = ">=" /\ (count <= c)%Z) \/ (operator = "<=" /\ (c <= count)%Z) \/
  (operator = "==" /\ c = count) \/ (operator = ">" /\ (count < c)%Z) \/
  (operator = "<" /\ (c < count)%Z).

Lemma count_matches_satisfies (operator : string) (c : nat) (count : Z) :
  count_matches operator c count = true <-> satisfies operator c count.
Proof.
  unfold count_matches, satisfies.
  rewrite !orb_true_iff, !andb_true_iff, !String.eqb_eq,
    !Z.leb_le, !Z.ltb_lt, Z.eqb_eq. tauto.
Qed.

Lemma completed_at_most_four (e : Employee) : (length (get_completed_videos e) <= 4)%nat.
Proof.
  pose proof (EmployeeMore.completed_missing_length e). lia.
Qed.

(** X13: each row of [get_employees_by_video_count] is a record whose
    number of completed videos, at most 4, stands in the relation asked for
    to the count; an operator other than [>=], [<=], [==], [>], [<] gives no
    row; [>=] with a count of 0 or less gives one row per record, and with a
    count above 4 no row. *)
Theorem video_count_cohort (db : list Employee) (count : Z) (operator : string) :
  (forall row, In row (get_employees_by_video_count db count operator) ->
     (cr_completed_videos_count row <= 4)%nat /\
     satisfies operator (cr_completed_videos_count row) count /\
     exists emp, In emp db /\ cr_employee_id row = EMPLOYEE_ID emp /\
                 cr_completed_videos_count row = length (get_completed_videos emp)) /\
  (~ In operator IntentParserMore.operators ->
   get_employees_by_video_count db count operator = []) /\
  ((count <= 0)%Z ->
   length (get_employees_by_video_count db count ">=") = length db) /\
  ((4 < count)%Z -> get_employees_by_video_count db count ">=" = []).
Proof.
  unfold get_employees_by_video_count. split; [| split; [| split]].
  - intros row Hin. apply in_map_iff in Hin as (emp & <- & Hin).
    apply filter_In in Hin as [Hin Hm]. cbn [cr_completed_videos_count cr_employee_id].
    split; [apply completed_at_most_four |].
    split; [now apply count_matches_satisfies | now exists emp].
  - intros Hop.
    replace (List.filter _ db) with (@nil Employee); [reflexivity |].
    symmetry. induction db as [|e db IH]; simpl; [reflexivity |].
    destruct (count_matches operator _ count) eqn:E; [exfalso | exact IH].
    apply count_matches_satisfies in E. apply Hop. unfold satisfies in E. simpl.
    destruct E as [[-> _] | [[-> _] | [[-> _] | [[-> _] | [-> _]]]]]; tauto.
  - intros Hc. rewrite length_map. f_equal.
    induction db as [|e db IH]; simpl; [reflexivity |].
    replace (count_matches ">=" _ count) with true; [now f_equal |].
    symmetry. apply count_matches_satisfies. left. split; [reflexivity | lia].
  - intros Hc.
    replace (List.filter _ db) with (@nil Employee); [reflexivity |].
    symmetry. induction db as [|e db IH]; simpl; [reflexivity |].
    destruct (count_matches ">=" _ count) eqn:E; [exfalso | exact IH].
    apply count_matches_satisfies in E. pose proof (completed_at_most_four e).
    destruct E as [[_ H1] | [[H1 _] | [[H1 _] | [[H1 _] | [H1 _]]]]];
      (discriminate || lia).
Qed.

Lemma string_length_app (a b : string) :
  String.length (a ++ b) = (String.length a + String.length b)%nat.
Proof. induction a as [|c a IH]; simpl; [reflexivity | now rewrite IH]. Qed.

Lemma string_length_of_list (l : list ascii) :
  String.length (string_of_list_ascii l) = length l.
Proof. induction l as [|c l IH]; simpl; [reflexivity | now rewrite IH]. Qed.

Lemma zfill_length (width : nat) (s : string) :
  String.length (zfill width s) = Nat.max width (String.length s).
Proof.
  unfold zfill. destruct s as [|c s].
  - simpl. rewrite string_length_of_list, repeat_length. lia.
  - destruct (eqc c "+" || eqc c "-"); simpl;
      rewrite string_length_app, string_length_of_list, repeat_length; simpl; lia.
Qed.

(** X14: [get_employee_by_id] pads the decimal form of the ID with zeros
    to at least 9 characters before comparing: the record it returns is in
    the store and its stored ID is that padded text, so a record whose
    stored ID has fewer than 9 characters is never found by ID; looking up
    without an ID (the lookup of an expired session's employee) searches
    for the text "00000None". *)
Theorem get_employee_by_id_padded (db : list Employee) (employee_id : option Z)
    (e : Employee) :
  get_employee_by_id db employee_id = Some e ->
  In e db /\
  EMPLOYEE_ID e = zfill 9 (py_str employee_id) /\
  (9 <= String.length (EMPLOYEE_ID e))%nat /\
  zfill 9 (py_str None) = "00000None" /\
  zfill 9 (py_str (Some (-42)%Z)) = "-00000042".
Proof.
  unfold get_employee_by_id. intros H.
  apply find_some in H as [Hin Heq]. apply String.eqb_eq in Heq.
  split; [exact Hin |]. split; [exact Heq |]. split; [| split; reflexivity].
  rewrite Heq, zfill_length. lia.
Qed.

Lemma get_employee_by_id_padded_witness :
  get_employee_by_id sample_db (Some 11%Z) = Some (finisher "000000011" "Gil" 7) /\
  In (finisher "000000011" "Gil" 7) sample_db.
Proof.
  assert (H : get_employee_by_id sample_db (Some 11%Z)
              = Some (finisher "000000011" "Gil" 7)) by (vm_compute; reflexivity).
  split; [exact H |].
  exact (proj1 (get_employee_by_id_padded _ _ _ H)).
Defined.

Lemma lower_char_idempotent (c : ascii) : lower_char (lower_char c) = lower_char c.
Proof.
  revert c.
  assert (H : forall c, eqc (lower_char (lower_char c)) (lower_char c) = true)
    by (apply TextFacts.forall_ascii; vm_compute; reflexivity).
  intros c. now apply TextFacts.eqc_eq.
Qed.

Lemma slower_idempotent (s : string) : slower (slower s) = slower s.
Proof.
  unfold slower, T. rewrite list_ascii_of_string_of_list_ascii.
  f_equal. unfold lower. rewrite map_map.
  apply map_ext. apply lower_char_idempotent.
Qed.

Lemma verify_success_record (db : list Employee) (employee_id : Z) (name : string)
    (employee : option Employee) :
  verify_employee_credentials db employee_id name = (true, employee) ->
  exists e, employee = Some e.
Proof.
  unfold verify_employee_credentials.
  destruct (get_employee_by_id db (Some employee_id)) as [emp|]; [| discriminate].
  destruct (_ || _); [| discriminate]. intros [= <-]. eauto.
Qed.

(** X15: [verify_employee_credentials] succeeds only with the record found
    under the ID, and only when the name given equals its first name or its
    full name once both are lowercased; a failure carries no record; and
    the answer does not depend on the case of the name given. *)
Theorem verify_employee_credentials_sound (db : list Employee) (employee_id : Z)
    (name : string) :
  (forall e, verify_employee_credentials db employee_id name = (true, Some e) ->
     get_employee_by_id db (Some employee_id) = Some e /\
     (slower (EMPLOYEE_NAME e) = slower name \/ slower (full_name e) = slower name)) /\
  (fst (verify_employee_credentials db employee_id name) = false ->
   verify_employee_credentials db employee_id name = (false, None)) /\
  (fst (verify_employee_credentials db employee_id name) = true ->
   exists e, verify_employee_credentials db employee_id name = (true, Some e)) /\
  verify_employee_credentials db employee_id (slower name)
  = verify_employee_credentials db employee_id name.
Proof.
  unfold verify_employee_credentials. rewrite slower_idempotent.
  destruct (get_employee_by_id db (Some employee_id)) as [emp|].
  - destruct (String.eqb (slower (EMPLOYEE_NAME emp)) (slower name)
              || String.eqb (slower (full_name emp)) (slower name)) eqn:Eb; simpl.
    + split; [| split; [discriminate | split; [eauto | reflexivity]]].
      intros e [= <-]. split; [reflexivity |].
      apply orb_true_iff in Eb as [H | H]; apply String.eqb_eq in H; auto.
    + split; [discriminate |]. split; [reflexivity |].
      split; [discriminate | reflexivity].
  - simpl. split; [discriminate |]. split; [reflexivity |].
    split; [discriminate | reflexivity].
Qed.

(** X16: the status projection of a record found by ID is consistent: its
    status, percentage, completed and missing lists are those of the
    record, the two counts are the lengths of the lists and add up to 4, the
    four video entries are numbered 1 to 4 in order and flag as completed
    exactly the videos of the completed list, and the completion date is
    present only with status FINISHED.  An ID that is not found gives the
    error dictionary instead. *)
Theorem get_employee_status_consistent (db : list Employee) (employee_id : option Z) :
  (get_employee_by_id db employee_id = None ->
   get_employee_status db employee_id = None) /\
  (forall st, get_employee_status db employee_id = Some st ->
     exists e, get_employee_by_id db employee_id = Some e /\
       es_employee_id st = EMPLOYEE_ID e /\
       es_status st = get_training_status e /\
       es_completion_percentage st = completion_percentage e /\
       es_completed_videos st = get_completed_videos e /\
       es_missing_videos st = get_missing_videos e /\
       es_completed_videos_count st = length (es_completed_videos st) /\
       es_missing_videos_count st = length (es_missing_videos st) /\
       (es_completed_videos_count st + es_missing_videos_count st = 4)%nat /\
       map video_number (es_video_details st) = [1; 2; 3; 4]%nat /\
       (forall v, In v (es_video_details st) ->
          (completed v = true <-> In (video_number v) (es_completed_videos st))) /\
       (es_completed_at st <> None -> es_status st = "FINISHED")).
Proof.
  unfold get_employee_status.
  destruct (get_employee_by_id db employee_id) as [e|]; split; try discriminate;
    try reflexivity.
  intros st [= <-]. exists e.
  cbn [es_employee_id es_status es_completion_percentage es_completed_videos
       es_missing_videos es_completed_videos_count es_missing_videos_count
       es_video_details es_completed_at].
  pose proof (EmployeeMore.completed_missing_length e) as Hlen.
  repeat split; auto.
  - intros Hv. unfold video_details_of in H. apply in_map_iff in H as (i & <- & Hi).
    cbn [completed video_number] in *. unfold get_completed_videos.
    apply filter_In. now split.
  - intros Hv. unfold video_details_of in H. apply in_map_iff in H as (i & <- & Hi).
    cbn [completed video_number] in *. unfold get_completed_videos in Hv.
    now apply filter_In in Hv.
  - unfold completed_at.
    destruct (String.eqb_spec (get_training_status e) "FINISHED"); [auto | congruence].
Qed.

End TrainingServiceMore.

(** ** The session store *)

Module SessionStoreFacts.
Import TrainingAgent SessionStore.

(** The sessions other than [sid] are the same in both worlds. *)
Definition elsewhere (sid : string) (w w' : world) : Prop :=
  forall sid', sid' <> sid -> sessions w' !! sid' = sessions w !! sid'.

Lemma elsewhere_refl (sid : string) (w : world) : elsewhere sid w w.
Proof. intros sid' _. reflexivity. Qed.

Lemma elsewhere_trans (sid : string) (w1 w2 w3 : world) :
  elsewhere sid w1 w2 -> elsewhere sid w2 w3 -> elsewhere sid w1 w3.
Proof. intros H12 H23 sid' Hne. now rewrite (H23 sid' Hne), (H12 sid' Hne). Qed.

Section Store.
Variable session_timeout_minutes : Z.
Variable utcnow : nat -> datetime.
Variable class_defined_at : datetime.

Let get := SessionStore.get_session session_timeout_minutes utcnow.
Let update := SessionStore.update_session session_timeout_minutes utcnow.
Let expired := Session.is_expired session_timeout_minutes.

(** The store operation and the one the agent uses are the same function. *)
Lemma agent_get_session (sid : string) (w : world) :
  TrainingAgent.get_session session_timeout_minutes utcnow sid w
  = (inl (fst (get sid w)), snd (get sid w)).
Proof.
  unfold get, TrainingAgent.get_session, SessionStore.get_session.
  destruct (sessions w !! sid) as [s|]; [| reflexivity].
  now destruct (Session.is_expired _ _ s).
Qed.

Lemma get_session_entry (sid : string) (w : world) :
  let r := fst (get sid w) in
  let w' := snd (get sid w) in
  elsewhere sid w w' /\ trace w' = trace w /\
  sessions w' !! sid = r /\
  (r = None \/ (r = sessions w !! sid /\ sessions w' = sessions w)) /\
  (forall s, sessions w !! sid = Some s ->
     r = if expired (utcnow (clock_reads w)) s then None else Some s).
Proof.
  unfold get, SessionStore.get_session, elsewhere.
  destruct (sessions w !! sid) as [s|] eqn:E.
  - destruct (Session.is_expired _ _ s) eqn:Ex; simpl.
    + repeat split; auto.
      * intros sid' Hne. now apply lookup_delete_ne.
      * apply lookup_delete_eq.
      * intros s' [= <-]. unfold expired. now rewrite Ex.
    + repeat split; auto.
      intros s' [= <-]. unfold expired. now rewrite Ex.
  - simpl. repeat split; auto. discriminate.
Qed.

Lemma update_session_entry (sid : string) (kw : kwargs) (w : world) :
  let r := fst (update sid kw w) in
  let w' := snd (update sid kw w) in
  elsewhere sid w w' /\ trace w' = trace w /\
  sessions w' !! sid = r /\
  (r = None \/
   exists s, sessions w !! sid = Some s /\
             expired (utcnow (clock_reads w)) s = false /\
             r = Some (update_activity (utcnow (S (clock_reads w))) (setattrs kw s))).
Proof.
  unfold update, SessionStore.update_session.
  destruct (get_session_entry sid w) as (He & Ht & Hl & Hr & Hx).
  fold get. destruct (get sid w) as [[s|] w1] eqn:E; simpl in *.
  - destruct Hr as [Hr | [Hr Hs]]; [discriminate |].
    specialize (Hx s (eq_sym Hr)).
    destruct (expired (utcnow (clock_reads w)) s) eqn:Ex; [discriminate |].
    assert (Hw1 : w1 = tick w).
    { unfold get, SessionStore.get_session in E. rewrite <- Hr in E.
      fold expired in E. rewrite Ex in E. now injection E as <-. }
    subst w1. unfold tick, with_sessions. simpl.
    repeat split; auto.
    + intros sid' Hne. simpl. now rewrite lookup_insert_ne by congruence.
    + apply lookup_insert_eq.
    + right. exists s. repeat split; auto.
  - repeat split; auto.
Qed.

(** X17: a session is created with the time at which the class body was
    executed as its last activity, not the time of creation.  Looking it up
    right after [create_session] therefore returns it, unauthenticated and
    not privileged, only while the clock is within the timeout of that
    time; later the new session is evicted by its first lookup. *)
Theorem created_session_lookup (sid : string) (w : world) :
  let w1 := snd (create_session class_defined_at sid w) in
  let stale :=
    (Session.minutes session_timeout_minutes <? utcnow (clock_reads w) - class_defined_at)%Z in
  fst (get sid w1) = (if stale then None else Some (new_session class_defined_at sid)) /\
  sessions (snd (get sid w1)) !! sid =
    (if stale then None else Some (new_session class_defined_at sid)) /\
  Session.is_authenticated (new_session class_defined_at sid) = false /\
  Session.is_ciso (new_session class_defined_at sid) = false /\
  elsewhere sid w (snd (get sid w1)).
Proof.
  intros w1 stale.
  destruct (get_session_entry sid w1) as (He & _ & Hl & _ & Hx).
  assert (E : sessions w1 !! sid = Some (new_session class_defined_at sid))
    by apply lookup_insert_eq.
  specialize (Hx _ E).
  assert (Hs : expired (utcnow (clock_reads w1)) (new_session class_defined_at sid) = stale)
    by reflexivity.
  rewrite Hs in Hx. rewrite Hl. repeat split; auto.
  intros sid' Hne. rewrite (He sid' Hne). now apply lookup_insert_ne.
Qed.

(** X18: after [delete_session] (what [logout] does) a lookup of the
    session finds nothing and changes nothing, the other sessions are as
    they were, and deleting a session that does not exist leaves the store
    as it is. *)
Theorem deleted_session_lookup (sid : string) (w : world) :
  let w1 := snd (delete_session sid w) in
  get sid w1 = (None, w1) /\
  elsewhere sid w w1 /\
  (sessions w !! sid = None -> sessions w1 = sessions w).
Proof.
  intros w1. unfold get, SessionStore.get_session.
  assert (E : sessions w1 !! sid = None) by apply lookup_delete_eq.
  rewrite E. repeat split.
  - intros sid' Hne. now apply lookup_delete_ne.
  - intros Hn. now apply delete_id.
Qed.

(** X19: [update_session] on a session that is missing or has expired
    returns nothing and stores nothing under that identifier.  Otherwise the
    stored session gets exactly the attributes passed, keeps its
    identifier, its creation time and the attributes not passed, and its
    last activity becomes the next reading of the clock.  No other session
    is touched. *)
Theorem update_session_effect (sid : string) (kw : kwargs) (w : world) :
  let r := fst (update sid kw w) in
  let w' := snd (update sid kw w) in
  elsewhere sid w w' /\
  sessions w' !! sid = r /\
  (sessions w !! sid = None -> r = None) /\
  (forall s, sessions w !! sid = Some s ->
     expired (utcnow (clock_reads w)) s = true -> r = None) /\
  (forall s', r = Some s' ->
     exists s, sessions w !! sid = Some s /\
       Session.session_id s' = Session.session_id s /\
       Session.created_at s' = Session.created_at s /\
       Session.last_activity s' = utcnow (S (clock_reads w)) /\
       Session.employee_id s' = default (Session.employee_id s) (kw_employee_id kw) /\
       Session.employee_name s' = default (Session.employee_name s) (kw_employee_name kw) /\
       Session.is_ciso s' = default (Session.is_ciso s) (kw_is_ciso kw)).
Proof.
  intros r w'.
  destruct (update_session_entry sid kw w) as (He & _ & Hl & Hr).
  fold r w' in He, Hl, Hr.
  split; [exact He |]. split; [exact Hl |]. split; [| split].
  - intros Hn. destruct Hr as [Hr | (s & Hs & _)]; [exact Hr | congruence].
  - intros s Hs Hx. destruct Hr as [Hr | (s0 & Hs0 & Hx0 & _)]; [exact Hr |].
    congruence.
  - intros s' Hs'. destruct Hr as [Hr | (s & Hs & _ & Hr)]; [congruence |].
    exists s. split; [exact Hs |].
    rewrite Hr in Hs'. injection Hs' as <-. repeat split.
Qed.

End Store.

End SessionStoreFacts.

(** ** The authentication service *)

Module AuthServiceFacts.
Import TrainingService TrainingAgent SessionStore Credentials AuthService
       SessionStoreFacts.

Section Auth.
Variable session_timeout_minutes : Z.
Variable utcnow : nat -> datetime.
Variable class_defined_at : datetime.
Variable db : list Employee.

Let get := SessionStore.get_session session_timeout_minutes utcnow.
Let update := SessionStore.update_session session_timeout_minutes utcnow.
Let authenticate :=
  authenticate_employee session_timeout_minutes utcnow db.

(** Whether an ID is the privileged one. *)
Definition ciso_id (id : Z) : bool :=
  String.eqb (zfill 9 (py_str (Some id))) CISO_EMPLOYEE_ID.

(** The credentials a session holds were checked against the store, and
    its privileged flag is the one its ID gives. *)
Definition checked (s : Session.UserSession) : Prop :=
  forall id name,
    Session.employee_id s = Some id -> Session.employee_name s = Some name ->
    fst (verify_employee_credentials db id name) = true /\
    Session.is_ciso s = ciso_id id.

Definition verified (w : world) : Prop :=
  forall sid s, sessions w !! sid = Some s -> checked s.

Lemma verified_frame (sid : string) (w w' : world) :
  verified w -> elsewhere sid w w' ->
  (forall s, sessions w' !! sid = Some s -> checked s) ->
  verified w'.
Proof.
  intros Hv He Hs sid' s Hl.
  destruct (decide (sid' = sid)) as [-> | Hne]; [now apply Hs |].
  rewrite (He sid' Hne) in Hl. now apply (Hv sid').
Qed.

Lemma get_cases (sid : string) (w w' : world) (r : option Session.UserSession) :
  get sid w = (r, w') ->
  elsewhere sid w w' /\ trace w' = trace w /\ sessions w' !! sid = r /\
  (r = None \/ r = sessions w !! sid).
Proof.
  intros E.
  destruct (get_session_entry session_timeout_minutes utcnow sid w)
    as (He & Ht & Hl & Hr & _).
  fold get in He, Ht, Hl, Hr. rewrite E in He, Ht, Hl, Hr. simpl in *.
  repeat split; auto. destruct Hr as [Hr | [Hr _]]; auto.
Qed.

Lemma update_cases (sid : string) (kw : kwargs) (w : world) :
  let w' := snd (update sid kw w) in
  elsewhere sid w w' /\ trace w' = trace w /\
  (sessions w' !! sid = None \/
   exists s t, sessions w !! sid = Some s /\
               sessions w' !! sid = Some (update_activity t (setattrs kw s))).
Proof.
  destruct (update_session_entry session_timeout_minutes utcnow sid kw w)
    as (He & Ht & Hl & Hr).
  fold update in He, Ht, Hl, Hr. simpl. repeat split; auto.
  rewrite Hl. destruct Hr as [Hr | (s & Hs & _ & Hr)]; [now left |].
  right. eauto.
Qed.

(** The worlds after the optional updates of the ID and of the name. *)
Definition after_id (sid : string) (employee_id : option Z) (w : world) : world :=
  match employee_id with
  | Some id => snd (update sid (only_employee_id (Some id)) w)
  | None => w
  end.

Definition after_name (sid : string) (employee_name : option string) (w : world)
    : world :=
  match employee_name with
  | Some name => snd (update sid (only_employee_name (Some name)) w)
  | None => w
  end.

(** What the two updates leave under [sid], given what was there. *)
Lemma after_id_entry (sid : string) (employee_id : option Z) (w : world) :
  elsewhere sid w (after_id sid employee_id w) /\
  trace (after_id sid employee_id w) = trace w /\
  forall s', sessions (after_id sid employee_id w) !! sid = Some s' ->
    exists s, sessions w !! sid = Some s /\
      Session.is_ciso s' = Session.is_ciso s /\
      Session.employee_name s' = Session.employee_name s /\
      Session.employee_id s' = match employee_id with
                               | Some id => Some id
                               | None => Session.employee_id s
                               end.
Proof.
  unfold after_id. destruct employee_id as [id|].
  - destruct (update_cases sid (only_employee_id (Some id)) w) as (He & Ht & Hc).
    split; [exact He |]. split; [exact Ht |]. intros s' Hs'.
    destruct Hc as [Hc | (s & t & Hs & Hc)]; [congruence |].
    rewrite Hc in Hs'. injection Hs' as <-. exists s. repeat split; auto.
  - split; [apply elsewhere_refl |]. split; [reflexivity |]. intros s' Hs'.
    exists s'. repeat split; auto.
Qed.

Lemma after_name_entry (sid : string) (employee_name : option string) (w : world) :
  elsewhere sid w (after_name sid employee_name w) /\
  trace (after_name sid employee_name w) = trace w /\
  forall s', sessions (after_name sid employee_name w) !! sid = Some s' ->
    exists s, sessions w !! sid = Some s /\
      Session.is_ciso s' = Session.is_ciso s /\
      Session.employee_id s' = Session.employee_id s /\
      Session.employee_name s' = match employee_name with
                                 | Some name => Some name
                                 | None => Session.employee_name s
                                 end.
Proof.
  unfold after_name. destruct employee_name as [name|].
  - destruct (update_cases sid (only_employee_name (Some name)) w) as (He & Ht & Hc).
    split; [exact He |]. split; [exact Ht |]. intros s' Hs'.
    destruct Hc as [Hc | (s & t & Hs & Hc)]; [congruence |].
    rewrite Hc in Hs'. injection Hs' as <-. exists s. repeat split; auto.
  - split; [apply elsewhere_refl |]. split; [reflexivity |]. intros s' Hs'.
    exists s'. repeat split; auto.
Qed.

(** [authenticate_employee], with its steps named. *)
Lemma authenticate_unfold (sid : string) (employee_id : option Z)
    (employee_name : option string) (w : world) :
  authenticate sid employee_id employee_name w =
  let '(session, w1) := get sid w in
  match session with
  | None => (Returns (false, MSG_INVALID_SESSION, None), w1)
  | Some _ =>
      let w3 := after_name sid employee_name (after_id sid employee_id w1) in
      let '(session, w4) := get sid w3 in
      match session with
      | Some s =>
          match Session.employee_id s, Session.employee_name s with
          | Some id, Some name =>
              let '(is_valid, employee) := verify_employee_credentials db id name in
              if is_valid then
                let w5 := snd (update sid (only_is_ciso (ciso_id id)) w4) in
                let '(session, w6) := get sid w5 in
                (Returns (true, if ciso_id id then MSG_CISO_OK else MSG_AUTH_OK, session),
                 w6)
              else
                (Returns (false, MSG_INVALID_CREDENTIALS, None),
                 snd (update sid reset_credentials w4))
          | _, _ =>
              (Returns (false,
                        ("Please provide your "
                         ++ String.concat " and " (get_missing_fields s))%string,
                        Some s), w4)
          end
      | None => (AttributeError "get_missing_fields", w4)
      end
  end.
Proof. reflexivity. Qed.

(** X20: authentication keeps the store verified.  If every stored session
    that holds both an ID and a name holds a pair that
    [verify_employee_credentials] accepts, and has the privileged flag its ID
    gives, then the same is true after [authenticate_employee], whatever
    the arguments and whatever the clock does; the call changes no other
    session than the one named.  [create_session] and [logout] keep the
    store verified too. *)
Theorem authenticate_keeps_verified (sid : string) (employee_id : option Z)
    (employee_name : option string) (w : world) :
  verified w ->
  let w' := snd (authenticate sid employee_id employee_name w) in
  verified w' /\ elsewhere sid w w' /\
  verified (snd (AuthService.create_session class_defined_at sid w)) /\
  verified (snd (logout sid w)).
Proof.
  intros Hv.
  assert (Hmain : let w' := snd (authenticate sid employee_id employee_name w) in
                  elsewhere sid w w' /\
                  forall s, sessions w' !! sid = Some s -> checked s).
  { rewrite authenticate_unfold.
    destruct (get sid w) as [r1 w1] eqn:E1.
    destruct (get_cases _ _ _ _ E1) as (F1 & _ & L1 & _).
    destruct r1 as [s1|]; simpl.
    2: { split; [exact F1 | intros s Hs; congruence]. }
    destruct (after_id_entry sid employee_id w1) as (F2 & _ & _).
    destruct (after_name_entry sid employee_name (after_id sid employee_id w1))
      as (F3 & _ & _).
    set (w3 := after_name sid employee_name (after_id sid employee_id w1)) in *.
    assert (F13 : elsewhere sid w w3)
      by (eapply elsewhere_trans; [exact F1 | eapply elsewhere_trans; eauto]).
    destruct (get sid w3) as [r4 w4] eqn:E4.
    destruct (get_cases _ _ _ _ E4) as (F4 & _ & L4 & _).
    assert (F14 : elsewhere sid w w4) by (eapply elsewhere_trans; eauto).
    destruct r4 as [s|]; simpl.
    2: { split; [exact F14 | intros s Hs; congruence]. }
    destruct (Session.employee_id s) as [id|] eqn:Eid;
      [destruct (Session.employee_name s) as [name|] eqn:Ename |].
    - destruct (verify_employee_credentials db id name) as [is_valid employee] eqn:Ev.
      destruct is_valid.
      + destruct (update_cases sid (only_is_ciso (ciso_id id)) w4) as (F5 & _ & C5).
        set (w5 := snd (update sid (only_is_ciso (ciso_id id)) w4)) in *.
        destruct (get sid w5) as [r6 w6] eqn:E6.
        destruct (get_cases _ _ _ _ E6) as (F6 & _ & L6 & C6). simpl.
        split; [eapply elsewhere_trans; [exact F14 | eapply elsewhere_trans; eauto] |].
        intros s' Hs'.
        destruct C6 as [C6 | C6]; [congruence |].
        destruct C5 as [C5 | (s4 & t & Hs4 & C5)]; [congruence |].
        rewrite L4 in Hs4. injection Hs4 as <-.
        assert (Es : s' = update_activity t (setattrs (only_is_ciso (ciso_id id)) s))
          by congruence.
        subst s'. intros id' name'. simpl. rewrite Eid, Ename. intros [= <-] [= <-].
        now rewrite Ev.
      + simpl.
        destruct (update_cases sid reset_credentials w4) as (F5 & _ & C5).
        split; [eapply elsewhere_trans; eauto |].
        intros s' Hs'.
        destruct C5 as [C5 | (s4 & t & Hs4 & C5)]; [congruence |].
        rewrite C5 in Hs'. injection Hs' as <-.
        intros id' name'. simpl. discriminate.
    - simpl. split; [exact F14 |]. intros s' Hs'. rewrite L4 in Hs'.
      injection Hs' as <-. intros id' name' _. rewrite Ename. discriminate.
    - simpl. split; [exact F14 |]. intros s' Hs'. rewrite L4 in Hs'.
      injection Hs' as <-. intros id' name'. rewrite Eid. discriminate. }
  destruct Hmain as [He Hs].
  split; [eapply verified_frame; eauto |]. split; [exact He |]. split.
  - apply (verified_frame sid w); [exact Hv | |].
    + intros sid' Hne. simpl. now apply lookup_insert_ne.
    + simpl. rewrite lookup_insert_eq. intros s [= <-] id name. discriminate.
  - apply (verified_frame sid w); [exact Hv | |].
    + intros sid' Hne. simpl. now apply lookup_delete_ne.
    + simpl. rewrite lookup_delete_eq. discriminate.
Qed.

(** X21: what [authenticate_employee] answers.  On a session that is not
    in the store it answers "Invalid session" and leaves the world as it
    is.  It answers success only when the ID and the name now held by the
    session, which are the ones passed wherever one was passed, are accepted
    by [verify_employee_credentials]; the message then tells whether the
    ID is the privileged one, and a session returned holds that pair and
    that flag.  A failure that returns a session is a request for the
    missing fields, named in the message, of a session that is not fully
    authenticated.  After "Invalid credentials" the session, if still
    stored, holds neither ID nor name, while its privileged flag is the one
    it had before the call. *)
Theorem authenticate_employee_outcome (sid : string) (employee_id : option Z)
    (employee_name : option string) (w w' : world) (ok : bool) (msg : string)
    (session : option Session.UserSession) :
  authenticate sid employee_id employee_name w = (Returns (ok, msg, session), w') ->
  (sessions w !! sid = None -> ok = false /\ msg = MSG_INVALID_SESSION /\ w' = w) /\
  (ok = true ->
   exists id name e,
     verify_employee_credentials db id name = (true, Some e) /\
     (forall i, employee_id = Some i -> id = i) /\
     (forall n, employee_name = Some n -> name = n) /\
     msg = (if ciso_id id then MSG_CISO_OK else MSG_AUTH_OK) /\
     forall s, session = Some s ->
       Session.employee_id s = Some id /\ Session.employee_name s = Some name /\
       Session.is_ciso s = ciso_id id) /\
  (forall s, ok = false -> session = Some s ->
     Session.is_authenticated s = false /\
     get_missing_fields s <> [] /\
     msg = ("Please provide your "
            ++ String.concat " and " (get_missing_fields s))%string) /\
  (msg = MSG_INVALID_CREDENTIALS ->
   ok = false /\ session = None /\
   forall s', sessions w' !! sid = Some s' ->
     Session.employee_id s' = None /\ Session.employee_name s' = None /\
     forall s0, sessions w !! sid = Some s0 -> Session.is_ciso s' = Session.is_ciso s0).
Proof.
  rewrite authenticate_unfold.
  destruct (get sid w) as [r1 w1] eqn:E1.
  destruct (get_cases _ _ _ _ E1) as (_ & _ & L1 & C1).
  destruct r1 as [s1|].
  2: { intros [= <- <- <- <-].
       split; [| split; [discriminate | split; [discriminate | discriminate]]].
       intros Hn. repeat split.
       unfold get, SessionStore.get_session in E1. rewrite Hn in E1. congruence. }
  destruct C1 as [C1 | C1]; [discriminate C1 |].
  destruct (after_id_entry sid employee_id w1) as (_ & _ & H2).
  destruct (after_name_entry sid employee_name (after_id sid employee_id w1))
    as (_ & _ & H3).
  set (w3 := after_name sid employee_name (after_id sid employee_id w1)) in *.
  cbv zeta.
  destruct (get sid w3) as [r4 w4] eqn:E4.
  destruct (get_cases _ _ _ _ E4) as (_ & _ & L4 & C4).
  destruct r4 as [s|]; [| discriminate].
  destruct C4 as [C4 | C4]; [discriminate C4 |]. symmetry in C4.
  destruct (H3 s C4) as (s2 & Hs2 & Hc3 & Hi3 & Hn3).
  destruct (H2 s2 Hs2) as (s1' & Hs1' & Hc2 & Hn2 & Hi2).
  rewrite L1 in Hs1'. injection Hs1' as <-.
  assert (Hflag : forall s0, sessions w !! sid = Some s0 ->
                             Session.is_ciso s = Session.is_ciso s0).
  { intros s0 Hs0. rewrite <- C1 in Hs0. injection Hs0 as <-. congruence. }
  assert (Hid : forall i, employee_id = Some i -> Session.employee_id s = Some i).
  { intros i ->. congruence. }
  assert (Hname : forall n, employee_name = Some n -> Session.employee_name s = Some n).
  { intros n ->. congruence. }
  assert (Hsome : sessions w !! sid <> None) by congruence.
  destruct (Session.employee_id s) as [id|] eqn:Eid;
    [destruct (Session.employee_name s) as [name|] eqn:Ename |].
  - destruct (verify_employee_credentials db id name) as [is_valid employee] eqn:Ev.
    destruct is_valid.
    + destruct (update_cases sid (only_is_ciso (ciso_id id)) w4) as (_ & _ & C5).
      set (w5 := snd (update sid (only_is_ciso (ciso_id id)) w4)) in *.
      destruct (get sid w5) as [r6 w6] eqn:E6.
      destruct (get_cases _ _ _ _ E6) as (_ & _ & L6 & C6).
      intros [= <- <- <- <-].
      split; [intros Hn; contradiction |].
      split; [| split; [discriminate |]].
      * intros _.
        destruct (TrainingServiceMore.verify_success_record _ _ _ _ Ev) as [e ->].
        exists id, name, e. split; [exact Ev |].
        split; [intros i Hi; specialize (Hid i Hi); congruence |].
        split; [intros n Hn; specialize (Hname n Hn); congruence |].
        split; [reflexivity |].
        intros s6 Hs6. destruct C6 as [C6 | C6]; [congruence |].
        destruct C5 as [C5 | (s4 & t & Hs4 & C5)]; [congruence |].
        rewrite L4 in Hs4. injection Hs4 as <-.
        assert (Es : s6 = update_activity t (setattrs (only_is_ciso (ciso_id id)) s))
          by congruence.
        subst s6. simpl. auto.
      * intros Hm. exfalso. destruct (ciso_id id); discriminate.
    + destruct (update_cases sid reset_credentials w4) as (_ & _ & C5).
      intros [= <- <- <- <-].
      split; [intros Hn; contradiction |].
      split; [discriminate |]. split; [discriminate |].
      intros _. split; [reflexivity |]. split; [reflexivity |].
      intros s' Hs'.
      destruct C5 as [C5 | (s4 & t & Hs4 & C5)]; [congruence |].
      rewrite L4 in Hs4. injection Hs4 as <-.
      rewrite C5 in Hs'. injection Hs' as <-. simpl. auto.
  - intros [= <- <- <- <-].
    split; [intros Hn; contradiction |].
    split; [discriminate |]. split; [| discriminate].
    intros s' _ [= <-].
    unfold Session.is_authenticated, get_missing_fields. rewrite Eid, Ename.
    repeat split. discriminate.
  - intros [= <- <- <- <-].
    split; [intros Hn; contradiction |].
    split; [discriminate |]. split.
    + intros s' _ [= <-].
      unfold Session.is_authenticated, get_missing_fields. rewrite Eid.
      repeat split. discriminate.
    + destruct (Session.employee_name s); discriminate.
Qed.

End Auth.

Definition registry : list Employee := TrainingServiceMore.sample_db.

Definition open_world : world :=
  {| sessions := {[ "s1" := new_session 0%Z "s1" ]}; clock_reads := 0; trace := [] |}.

Lemma authenticate_keeps_verified_witness :
  verified registry open_world /\
  verified registry
    (snd (authenticate_employee 30 (fun _ => 0%Z) registry "s1" (Some 11%Z)
            (Some "GIL") open_world)).
Proof.
  assert (H : verified registry open_world).
  { intros sid s Hs id name Hid. unfold open_world in Hs. simpl in Hs.
    destruct (decide (sid = "s1")) as [-> | Hne].
    - rewrite lookup_singleton_eq in Hs. injection Hs as <-. discriminate.
    - rewrite lookup_singleton_ne in Hs by congruence. discriminate. }
  split; [exact H |].
  exact (proj1 (authenticate_keeps_verified 30 (fun _ => 0%Z) 0%Z registry
                  "s1" (Some 11%Z) (Some "GIL") open_world H)).
Defined.

Lemma authenticate_employee_outcome_witness :
  exists session w',
    authenticate_employee 30 (fun _ => 0%Z) registry "s1" (Some 11%Z) (Some "GIL")
      open_world = (Returns (true, MSG_AUTH_OK, session), w') /\
    exists id name e,
      verify_employee_credentials registry id name = (true, Some e) /\
      EMPLOYEE_NAME e = "Gil".
Proof.
  eexists. eexists. split; [vm_compute; reflexivity |].
  destruct (authenticate_employee_outcome 30 (fun _ => 0%Z) registry "s1"
              (Some 11%Z) (Some "GIL") open_world _ true MSG_AUTH_OK _ eq_refl)
    as (_ & Hok & _).
  destruct (Hok eq_refl) as (id & name & e & Hv & Hi & Hn & _).
  exists id, name, e. split; [exact Hv |].
  rewrite (Hi 11%Z eq_refl), (Hn "GIL" eq_refl) in Hv.
  vm_compute in Hv. now injection Hv as <-.
Defined.

End AuthServiceFacts.

(** ** The pipeline and the endpoints: what a call may change and reach *)

Module PipelineFacts.
Import Guardrails IntentParser TrainingService TrainingAgent SessionStoreFacts.

(** A computation that leaves every session as it is, except that it may
    evict the session [sid]; it only adds to the log. *)
Definition quiet {A : Type} (sid : string) (m : M A) : Prop :=
  forall w,
    elsewhere sid w (snd (m w)) /\
    (sessions (snd (m w)) !! sid = None \/
     sessions (snd (m w)) !! sid = sessions w !! sid) /\
    exists l, trace (snd (m w)) = trace w ++ l.

Lemma quiet_ret {A : Type} (sid : string) (a : A) : quiet sid (ret a).
Proof.
  intros w. simpl. split; [apply elsewhere_refl |]. split; [now right |].
  exists []. now rewrite app_nil_r.
Qed.

Lemma quiet_raise {A : Type} (sid : string) (e : agent_exn) : quiet sid (@raise A e).
Proof.
  intros w. simpl. split; [apply elsewhere_refl |]. split; [now right |].
  exists []. now rewrite app_nil_r.
Qed.

Lemma quiet_log (sid : string) (e : event) : quiet sid (log e).
Proof.
  intros w. simpl. split; [intros sid' _; reflexivity |]. split; [now right |].
  now exists [e].
Qed.

Lemma quiet_bind {A B : Type} (sid : string) (m : M A) (f : A -> M B) :
  quiet sid m -> (forall a, quiet sid (f a)) -> quiet sid (mbind m f).
Proof.
  intros Hm Hf w. unfold mbind.
  destruct (Hm w) as (He & Hs & l & Hl).
  destruct (m w) as [[a | e] w1]; simpl in *.
  - destruct (Hf a w1) as (He' & Hs' & l' & Hl').
    split; [eapply elsewhere_trans; eauto |]. split.
    + destruct Hs' as [Hs' | Hs']; [now left |]. rewrite Hs'. exact Hs.
    + exists (l ++ l'). now rewrite Hl', Hl, app_assoc.
  - split; [exact He |]. split; [exact Hs |]. now exists l.
Qed.

Section Pipeline.
Variable session_timeout_minutes : Z.
Variable utcnow : nat -> datetime.
Variable db : list Employee.
Variable _call_llm : text -> context_data -> text.

Let get_session := TrainingAgent.get_session session_timeout_minutes utcnow.
Let is_authenticated := TrainingAgent.is_authenticated session_timeout_minutes utcnow.
Let is_ciso := TrainingAgent.is_ciso session_timeout_minutes utcnow.
Let get_authenticated_employee_id :=
  TrainingAgent.get_authenticated_employee_id session_timeout_minutes utcnow.
Let process_query :=
  TrainingAgent.process_query session_timeout_minutes utcnow db _call_llm.

(** What a lookup returns is the stored session, and the store is then
    unchanged; a lookup never raises and logs nothing. *)
Lemma get_session_returns_stored (sid : string) (w : world) :
  exists r w',
    get_session sid w = (inl r, w') /\ trace w' = trace w /\
    elsewhere sid w w' /\ sessions w' !! sid = r /\
    (r = None \/ (r = sessions w !! sid /\ sessions w' = sessions w)).
Proof.
  unfold get_session. rewrite agent_get_session.
  destruct (get_session_entry session_timeout_minutes utcnow sid w)
    as (He & Ht & Hl & Hr & _).
  eexists. eexists. split; [reflexivity |]. auto.
Qed.

Lemma quiet_get_session (sid : string) : quiet sid (get_session sid).
Proof.
  intros w. destruct (get_session_returns_stored sid w) as (r & w' & E & Ht & He & Hl & Hr).
  rewrite E. simpl. split; [exact He |]. split.
  - rewrite Hl. destruct Hr as [Hr | [Hr _]]; auto.
  - exists []. now rewrite app_nil_r.
Qed.

Lemma quiet_is_authenticated (sid : string) : quiet sid (is_authenticated sid).
Proof.
  apply quiet_bind; [apply quiet_log | intros _].
  apply quiet_bind; [apply quiet_get_session | intros r; apply quiet_ret].
Qed.

Lemma quiet_is_ciso (sid : string) : quiet sid (is_ciso sid).
Proof.
  apply quiet_bind; [apply quiet_get_session | intros r; apply quiet_ret].
Qed.

Lemma quiet_get_authenticated_employee_id (sid : string) :
  quiet sid (get_authenticated_employee_id sid).
Proof.
  apply quiet_bind; [apply quiet_get_session | intros r; apply quiet_ret].
Qed.

Lemma quiet_item {A : Type} (sid : string) (status : option employee_status)
    (key : string) (field : employee_status -> A) :
  quiet sid (item status key field).
Proof. destruct status; [apply quiet_ret | apply quiet_raise]. Qed.

Lemma quiet_lift {A : Type} (sid : string) (r : result A) : quiet sid (lift r).
Proof. destruct r; [apply quiet_ret | apply quiet_raise]. Qed.

Lemma quiet_py_int (sid : string) (s : string) : quiet sid (py_int s).
Proof.
  unfold py_int.
  destruct (match strip (T s) with [] => None | c :: body' => _ end);
    [apply quiet_ret | apply quiet_raise].
Qed.

Ltac quiet_step :=
  first [ apply quiet_ret | apply quiet_raise | apply quiet_log | apply quiet_item
        | apply quiet_lift | apply quiet_py_int
        | apply quiet_bind; [| intros ?] ].

Lemma quiet_dispatch (sid : string) (intent : Intent) (parsed : parsed)
    (target : option Z) (ciso : bool) :
  quiet sid (dispatch db intent parsed target ciso).
Proof.
  unfold dispatch.
  destruct intent, ciso; repeat quiet_step;
    repeat match goal with
           | |- quiet _ (match ?x with _ => _ end) => destruct x
           | |- quiet _ (let '(_, _) := ?x in _) => destruct x
           end;
    repeat quiet_step.
Qed.

Lemma quiet_get_context_data (sid : string) (intent : Intent) (parsed : parsed)
    (employee_id : option Z) (ciso : bool) :
  quiet sid (_get_context_data db intent parsed employee_id ciso).
Proof.
  unfold _get_context_data.
  apply quiet_bind; [apply quiet_log | intros _].
  destruct (if ciso then p_employee_name parsed else None) as [[|c name]|];
    try apply quiet_dispatch.
  destruct (get_employee_by_name db _); [| apply quiet_ret].
  apply quiet_bind; [apply quiet_py_int | intros id; apply quiet_dispatch].
Qed.

Lemma quiet_process_query (query : text) (sid : string) :
  quiet sid (process_query query sid).
Proof.
  unfold process_query, TrainingAgent.process_query.
  destruct (validate_query query) as [is_valid reason].
  destruct is_valid; simpl; [| apply quiet_ret].
  apply quiet_bind; [apply quiet_is_authenticated | intros authenticated].
  destruct authenticated; simpl; [| apply quiet_ret].
  apply quiet_bind; [apply quiet_log | intros _].
  apply quiet_bind; [apply quiet_is_ciso | intros ciso].
  destruct (is_ciso_query query && negb ciso); [apply quiet_ret |].
  apply quiet_bind; [apply quiet_get_authenticated_employee_id | intros employee_id].
  apply quiet_bind; [apply quiet_get_context_data | intros context_data].
  apply quiet_bind; [apply quiet_log | intros _]. apply quiet_ret.
Qed.

(** X22: [process_query] never writes to a session.  Whatever the query,
    the clock and the language model, the sessions of other callers are
    exactly as before, the caller's own session is either exactly as before
    or evicted, and the log only grows; this holds as well when the call
    raises. *)
Theorem process_query_store_read_only (query : text) (sid : string) (w : world) :
  let w' := snd (process_query query sid w) in
  (forall other, other <> sid -> sessions w' !! other = sessions w !! other) /\
  (sessions w' !! sid = None \/ sessions w' !! sid = sessions w !! sid) /\
  (forall other s, sessions w' !! other = Some s -> sessions w !! other = Some s) /\
  exists l, trace w' = trace w ++ l.
Proof.
  destruct (quiet_process_query query sid w) as (He & Hs & Hl).
  split; [exact He |]. split; [exact Hs |]. split; [| exact Hl].
  intros other s Ho. destruct (decide (other = sid)) as [-> | Hne].
  - destruct Hs as [Hs | Hs]; congruence.
  - now rewrite <- (He other Hne).
Qed.

(** The caller's session, if any, does not carry the privileged flag. *)
Definition unprivileged (w : world) (sid : string) : Prop :=
  forall s, sessions w !! sid = Some s -> Session.is_ciso s = false.

Lemma unprivileged_kept (w w' : world) (sid : string) :
  unprivileged w sid ->
  (sessions w' !! sid = None \/ sessions w' !! sid = sessions w !! sid) ->
  unprivileged w' sid.
Proof. intros Hu [H | H] s Hs; [congruence | apply Hu; congruence]. Qed.

Lemma is_authenticated_result (sid : string) (w : world) :
  exists b w',
    is_authenticated sid w = (inl b, w') /\
    trace w' = trace w ++ [EvAuthCheck sid] /\
    (sessions w' !! sid = None \/ sessions w' !! sid = sessions w !! sid) /\
    (b = true -> exists s, sessions w !! sid = Some s /\
                           Session.is_authenticated s = true).
Proof.
  unfold is_authenticated, TrainingAgent.is_authenticated, mbind, log.
  set (w0 := {| sessions := sessions w; clock_reads := clock_reads w;
                trace := trace w ++ [EvAuthCheck sid] |}).
  destruct (get_session_returns_stored sid w0) as (r & w' & E & Ht & _ & Hl & Hr).
  fold get_session. rewrite E. simpl.
  exists (match r with Some s => Session.is_authenticated s | None => false end), w'.
  split; [reflexivity |]. split; [exact Ht |]. split.
  - rewrite Hl. destruct Hr as [Hr | [Hr _]]; auto.
  - destruct r as [s|]; [| discriminate]. intros Hb. exists s.
    destruct Hr as [Hr | [Hr _]]; [discriminate |]. now split.
Qed.

Lemma is_ciso_result (sid : string) (w : world) :
  exists b w',
    is_ciso sid w = (inl b, w') /\ trace w' = trace w /\
    (sessions w' !! sid = None \/ sessions w' !! sid = sessions w !! sid) /\
    (b = true -> exists s, sessions w !! sid = Some s /\ Session.is_ciso s = true).
Proof.
  unfold is_ciso, TrainingAgent.is_ciso, mbind.
  destruct (get_session_returns_stored sid w) as (r & w' & E & Ht & _ & Hl & Hr).
  fold get_session. rewrite E. simpl.
  exists (match r with Some s => Session.is_ciso s | None => false end), w'.
  split; [reflexivity |]. split; [exact Ht |]. split.
  - rewrite Hl. destruct Hr as [Hr | [Hr _]]; auto.
  - destruct r as [s|]; [| discriminate]. intros Hb. exists s.
    destruct Hr as [Hr | [Hr _]]; [discriminate |]. now split.
Qed.

Lemma is_ciso_unprivileged (sid : string) (w : world) :
  unprivileged w sid ->
  exists w', is_ciso sid w = (inl false, w') /\ trace w' = trace w /\
             unprivileged w' sid.
Proof.
  intros Hu. destruct (is_ciso_result sid w) as (b & w' & E & Ht & Hs & Hb).
  destruct b.
  - destruct (Hb eq_refl) as (s & Hs' & Hc). rewrite (Hu s Hs') in Hc. discriminate.
  - exists w'. split; [exact E |]. split; [exact Ht |].
    eapply unprivileged_kept; eauto.
Qed.

Definition data_stage (e : event) : bool :=
  match e with
  | EvDataAccess | EvRender => true
  | _ => false
  end.

(** X23: a company-wide query never reaches the data for a caller who is
    not privileged.  When the guardrails accept the query, [is_ciso_query]
    holds of it and the caller's session does not carry the privileged
    flag, [process_query] returns a failure without context data, either
    the authentication request or the permission message, and neither the
    training service nor the language model is called. *)
Theorem ciso_query_gate (query : text) (sid : string) (w : world) :
  fst (validate_query query) = true ->
  is_ciso_query query = true ->
  unprivileged w sid ->
  exists r w',
    process_query query sid w = (inl r, w') /\
    success r = false /\ context r = None /\
    (r = TrainingAgentFacts.authentication_required \/ response_text r = MSG_CISO) /\
    existsb data_stage (TrainingAgentFacts.logged_since w w') = false.
Proof.
  intros Hv Hq Hu.
  unfold process_query, TrainingAgent.process_query.
  destruct (validate_query query) as [is_valid reason]. simpl in Hv. subst is_valid.
  simpl.
  destruct (is_authenticated_result sid w) as (b & w1 & E1 & Ht1 & Hs1 & _).
  unfold mbind at 1. fold is_authenticated. rewrite E1.
  assert (Hl1 : TrainingAgentFacts.logged_since w w1 = [EvAuthCheck sid]).
  { unfold TrainingAgentFacts.logged_since.
    rewrite Ht1, skipn_app, Nat.sub_diag, skipn_all. reflexivity. }
  destruct b; simpl.
  2: { eexists. exists w1. split; [reflexivity |]. rewrite Hl1. repeat split. now left. }
  unfold mbind at 1. simpl.
  set (w2 := {| sessions := sessions w1; clock_reads := clock_reads w1;
                trace := trace w1 ++ [EvClassify query] |}).
  assert (Hu2 : unprivileged w2 sid) by (eapply unprivileged_kept; eauto).
  destruct (is_ciso_unprivileged sid w2 Hu2) as (w3 & E3 & Ht3 & _).
  unfold mbind at 1. fold is_ciso. rewrite E3. rewrite Hq. simpl.
  eexists. exists w3. split; [reflexivity |]. repeat split; [now right |].
  unfold TrainingAgentFacts.logged_since. rewrite Ht3. simpl. rewrite Ht1.
  rewrite <- app_assoc, skipn_app, Nat.sub_diag, skipn_all. reflexivity.
Qed.

End Pipeline.

Definition company_query : text := T "Show me the average of everyone's training".

Definition plain_session : Session.UserSession :=
  {| Session.session_id := "s1"; Session.employee_id := Some 11%Z;
     Session.employee_name := Some "Gil"; Session.is_ciso := false;
     Session.created_at := 0%Z; Session.last_activity := 0%Z |}.

Definition plain_world : world :=
  {| sessions := {[ "s1" := plain_session ]}; clock_reads := 0; trace := [] |}.

Lemma plain_world_unprivileged : unprivileged plain_world "s1".
Proof.
  intros s Hs. unfold plain_world in Hs. simpl in Hs.
  rewrite lookup_singleton_eq in Hs. now injection Hs as <-.
Qed.

Lemma ciso_query_gate_witness :
  exists r w',
    TrainingAgent.process_query 30 (fun _ => 0%Z) TrainingServiceMore.sample_db
      (fun _ _ => []) company_query "s1" plain_world = (inl r, w') /\
    success r = false /\ context r = None.
Proof.
  destruct (ciso_query_gate 30 (fun _ => 0%Z) TrainingServiceMore.sample_db
              (fun _ _ => []) company_query "s1" plain_world)
    as (r & w' & E & Hs & Hc & _).
  - vm_compute. reflexivity.
  - vm_compute. reflexivity.
  - exact plain_world_unprivileged.
  - exists r, w'. auto.
Defined.

(** X24: for a caller who is not privileged the context data are computed
    from the caller's own record alone: two stores in which the lookup of
    the caller's ID gives the same answer give the same context data,
    whatever the intent and whatever else the stores contain. *)
Theorem own_record_only (db1 db2 : list Employee) (intent : Intent)
    (parsed : parsed) (employee_id : option Z) (w : world) :
  get_employee_by_id db1 employee_id = get_employee_by_id db2 employee_id ->
  _get_context_data db1 intent parsed employee_id false w
  = _get_context_data db2 intent parsed employee_id false w.
Proof.
  intros H. unfold _get_context_data, dispatch, get_employee_status.
  rewrite H. destruct intent; reflexivity.
Qed.

Lemma own_record_only_witness :
  _get_context_data TrainingServiceMore.sample_db GLOBAL_SUMMARY
    (parse company_query) (Some 11%Z) false plain_world
  = _get_context_data [TrainingServiceMore.finisher "000000011" "Gil" 7] GLOBAL_SUMMARY
      (parse company_query) (Some 11%Z) false plain_world.
Proof.
  apply (own_record_only TrainingServiceMore.sample_db
           [TrainingServiceMore.finisher "000000011" "Gil" 7]).
  vm_compute. reflexivity.
Defined.

(** X25: when the employee looked up is not in the store, the intents
    answered with the whole status (EMPLOYEE_STATUS, GENERAL_QUESTION,
    UNKNOWN) get the error dictionary "Employee not found", while the four
    intents that read fields of the status raise [KeyError] on the first
    field they read: "status" for CHECK_COMPLETION, "completed_videos" for
    LIST_COMPLETED_VIDEOS, "missing_videos" for LIST_MISSING_VIDEOS and
    "video_details" for VIDEO_DURATION; the world is left as it is. *)
Theorem unknown_employee_context (db : list Employee) (parsed : parsed)
    (target : option Z) (ciso : bool) (w : world) :
  get_employee_by_id db target = None ->
  (forall intent, In intent [EMPLOYEE_STATUS; GENERAL_QUESTION; UNKNOWN] ->
     dispatch db intent parsed target ciso w = (inl (CtxError "Employee not found"), w)) /\
  dispatch db CHECK_COMPLETION parsed target ciso w = (inr (KeyError "status"), w) /\
  dispatch db LIST_COMPLETED_VIDEOS parsed target ciso w
  = (inr (KeyError "completed_videos"), w) /\
  dispatch db LIST_MISSING_VIDEOS parsed target ciso w
  = (inr (KeyError "missing_videos"), w) /\
  dispatch db VIDEO_DURATION parsed target ciso w = (inr (KeyError "video_details"), w).
Proof.
  intros H. unfold dispatch, get_employee_status. rewrite H.
  split; [| split; [| split; [| split]]].
  - intros intent Hin. simpl in Hin.
    destruct Hin as [<- | [<- | [<- | []]]]; destruct ciso; reflexivity.
  - destruct ciso; reflexivity.
  - destruct ciso; reflexivity.
  - destruct ciso; reflexivity.
  - destruct ciso; destruct (p_video_number parsed) as [[|p]|]; reflexivity.
Qed.

Lemma unknown_employee_context_witness :
  dispatch TrainingServiceMore.sample_db CHECK_COMPLETION (parse company_query)
    (Some 99%Z) false plain_world = (inr (KeyError "status"), plain_world).
Proof.
  apply (unknown_employee_context TrainingServiceMore.sample_db (parse company_query)
           (Some 99%Z) false plain_world).
  vm_compute. reflexivity.
Defined.

End PipelineFacts.

(** ** The status endpoints *)

Module RoutesFacts.
Import TrainingService TrainingAgent SessionStoreFacts PipelineFacts Routes.

Lemma get_global_summary_returns (db : list Employee) :
  exists s, get_global_summary db = Ok s.
Proof.
  unfold get_global_summary. destruct db as [|e db]; [eauto |].
  destruct (with_status "FINISHED" (e :: db)); simpl; eauto.
Qed.

Lemma status_record_id (db : list Employee) (employee_id : option Z)
    (st : employee_status) :
  TrainingService.get_employee_status db employee_id = Some st ->
  es_employee_id st = zfill 9 (py_str employee_id).
Proof.
  unfold TrainingService.get_employee_status.
  destruct (get_employee_by_id db employee_id) as [e|] eqn:E; [| discriminate].
  intros [= <-]. simpl. unfold get_employee_by_id in E.
  apply find_some in E as [_ E]. now apply String.eqb_eq in E.
Qed.

Section Endpoints.
Variable session_timeout_minutes : Z.
Variable utcnow : nat -> datetime.
Variable db : list Employee.

Let is_authenticated := TrainingAgent.is_authenticated session_timeout_minutes utcnow.
Let is_ciso := TrainingAgent.is_ciso session_timeout_minutes utcnow.
Let get_authenticated_employee_id :=
  TrainingAgent.get_authenticated_employee_id session_timeout_minutes utcnow.
Let employee_endpoint := Routes.get_employee_status session_timeout_minutes utcnow db.
Let global_endpoint := Routes.get_global_status session_timeout_minutes utcnow db.

Lemma get_authenticated_employee_id_result (sid : string) (w : world) :
  exists o w',
    get_authenticated_employee_id sid w = (inl o, w') /\
    (o = None \/ exists s, sessions w !! sid = Some s /\ o = Session.employee_id s).
Proof.
  unfold get_authenticated_employee_id, TrainingAgent.get_authenticated_employee_id, mbind.
  destruct (get_session_returns_stored session_timeout_minutes utcnow sid w)
    as (r & w' & E & _ & _ & _ & Hr).
  rewrite E. simpl. eexists. exists w'. split; [reflexivity |].
  destruct r as [s|]; [| now left].
  destruct Hr as [Hr | [Hr _]]; [discriminate |].
  destruct (Session.is_authenticated s); [| now left].
  right. exists s. now split.
Qed.

(** X26: the employee-status endpoint shows an unprivileged caller no
    other record than the caller's own.  A request that names a non-zero
    employee ID is refused, with the not-authenticated or the permission
    message and no data; a request that names the ID 0 is handled like one
    that names none; and the data of any successful answer are the record
    stored under the padded ID of the caller's session (or under the
    padded text of a missing ID, when the session expired during the
    call). *)
Theorem employee_endpoint_own_record (sid : string) (employee_id : option Z)
    (w : world) :
  unprivileged w sid ->
  let r := fst (employee_endpoint sid employee_id w) in
  (forall id, employee_id = Some id -> id <> 0%Z ->
     esr_success r = false /\ esr_data r = None /\
     (esr_error r = Some MSG_NOT_AUTHENTICATED \/
      esr_error r = Some MSG_OTHER_EMPLOYEE)) /\
  employee_endpoint sid (Some 0%Z) w = employee_endpoint sid None w /\
  (forall data, esr_data r = Some data ->
     esr_success r = true /\
     exists s, sessions w !! sid = Some s /\
       (es_employee_id data = zfill 9 (py_str (Session.employee_id s)) \/
        es_employee_id data = zfill 9 (py_str None))).
Proof.
  intros Hu r.
  destruct (is_authenticated_result session_timeout_minutes utcnow sid w)
    as (b & w1 & E1 & _ & Hs1 & Hb).
  assert (Hu1 : unprivileged w1 sid) by (eapply unprivileged_kept; eauto).
  destruct (is_ciso_unprivileged session_timeout_minutes utcnow sid w1 Hu1)
    as (w2 & E2 & _ & _).
  destruct (get_authenticated_employee_id_result sid w1) as (own & w3 & E3 & Hown).
  assert (Hr : r = fst (employee_endpoint sid employee_id w)) by reflexivity.
  unfold employee_endpoint, Routes.get_employee_status, except in Hr.
  unfold mbind at 1 in Hr. rewrite E1 in Hr.
  split; [| split; [reflexivity |]].
  - intros id -> Hne. destruct b; simpl in Hr.
    + destruct id as [|p|p]; [contradiction | |];
        unfold mbind in Hr; rewrite E2 in Hr; simpl in Hr;
        rewrite Hr; simpl; auto.
    + rewrite Hr. simpl. auto.
  - intros data Hd. destruct b; simpl in Hr; [| rewrite Hr in Hd; discriminate].
    destruct (Hb eq_refl) as (s & Hs & _).
    assert (Hown' : own = None \/ own = Session.employee_id s).
    { destruct Hown as [Ho | (s' & Hs' & Ho)]; [now left | right].
      destruct Hs1 as [Hs1 | Hs1]; [congruence |].
      rewrite Hs1, Hs in Hs'. now injection Hs' as <-. }
    assert (Hdata : forall o, esr_data (status_response
                      (TrainingService.get_employee_status db o)) = Some data ->
                    esr_success (status_response
                      (TrainingService.get_employee_status db o)) = true /\
                    es_employee_id data = zfill 9 (py_str o)).
    { intros o. destruct (TrainingService.get_employee_status db o) as [st|] eqn:Est;
        simpl; [| discriminate].
      intros [= <-]. split; [reflexivity |]. now apply (status_record_id db). }
    destruct employee_id as [[|p|p]|];
      unfold mbind in Hr;
      try (rewrite E2 in Hr; simpl in Hr;
           rewrite Hr in Hd; discriminate);
      fold get_authenticated_employee_id in Hr; rewrite E3 in Hr; simpl in Hr;
      rewrite Hr in Hd |- *; destruct (Hdata own Hd) as [Hok Hid];
      (split; [exact Hok |]); exists s; (split; [exact Hs |]);
      destruct Hown' as [-> | ->]; auto.
Qed.

(** X27: the global-status endpoint gives an unprivileged caller no data.
    It never falls back on its generic failure message, because nothing it
    calls can raise.  A successful answer means that the session under that
    identifier is fully authenticated and privileged; a cohort is returned
    only for one of the three status names, with its number of rows, and no
    other non-empty filter is ever answered with a success. *)
Theorem global_endpoint_gate (sid : string) (status_filter : option string)
    (w : world) :
  let r := fst (global_endpoint sid status_filter w) in
  (unprivileged w sid -> gsr_success r = false /\ gsr_data r = None) /\
  gsr_error r <> Some MSG_GLOBAL_FAILED /\
  (gsr_success r = true ->
   exists s, sessions w !! sid = Some s /\
             Session.is_authenticated s = true /\ Session.is_ciso s = true) /\
  (forall f rows n, gsr_data r = Some (ByStatus f rows n) ->
     status_filter = Some f /\ In f valid_statuses /\
     rows = get_employees_by_status db f /\ n = length rows) /\
  (forall f, status_filter = Some f -> f <> "" -> ~ In f valid_statuses ->
     gsr_success r = true -> False).
Proof.
  intros r.
  destruct (is_authenticated_result session_timeout_minutes utcnow sid w)
    as (b & w1 & E1 & _ & Hs1 & Hb).
  destruct (is_ciso_result session_timeout_minutes utcnow sid w1)
    as (c & w2 & E2 & _ & _ & Hc).
  destruct (get_global_summary_returns db) as [summary Hsum].
  assert (Hr : r = fst (global_endpoint sid status_filter w)) by reflexivity.
  unfold global_endpoint, Routes.get_global_status, except in Hr.
  unfold mbind at 1 in Hr. rewrite E1 in Hr.
  destruct b; simpl in Hr.
  2: { rewrite Hr. simpl. repeat split; try discriminate. }
  unfold mbind at 1 in Hr. rewrite E2 in Hr.
  destruct (Hb eq_refl) as (s & Hs & Ha).
  destruct c; simpl in Hr.
  2: { rewrite Hr. simpl. repeat split; try discriminate. }
  destruct (Hc eq_refl) as (s' & Hs' & Hcs).
  assert (Es : s' = s).
  { destruct Hs1 as [Hs1 | Hs1]; [congruence |].
    rewrite Hs1, Hs in Hs'. now injection Hs' as <-. }
  subst s'.
  assert (Hpriv : unprivileged w sid -> False).
  { intros Hu. rewrite (Hu s Hs) in Hcs. discriminate. }
  destruct status_filter as [[|ch f]|].
  - unfold mbind in Hr. rewrite Hsum in Hr. simpl in Hr. rewrite Hr. simpl.
    split; [intros Hu; now destruct (Hpriv Hu) |]. split; [discriminate |].
    split; [eauto |]. split; [discriminate |]. intros f [= <-] Hne. now destruct Hne.
  - destruct (existsb (String.eqb (String ch f)) valid_statuses) eqn:Ev;
      pose proof Ev as Ev'; simpl in Ev', Hr; rewrite Ev' in Hr; simpl in Hr;
      rewrite Hr; simpl.
    + split; [intros Hu; now destruct (Hpriv Hu) |]. split; [discriminate |].
      split; [eauto |]. split.
      * intros f' rows n [= <- <- <-]. repeat split.
        apply existsb_exists in Ev as (x & Hx & Hex).
        apply String.eqb_eq in Hex. now subst x.
      * intros f' [= <-] _ Hn _. apply Hn.
        apply existsb_exists in Ev as (x & Hx & Hex).
        apply String.eqb_eq in Hex. now subst x.
    + split; [split; reflexivity |]. split; [discriminate |].
      split; [discriminate |]. split; [discriminate |]. intros; discriminate.
  - unfold mbind in Hr. rewrite Hsum in Hr. simpl in Hr. rewrite Hr. simpl.
    split; [intros Hu; now destruct (Hpriv Hu) |]. split; [discriminate |].
    split; [eauto |]. split; discriminate.
Qed.

End Endpoints.

Lemma employee_endpoint_own_record_witness :
  esr_error (fst (Routes.get_employee_status 30 (fun _ => 0%Z)
                    TrainingServiceMore.sample_db "s1" (Some 12%Z) plain_world))
  = Some MSG_OTHER_EMPLOYEE.
Proof.
  destruct (employee_endpoint_own_record 30 (fun _ => 0%Z)
              TrainingServiceMore.sample_db "s1" (Some 12%Z) plain_world
              plain_world_unprivileged) as (H & _).
  destruct (H 12%Z eq_refl) as (_ & _ & [He | He]); [discriminate | | exact He].
  vm_compute in He. discriminate.
Defined.

End RoutesFacts.
